(** * libgav1 DSP kernels: distance-weighted blend (NEON) and film-grain
    blending (SSE4.1)

    A shallow embedding of [src/dsp/arm/distance_weighted_blend_neon.cc] and
    [src/dsp/x86/film_grain_sse4.cc].

    Conventions.
    - A machine integer is a [Z]; every wrap-around and saturation is written
      out ([wrap16], [wrap32], [sat_s16], [sat_u8]).
    - A vector register is the list of its lanes, lane 0 first.  Signed
      16-bit lanes are kept in their signed reading; a 32-bit view has four
      lanes, a byte view sixteen.
    - A buffer is a [list Z] of elements (one cell per pixel / sample); a C
      pointer into it is a [Z] element offset.  A read outside the list
      yields 0 and a write outside it is dropped: the source has undefined
      behaviour there, and the theorems state the bounds they need. *)

From stdpp Require Import base decidable option numbers list list_numbers.

Local Open Scope Z_scope.

(** ** Machine integers *)

Definition wrap16 (z : Z) : Z := (z + 32768) `mod` 65536 - 32768.
Definition wrap32 (z : Z) : Z := (z + 2147483648) `mod` 4294967296 - 2147483648.
Definition zext8 (z : Z) : Z := z `mod` 256.
Definition sext8 (z : Z) : Z := (z + 128) `mod` 256 - 128.
Definition zext16 (z : Z) : Z := z `mod` 65536.

Definition sat_s16 (z : Z) : Z := Z.max (-32768) (Z.min 32767 z).
Definition sat_u8 (z : Z) : Z := Z.max 0 (Z.min 255 z).

Definition is_u8 (z : Z) : Prop := 0 <= z <= 255.
Definition is_s8 (z : Z) : Prop := -128 <= z <= 127.
Definition is_u16 (z : Z) : Prop := 0 <= z <= 65535.
Definition is_s16 (z : Z) : Prop := -32768 <= z <= 32767.

(** Modelled from the spec: [RightShiftWithRounding] ([src/utils/common.h])
    is not part of the sources at hand; it is the rounding right shift of
    section 4.3, half a unit added before an arithmetic shift:
    [(value + ((1 << bits) >> 1)) >> bits]. *)
Definition RightShiftWithRounding (value bits : Z) : Z :=
  (value + ((1 ≪ bits) ≫ 1)) ≫ bits.

(** Modelled from the spec: the scalar [Clip3] ([src/utils/common.h]) is
    not part of the sources at hand; it is the clip of section 4.4 to the
    closed range [low, high]. *)
Definition Clip3_scalar (value low high : Z) : Z :=
  if decide (value < low) then low
  else if decide (value > high) then high else value.

(** Rounding to the nearest integer of [value / 2^bits], ties away from
    zero. *)
Definition round_half_away (value bits : Z) : Z :=
  Z.sgn value * ((Z.abs value + 2 ^ (bits - 1)) ≫ bits).

(** ** Buffers *)

Definition rd (m : list Z) (p : Z) : Z :=
  if decide (0 <= p) then default 0 (m !! Z.to_nat p) else 0.

Definition load (n : Z) (m : list Z) (p : Z) : list Z :=
  (λ i, rd m (p + i)) <$> seqZ 0 n.

Definition store (m : list Z) (p : Z) (vs : list Z) : list Z :=
  if decide (0 <= p) then list_inserts (Z.to_nat p) vs m else m.

(** ** Loops *)

(** [for (; i < limit; i += step) body]; returns the final [i] too, which
    the film-grain kernels read after the loop.  The fuel bounds the number
    of iterations; [Z.to_nat (limit - i)] is enough when [step >= 1]. *)
Fixpoint for_loop {St} (fuel : nat) (i limit step : Z)
    (body : Z → St → St) (s : St) : Z * St :=
  match fuel with
  | O => (i, s)
  | S n =>
      if decide (i < limit)
      then for_loop n (i + step) limit step body (body i s)
      else (i, s)
  end.

(** [do body while (cond)]: the body runs before the first test.  [None]
    when the fuel runs out (the source loop would still be running). *)
Fixpoint do_while {St} (fuel : nat) (body : St → option St)
    (cond : St → bool) (s : St) : option St :=
  match fuel with
  | O => None
  | S n =>
      s' ← body s;
      if cond s' then do_while n body cond s' else Some s'
  end.

(** ** NEON intrinsics used by the blend *)

Module NEON.

(** [vdup_n_s16]: four copies of a 16-bit value. *)
Definition vdup_n_s16 (a : Z) : list Z := replicate 4 (wrap16 a).

Definition vget_low_s16 (v : list Z) : list Z := take 4 v.
Definition vget_high_s16 (v : list Z) : list Z := drop 4 v.
Definition vcombine_s16 (lo hi : list Z) : list Z := lo ++ hi.
Definition vcombine_u8 (lo hi : list Z) : list Z := lo ++ hi.

(** [vmull_s16]: widening multiply, 16x16 -> 32 bits. *)
Definition vmull_s16 (a b : list Z) : list Z :=
  zip_with (λ x y, wrap32 (x * y)) a b.

(** [vmlal_s16]: widening multiply-accumulate into 32-bit lanes. *)
Definition vmlal_s16 (acc a b : list Z) : list Z :=
  zip_with (λ c p, wrap32 (c + p)) acc (zip_with Z.mul a b).

(** [vqrshrn_n_s32]: rounding shift right by [n], then signed saturation
    to 16 bits.  The rounding constant is added without overflow. *)
Definition vqrshrn_n_s32 (v : list Z) (n : Z) : list Z :=
  (λ x, sat_s16 ((x + 2 ^ (n - 1)) ≫ n)) <$> v.

(** [vqmovun_s16]: signed 16 bits to unsigned 8 bits, saturating. *)
Definition vqmovun_s16 (v : list Z) : list Z := sat_u8 <$> v.

Definition vld1_s16 (m : list Z) (p : Z) : list Z := load 4 m p.
Definition vld1q_s16 (m : list Z) (p : Z) : list Z := load 8 m p.
Definition vst1_u8 (m : list Z) (p : Z) (v : list Z) : list Z :=
  store m p (take 8 v).
Definition vst1q_u8 (m : list Z) (p : Z) (v : list Z) : list Z :=
  store m p (take 16 v).

(** Modelled from the spec: [StoreLo4] / [StoreHi4]
    ([src/dsp/arm/common_neon.h]) are not part of the sources at hand; by
    their use in the 4-wide kernel they store the low / high four bytes of
    an 8-byte vector, one destination row each. *)
Definition StoreLo4 (m : list Z) (p : Z) (v : list Z) : list Z :=
  store m p (take 4 v).
Definition StoreHi4 (m : list Z) (p : Z) (v : list Z) : list Z :=
  store m p (take 4 (drop 4 v)).

End NEON.

(** ** distance_weighted_blend_neon.cc *)

Module DistanceWeightedBlend.
Import NEON.

Definition kInterPostRoundBit : Z := 4.

Definition ComputeWeightedAverage8 (pred0 pred1 : list Z)
    (weights : list Z * list Z) : list Z :=
  let wpred0_lo := vmull_s16 weights.1 (vget_low_s16 pred0) in
  let wpred0_hi := vmull_s16 weights.1 (vget_high_s16 pred0) in
  let blended_lo := vmlal_s16 wpred0_lo weights.2 (vget_low_s16 pred1) in
  let blended_hi := vmlal_s16 wpred0_hi weights.2 (vget_high_s16 pred1) in
  vcombine_s16 (vqrshrn_n_s32 blended_lo (kInterPostRoundBit + 4))
               (vqrshrn_n_s32 blended_hi (kInterPostRoundBit + 4)).

(** The cursor state of a kernel: the two predictor pointers, the
    destination pointer and the destination buffer. *)
Record cursor := Cursor {
  prediction_0 : Z;
  prediction_1 : Z;
  dst : Z;
  dest : list Z
}.

Section Kernels.
(** The two predictor buffers and their strides are read-only. *)
Variables (pred_0 pred_1 : list Z).
Variables (prediction_stride_0 prediction_stride_1 : Z).
Variable (weights : list Z * list Z).
Variable (dest_stride : Z).

Definition Blend4xH_body (c : cursor) : cursor :=
  let p0 := prediction_0 c in
  let p1 := prediction_1 c in
  let src_00 := vld1_s16 pred_0 p0 in
  let src_10 := vld1_s16 pred_1 p1 in
  let p0 := p0 + prediction_stride_0 in
  let p1 := p1 + prediction_stride_1 in
  let src_01 := vld1_s16 pred_0 p0 in
  let src_11 := vld1_s16 pred_1 p1 in
  let p0 := p0 + prediction_stride_0 in
  let p1 := p1 + prediction_stride_1 in
  let res01 :=
    ComputeWeightedAverage8 (vcombine_s16 src_00 src_01)
                            (vcombine_s16 src_10 src_11) weights in
  let src_02 := vld1_s16 pred_0 p0 in
  let src_12 := vld1_s16 pred_1 p1 in
  let p0 := p0 + prediction_stride_0 in
  let p1 := p1 + prediction_stride_1 in
  let src_03 := vld1_s16 pred_0 p0 in
  let src_13 := vld1_s16 pred_1 p1 in
  let p0 := p0 + prediction_stride_0 in
  let p1 := p1 + prediction_stride_1 in
  let res23 :=
    ComputeWeightedAverage8 (vcombine_s16 src_02 src_03)
                            (vcombine_s16 src_12 src_13) weights in
  let result_01 := vqmovun_s16 res01 in
  let result_23 := vqmovun_s16 res23 in
  let d := dst c in
  let m := StoreLo4 (dest c) d result_01 in
  let d := d + dest_stride in
  let m := StoreHi4 m d result_01 in
  let d := d + dest_stride in
  let m := StoreLo4 m d result_23 in
  let d := d + dest_stride in
  let m := StoreHi4 m d result_23 in
  let d := d + dest_stride in
  Cursor p0 p1 d m.

(** [template <int height>]: [for (int y = 0; y < height; y += 4)]. *)
Definition DistanceWeightedBlend4xH_NEON (height : Z) (c : cursor) : cursor :=
  (for_loop (Z.to_nat height) 0 height 4 (λ _, Blend4xH_body) c).2.

Definition Blend8xH_body (c : cursor) : cursor :=
  let p0 := prediction_0 c in
  let p1 := prediction_1 c in
  let src_00 := vld1q_s16 pred_0 p0 in
  let src_10 := vld1q_s16 pred_1 p1 in
  let p0 := p0 + prediction_stride_0 in
  let p1 := p1 + prediction_stride_1 in
  let res0 := ComputeWeightedAverage8 src_00 src_10 weights in
  let src_01 := vld1q_s16 pred_0 p0 in
  let src_11 := vld1q_s16 pred_1 p1 in
  let p0 := p0 + prediction_stride_0 in
  let p1 := p1 + prediction_stride_1 in
  let res1 := ComputeWeightedAverage8 src_01 src_11 weights in
  let result0 := vqmovun_s16 res0 in
  let result1 := vqmovun_s16 res1 in
  let d := dst c in
  let m := vst1_u8 (dest c) d result0 in
  let d := d + dest_stride in
  let m := vst1_u8 m d result1 in
  let d := d + dest_stride in
  Cursor p0 p1 d m.

(** [template <int height>]: [for (int y = 0; y < height; y += 2)]. *)
Definition DistanceWeightedBlend8xH_NEON (height : Z) (c : cursor) : cursor :=
  (for_loop (Z.to_nat height) 0 height 2 (λ _, Blend8xH_body) c).2.

(** Inner [do ... while (x < width)] of the large kernel; the state is
    [x] and the destination buffer. *)
Definition BlendLarge_xbody (c : cursor) (s : Z * list Z) : option (Z * list Z) :=
  let '(x, m) := s in
  let src0_lo := vld1q_s16 pred_0 (prediction_0 c + x) in
  let src1_lo := vld1q_s16 pred_1 (prediction_1 c + x) in
  let res_lo := ComputeWeightedAverage8 src0_lo src1_lo weights in
  let src0_hi := vld1q_s16 pred_0 (prediction_0 c + x + 8) in
  let src1_hi := vld1q_s16 pred_1 (prediction_1 c + x + 8) in
  let res_hi := ComputeWeightedAverage8 src0_hi src1_hi weights in
  let result := vcombine_u8 (vqmovun_s16 res_lo) (vqmovun_s16 res_hi) in
  let m := vst1q_u8 m (dst c + x) result in
  Some (x + 16, m).

(** Outer [do ... while (--y != 0)]; the state is [y] and the cursor. *)
Definition BlendLarge_ybody (width : Z) (s : Z * cursor) : option (Z * cursor) :=
  let '(y, c) := s in
  '(_, m) ← do_while (S (Z.to_nat width)) (BlendLarge_xbody c)
                     (λ s, bool_decide (s.1 < width)) (0, dest c);
  Some (y - 1,
        Cursor (prediction_0 c + prediction_stride_0)
               (prediction_1 c + prediction_stride_1)
               (dst c + dest_stride) m).

Definition DistanceWeightedBlendLarge_NEON (width height : Z)
    (c : cursor) : option cursor :=
  snd <$> do_while (Z.to_nat height) (BlendLarge_ybody width)
                   (λ s, bool_decide (s.1 ≠ 0)) (height, c).
End Kernels.

(** The entry point.  [weight_0] and [weight_1] are [uint8_t]; the
    [assert]s on the height are compiled out, the [else] / [default] arm
    is taken whatever the height is. *)
Definition DistanceWeightedBlend_NEON
    (prediction_0 : list Z) (prediction_stride_0 : Z)
    (prediction_1 : list Z) (prediction_stride_1 : Z)
    (weight_0 weight_1 : Z) (width height : Z)
    (dest : list Z) (dest_stride : Z) : option (list Z) :=
  let weights := (vdup_n_s16 weight_0, vdup_n_s16 weight_1) in
  let c := Cursor 0 0 0 dest in
  let k4 := DistanceWeightedBlend4xH_NEON prediction_0 prediction_1
              prediction_stride_0 prediction_stride_1 weights dest_stride in
  let k8 := DistanceWeightedBlend8xH_NEON prediction_0 prediction_1
              prediction_stride_0 prediction_stride_1 weights dest_stride in
  if decide (width = 4) then
    if decide (height = 4) then Some (DistanceWeightedBlend.dest (k4 4 c))
    else if decide (height = 8) then Some (DistanceWeightedBlend.dest (k4 8 c))
    else Some (DistanceWeightedBlend.dest (k4 16 c))
  else if decide (width = 8) then
    if decide (height = 4) then Some (DistanceWeightedBlend.dest (k8 4 c))
    else if decide (height = 8) then Some (DistanceWeightedBlend.dest (k8 8 c))
    else if decide (height = 16) then Some (DistanceWeightedBlend.dest (k8 16 c))
    else Some (DistanceWeightedBlend.dest (k8 32 c))
  else
    DistanceWeightedBlend.dest <$>
      DistanceWeightedBlendLarge_NEON prediction_0 prediction_1
        prediction_stride_0 prediction_stride_1 weights dest_stride
        width height c.

(** The value the blend stores for one sample, as section 4.3 gives it. *)
Definition blend_sample (pred0 pred1 weight0 weight1 : Z) : Z :=
  sat_u8 (RightShiftWithRounding (pred0 * weight0 + pred1 * weight1)
                                 (kInterPostRoundBit + 4)).

(** The block sizes the dispatcher is written for: the two narrow kernels
    with the heights their templates are instantiated at, and the large
    kernel for every width that is a multiple of 16 (16, 32, 64 and 128 in
    the codec). *)
Definition supported (width height : Z) : Prop :=
  (width = 4 ∧ (height = 4 ∨ height = 8 ∨ height = 16)) ∨
  (width = 8 ∧ (height = 4 ∨ height = 8 ∨ height = 16 ∨ height = 32)) ∨
  (16 <= width ∧ width `mod` 16 = 0 ∧ 1 <= height).

End DistanceWeightedBlend.


(** ** SSE4.1 intrinsics used by the film-grain kernels

    A [__m128i] is modelled by the view the intrinsic reads it in: sixteen
    bytes, eight signed 16-bit lanes or four signed 32-bit lanes.  Where the
    source hands a register from one view to another the cast is written
    out ([epi8_as_epi16], [epi32_as_epi16]). *)

Module SSE.

Fixpoint interleave (a b : list Z) : list Z :=
  match a, b with
  | x :: a', y :: b' => x :: y :: interleave a' b'
  | _, _ => []
  end.

(** Sixteen bytes read as eight little-endian signed 16-bit lanes. *)
Fixpoint epi8_as_epi16 (v : list Z) : list Z :=
  match v with
  | lo :: hi :: v' => wrap16 (lo + 256 * hi) :: epi8_as_epi16 v'
  | _ => []
  end.

(** Four 32-bit lanes read as eight signed 16-bit lanes, low half first. *)
Definition epi32_as_epi16 (v : list Z) : list Z :=
  v ≫= λ x, [wrap16 x; wrap16 (x ≫ 16)].

Definition _mm_setzero_si128 : list Z := replicate 16 0.
Definition _mm_set1_epi16 (a : Z) : list Z := replicate 8 (wrap16 a).
Definition _mm_set1_epi32 (a : Z) : list Z := replicate 4 (wrap32 a).

(** [_mm_cvtsi32_si128]: the integer in the low 32 bits, zeroes above.  The
    kernels only use it as the shift count of [_mm_sll_epi16], which reads
    the low quadword as an unsigned number; that number is what is kept. *)
Definition _mm_cvtsi32_si128 (a : Z) : Z := a `mod` 2 ^ 32.

(** Modelled from the spec: the load and store helpers of
    [src/dsp/x86/common_sse4.h] are not part of the sources at hand; they
    are taken by their names and uses.  [LoadLo8] ([_mm_loadl_epi64]): eight
    bytes in the low half, zeroes in the high half. *)
Definition LoadLo8 (m : list Z) (p : Z) : list Z := load 8 m p ++ replicate 8 0.

(** Modelled from the spec: [LoadUnaligned16] / [LoadAligned16] of eight
    16-bit elements, in the signed reading of the lanes. *)
Definition LoadUnaligned16 (m : list Z) (p : Z) : list Z := wrap16 <$> load 8 m p.
Definition LoadAligned16 (m : list Z) (p : Z) : list Z := wrap16 <$> load 8 m p.

(** Modelled from the spec: [LoadUnaligned16] of sixteen bytes. *)
Definition LoadUnaligned16_epi8 (m : list Z) (p : Z) : list Z :=
  zext8 <$> load 16 m p.

(** Modelled from the spec: [StoreLo8], the low eight bytes. *)
Definition StoreLo8 (m : list Z) (p : Z) (v : list Z) : list Z :=
  store m p (take 8 v).

(** Modelled from the spec: [StoreUnaligned16] of eight lanes to
    [uint16_t] elements. *)
Definition StoreUnaligned16 (m : list Z) (p : Z) (v : list Z) : list Z :=
  store m p (zext16 <$> take 8 v).

Definition _mm_cvtepi8_epi16 (v : list Z) : list Z := sext8 <$> take 8 v.
Definition _mm_cvtepu8_epi16 (v : list Z) : list Z := zext8 <$> take 8 v.

Definition _mm_packus_epi16 (a b : list Z) : list Z :=
  (sat_u8 <$> a) ++ (sat_u8 <$> b).
Definition _mm_packs_epi32 (a b : list Z) : list Z :=
  (sat_s16 <$> a) ++ (sat_s16 <$> b).

Definition _mm_unpackhi_epi8 (a b : list Z) : list Z :=
  interleave (drop 8 a) (drop 8 b).
Definition _mm_unpacklo_epi16 (a b : list Z) : list Z :=
  interleave (take 4 a) (take 4 b).
Definition _mm_unpackhi_epi16 (a b : list Z) : list Z :=
  interleave (drop 4 a) (drop 4 b).

(** Lane operations. *)
Definition add16 (x y : Z) : Z := wrap16 (x + y).
Definition sub16 (x y : Z) : Z := wrap16 (x - y).
(** [((a * b >> 14) + 1) >> 1], low 16 bits. *)
Definition mulhrs16 (x y : Z) : Z := wrap16 ((((x * y) ≫ 14) + 1) ≫ 1).
(** Shifts; a count above 15 clears the lane. *)
Definition sll16 (x count : Z) : Z :=
  if decide (15 < count) then 0 else wrap16 (x ≪ count).
Definition srl16 (x count : Z) : Z :=
  if decide (15 < count) then 0 else wrap16 (zext16 x ≫ count).

Definition _mm_add_epi16 (a b : list Z) : list Z := zip_with add16 a b.
Definition _mm_sub_epi16 (a b : list Z) : list Z := zip_with sub16 a b.
Definition _mm_min_epi16 (a b : list Z) : list Z := zip_with Z.min a b.
Definition _mm_max_epi16 (a b : list Z) : list Z := zip_with Z.max a b.

(** [_mm_hadd_epi16]: sums of adjacent lanes, those of [a] first. *)
Fixpoint hadd_pairs (v : list Z) : list Z :=
  match v with
  | x :: y :: v' => wrap16 (x + y) :: hadd_pairs v'
  | _ => []
  end.
Definition _mm_hadd_epi16 (a b : list Z) : list Z :=
  hadd_pairs a ++ hadd_pairs b.

(** [_mm_madd_epi16]: products of 16-bit lanes, adjacent pairs summed into
    32-bit lanes. *)
Fixpoint _mm_madd_epi16 (a b : list Z) : list Z :=
  match a, b with
  | x0 :: x1 :: a', y0 :: y1 :: b' =>
      wrap32 (x0 * y0 + x1 * y1) :: _mm_madd_epi16 a' b'
  | _, _ => []
  end.

Definition _mm_mulhrs_epi16 (a b : list Z) : list Z := zip_with mulhrs16 a b.

Definition _mm_slli_epi16 (a : list Z) (imm8 : Z) : list Z :=
  (λ x, sll16 x imm8) <$> a.
Definition _mm_sll_epi16 (a : list Z) (count : Z) : list Z :=
  (λ x, sll16 x count) <$> a.
Definition _mm_srli_epi16 (a : list Z) (imm8 : Z) : list Z :=
  (λ x, srl16 x imm8) <$> a.

(** Arithmetic shift of 32-bit lanes; a count above 31 fills with the
    sign. *)
Definition _mm_srai_epi32 (a : list Z) (imm8 : Z) : list Z :=
  (λ x, x ≫ Z.min imm8 31) <$> a.

(** Modelled from the spec: [RightShiftWithRounding_U16] is declared in
    [src/dsp/x86/common_sse4.h], which is not part of the sources at hand;
    section 4.5 gives the rounded average as [(a + b + 1) >> 1], that is
    the lanes read as unsigned, half a unit added, shifted right. *)
Definition rsr_u16 (x bits : Z) : Z :=
  wrap16 (RightShiftWithRounding (zext16 x) bits).
Definition RightShiftWithRounding_U16 (v : list Z) (bits : Z) : list Z :=
  (λ x, rsr_u16 x bits) <$> v.

End SSE.

(** ** film_grain_sse4.cc *)

Module FilmGrain.
Import SSE.

(** The template arguments [Pixel] and [GrainType], and the plane index. *)
Inductive Pixel := uint8_t | uint16_t.
Inductive GrainType := int8_t | int16_t.
Inductive Plane := kPlaneY | kPlaneU | kPlaneV.

#[global] Instance Pixel_eq_dec : EqDecision Pixel.
Proof. solve_decision. Defined.
#[global] Instance GrainType_eq_dec : EqDecision GrainType.
Proof. solve_decision. Defined.
#[global] Instance Plane_eq_dec : EqDecision Plane.
Proof. solve_decision. Defined.

Definition sizeof (P : Pixel) : Z :=
  match P with uint8_t => 1 | uint16_t => 2 end.

(** Modelled from the spec: [Array2D] ([src/utils/array_2d.h]) is not part
    of the sources at hand; section 6 describes the noise image as a
    per-plane 2D sample array indexed by (row, column).  It is kept as
    its row-major storage and its number of columns; [noise[r]] is the
    offset of row [r]. *)
Record Array2D := { columns : Z; data : list Z }.
Definition row_of (a : Array2D) (r : Z) : Z := r * columns a.

(** Modelled from the spec: [FilmGrainParams] ([src/utils/types.h] in the
    repository) is not part of the sources at hand; these are the fields
    section 3 lists and the kernels read. *)
Record FilmGrainParams := {
  chroma_scaling_from_luma : bool;
  chroma_scaling : Z;
  u_multiplier : Z;
  u_luma_multiplier : Z;
  u_offset : Z;
  v_multiplier : Z;
  v_luma_multiplier : Z;
  v_offset : Z
}.

(** Modelled from the spec: [LeftShift] ([src/utils/common.h]) is not part
    of the sources at hand and the spec does not describe it; it is taken
    to be the left shift of a 32-bit [int] done on its unsigned
    representation. *)
Definition LeftShift (value bits : Z) : Z := wrap32 (value ≪ bits).

(** The strides come in bytes and are [ptrdiff_t]; [sizeof(Pixel)] is a
    [size_t].  In [stride /= sizeof(Pixel)] the stride is therefore
    converted to the unsigned 64-bit type and divided there, and the
    quotient is converted back.  A row pointer that advances by that many
    pixels moves by [stride * sizeof(Pixel)] bytes, modulo the address
    space; [stride_in_pixels] is that step of the row pointer, counted in
    pixels.  (A stride of -9 bytes on [uint16_t] gives the quotient
    [2^63 - 5], and rows that lie 5 pixels before one another.) *)
Definition to_size_t (z : Z) : Z := z `mod` 2 ^ 64.
Definition to_ptrdiff_t (z : Z) : Z := (z + 2 ^ 63) `mod` 2 ^ 64 - 2 ^ 63.
Definition stride_in_pixels (P : Pixel) (stride : Z) : Z :=
  let stride := to_ptrdiff_t (to_size_t stride `div` sizeof P) in
  to_ptrdiff_t (stride * sizeof P) `div` sizeof P.

Definition memset0 (n : Z) : list Z := replicate (Z.to_nat n) 0.
Definition memcpy (dst : list Z) (src : list Z) (p n : Z) : list Z :=
  store dst 0 (load n src p).

(** The four overloads of [LoadSource]. *)
Definition LoadSource_int8_t (m : list Z) (p : Z) : list Z :=
  _mm_cvtepi8_epi16 (LoadLo8 m p).
Definition LoadSource_uint8_t (m : list Z) (p : Z) : list Z :=
  _mm_cvtepu8_epi16 (LoadLo8 m p).
Definition LoadSource_int16_t (m : list Z) (p : Z) : list Z :=
  LoadUnaligned16 m p.
Definition LoadSource_uint16_t (m : list Z) (p : Z) : list Z :=
  LoadUnaligned16 m p.

Definition LoadSource_grain (G : GrainType) : list Z → Z → list Z :=
  match G with int8_t => LoadSource_int8_t | int16_t => LoadSource_int16_t end.
Definition LoadSource_pixel (P : Pixel) : list Z → Z → list Z :=
  match P with uint8_t => LoadSource_uint8_t | uint16_t => LoadSource_uint16_t end.

(** The two overloads of [StoreUnsigned]. *)
Definition StoreUnsigned (P : Pixel) (dest : list Z) (p : Z) (data : list Z) : list Z :=
  match P with
  | uint8_t => StoreLo8 dest p (_mm_packus_epi16 data data)
  | uint16_t => StoreUnaligned16 dest p data
  end.

(** The two overloads of [GetAverageLuma]. *)
Definition GetAverageLuma (P : Pixel) (luma : list Z) (p : Z)
    (subsampling_x : Z) : list Z :=
  match P with
  | uint8_t =>
      if decide (subsampling_x ≠ 0) then
        let src := LoadUnaligned16_epi8 luma p in
        RightShiftWithRounding_U16
          (_mm_hadd_epi16 (_mm_cvtepu8_epi16 src)
             (epi8_as_epi16 (_mm_unpackhi_epi8 src _mm_setzero_si128)))
          1
      else _mm_cvtepu8_epi16 (LoadLo8 luma p)
  | uint16_t =>
      if decide (subsampling_x ≠ 0) then
        RightShiftWithRounding_U16
          (_mm_hadd_epi16 (LoadUnaligned16 luma p) (LoadUnaligned16 luma (p + 8)))
          1
      else LoadUnaligned16 luma p
  end.

Definition Clip3 (value low high : list Z) : list Z :=
  let clipped_to_ceiling := _mm_min_epi16 high value in
  _mm_max_epi16 low clipped_to_ceiling.

(** [source] is a buffer and an offset into it: the kernels pass either a
    position of the source plane or a scratch buffer on the stack. *)
Definition GetScalingFactors (bitdepth : Z) (P : Pixel)
    (scaling_lut : list Z) (source : list Z) (p : Z) : list Z :=
  if decide (bitdepth = 8) then
    let start_vals := (λ i, rd scaling_lut (rd source (p + i))) <$> seqZ 0 8 in
    LoadAligned16 start_vals 0
  else
    let index i := rd source (p + i) ≫ 2 in
    let start_vals := (λ i, rd scaling_lut (index i)) <$> seqZ 0 8 in
    let end_vals := (λ i, rd scaling_lut (index i + 1)) <$> seqZ 0 8 in
    let start := LoadAligned16 start_vals 0 in
    let end_ := LoadAligned16 end_vals 0 in
    let remainder := LoadSource_pixel P source p in
    let remainder := _mm_srli_epi16 (_mm_slli_epi16 remainder 14) 1 in
    let delta := _mm_mulhrs_epi16 (_mm_sub_epi16 end_ start) remainder in
    _mm_add_epi16 start delta.

(** [scaling_shift] is in range [8,11]; the template argument is unused. *)
Definition ScaleNoise (bitdepth : Z) (noise scaling : list Z)
    (scaling_shift : Z) : list Z :=
  let shifted_scale_factors := _mm_sll_epi16 scaling scaling_shift in
  _mm_mulhrs_epi16 noise shifted_scale_factors.

Section Luma.
Variables (bitdepth : Z) (G : GrainType) (P : Pixel).
Variable (noise_image : Plane → Array2D).
Variables (min_value max_luma scaling_shift width height start_height : Z).
Variable (scaling_lut_y : list Z).
Variables (source_plane_y : list Z) (source_stride_y : Z).
Variable (dest_stride_y : Z).

(** One pass of the outer [do ... while (++y < height)]; the state is
    [y], the two row pointers and the destination plane. *)
Definition Luma_row (s : Z * Z * Z * list Z) : option (Z * Z * Z * list Z) :=
  let '(y, in_y_row, out_y_row, dest) := s in
  let floor := _mm_set1_epi16 min_value in
  let ceiling := _mm_set1_epi16 max_luma in
  let safe_width := Z.land width (Z.lnot 7) in
  let derived_scaling_shift := _mm_cvtsi32_si128 (15 - scaling_shift) in
  let noise_row := row_of (noise_image kPlaneY) (y + start_height) in
  let '(x, dest) :=
    for_loop (Z.to_nat safe_width) 0 safe_width 8
      (λ x dest,
         let orig := LoadSource_pixel P source_plane_y (in_y_row + x) in
         let scaling :=
           GetScalingFactors bitdepth P scaling_lut_y
                             source_plane_y (in_y_row + x) in
         let noise :=
           LoadSource_grain G (data (noise_image kPlaneY)) (noise_row + x) in
         let noise := ScaleNoise bitdepth noise scaling derived_scaling_shift in
         let combined := _mm_add_epi16 orig noise in
         StoreUnsigned P dest (out_y_row + x) (Clip3 combined floor ceiling))
      dest in
  let dest :=
    if decide (x < width) then
      let luma_buffer := memset0 8 in
      let valid_range := width - x in
      let luma_buffer :=
        memcpy luma_buffer source_plane_y (in_y_row + x) valid_range in
      let luma_buffer :=
        store luma_buffer valid_range [rd source_plane_y (in_y_row + (width - 1))] in
      let orig := LoadSource_pixel P source_plane_y (in_y_row + x) in
      let scaling :=
        GetScalingFactors bitdepth P scaling_lut_y luma_buffer 0 in
      let noise :=
        LoadSource_grain G (data (noise_image kPlaneY)) (noise_row + x) in
      let noise := ScaleNoise bitdepth noise scaling derived_scaling_shift in
      let combined := _mm_add_epi16 orig noise in
      StoreUnsigned P dest (out_y_row + x) (Clip3 combined floor ceiling)
    else dest in
  Some (y + 1, in_y_row + source_stride_y, out_y_row + dest_stride_y, dest).

(** The row loop, on strides counted in pixels. *)
Definition BlendNoiseWithImageLuma_SSE4_1_rows (dest_plane_y : list Z)
    : option (list Z) :=
  snd <$> do_while (S (Z.to_nat height)) Luma_row
                   (λ s, bool_decide (s.1.1.1 < height))
                   (0, 0, 0, dest_plane_y).
End Luma.

Definition BlendNoiseWithImageLuma_SSE4_1 (bitdepth : Z) (G : GrainType) (P : Pixel)
    (noise_image : Plane → Array2D)
    (min_value max_luma scaling_shift width height start_height : Z)
    (scaling_lut_y : list Z)
    (source_plane_y : list Z) (source_stride_y : Z)
    (dest_plane_y : list Z) (dest_stride_y : Z) : option (list Z) :=
  let source_stride_y := stride_in_pixels P source_stride_y in
  let dest_stride_y := stride_in_pixels P dest_stride_y in
  BlendNoiseWithImageLuma_SSE4_1_rows bitdepth G P noise_image
    min_value max_luma scaling_shift width height start_height scaling_lut_y
    source_plane_y source_stride_y dest_stride_y dest_plane_y.

Definition BlendChromaValsWithCfl (bitdepth : Z) (G : GrainType) (P : Pixel)
    (average_luma_buffer : list Z) (scaling_lut : list Z)
    (chroma : list Z) (chroma_cursor : Z)
    (noise : list Z) (noise_image_cursor : Z)
    (scaling_shift : Z) : list Z :=
  let scaling := GetScalingFactors bitdepth P scaling_lut average_luma_buffer 0 in
  let orig := LoadSource_pixel P chroma chroma_cursor in
  let noise := LoadSource_grain G noise noise_image_cursor in
  let noise := ScaleNoise bitdepth noise scaling scaling_shift in
  _mm_add_epi16 orig noise.

Section ChromaWithCfl.
Variables (bitdepth : Z) (G : GrainType) (P : Pixel).
Variable (noise_image : Array2D).
Variables (min_value max_chroma width height start_height : Z).
Variables (subsampling_x subsampling_y scaling_shift : Z).
Variable (scaling_lut : list Z).
Variables (in_y : list Z) (source_stride_y : Z).
Variables (in_chroma : list Z) (source_stride_chroma : Z).
Variable (dest_stride : Z).

(** One pass of [do ... while (++y < chroma_height)]; the state is [y],
    [in_y_row], [in_chroma_row], [out_chroma_row] and the destination. *)
Definition ChromaWithCfl_row (s : Z * Z * Z * Z * list Z)
    : option (Z * Z * Z * Z * list Z) :=
  let '(y, in_y_row, in_chroma_row, out_chroma_row, dest) := s in
  let floor := _mm_set1_epi16 min_value in
  let ceiling := _mm_set1_epi16 max_chroma in
  let chroma_width := (width + subsampling_x) ≫ subsampling_x in
  let safe_chroma_width := Z.land chroma_width (Z.lnot 7) in
  let start_height := start_height ≫ subsampling_y in
  let derived_scaling_shift := _mm_cvtsi32_si128 (15 - scaling_shift) in
  let noise_row := row_of noise_image (y + start_height) in
  let '(x, dest) :=
    for_loop (Z.to_nat safe_chroma_width) 0 safe_chroma_width 8
      (λ x dest,
         let luma_x := x ≪ subsampling_x in
         let average_luma :=
           GetAverageLuma P in_y (in_y_row + luma_x) subsampling_x in
         let average_luma_buffer :=
           StoreUnsigned P (memset0 8) 0 average_luma in
         let blended :=
           BlendChromaValsWithCfl bitdepth G P average_luma_buffer
             scaling_lut in_chroma (in_chroma_row + x)
             (data noise_image) (noise_row + x) derived_scaling_shift in
         StoreUnsigned P dest (out_chroma_row + x) (Clip3 blended floor ceiling))
      dest in
  let dest :=
    if decide (x < chroma_width) then
      let luma_buffer := memset0 16 in
      let luma_x := x ≪ subsampling_x in
      let valid_range := width - luma_x in
      let luma_buffer := memcpy luma_buffer in_y (in_y_row + luma_x) valid_range in
      let luma_buffer :=
        store luma_buffer valid_range [rd in_y (in_y_row + (width - 1))] in
      let average_luma := GetAverageLuma P luma_buffer 0 subsampling_x in
      let average_luma_buffer :=
        StoreUnsigned P (memset0 8) 0 average_luma in
      let blended :=
        BlendChromaValsWithCfl bitdepth G P average_luma_buffer
          scaling_lut in_chroma (in_chroma_row + x)
          (data noise_image) (noise_row + x) derived_scaling_shift in
      StoreUnsigned P dest (out_chroma_row + x) (Clip3 blended floor ceiling)
    else dest in
  Some (y + 1,
        in_y_row + source_stride_y ≪ subsampling_y,
        in_chroma_row + source_stride_chroma,
        out_chroma_row + dest_stride,
        dest).

Definition BlendChromaPlaneWithCfl_SSE4_1 (out_chroma : list Z)
    : option (list Z) :=
  let chroma_height := (height + subsampling_y) ≫ subsampling_y in
  snd <$> do_while (S (Z.to_nat chroma_height)) ChromaWithCfl_row
                   (λ s, bool_decide (s.1.1.1.1 < chroma_height))
                   (0, 0, 0, 0, out_chroma).
End ChromaWithCfl.

(** This function is for the case [params.chroma_scaling_from_luma]. *)
Definition BlendNoiseWithImageChromaWithCfl_SSE4_1
    (bitdepth : Z) (G : GrainType) (P : Pixel)
    (plane : Plane) (params : FilmGrainParams) (noise_image : Plane → Array2D)
    (min_value max_chroma width height start_height : Z)
    (subsampling_x subsampling_y : Z) (scaling_lut : list Z)
    (source_plane_y : list Z) (source_stride_y : Z)
    (source_plane_uv : list Z) (source_stride_uv : Z)
    (dest_plane_uv : list Z) (dest_stride_uv : Z) : option (list Z) :=
  let source_stride_y := stride_in_pixels P source_stride_y in
  let source_stride_uv := stride_in_pixels P source_stride_uv in
  let dest_stride_uv := stride_in_pixels P dest_stride_uv in
  BlendChromaPlaneWithCfl_SSE4_1 bitdepth G P (noise_image plane)
    min_value max_chroma width height start_height
    subsampling_x subsampling_y (chroma_scaling params) scaling_lut
    source_plane_y source_stride_y source_plane_uv source_stride_uv
    dest_stride_uv dest_plane_uv.

(** [namespace low_bitdepth]. *)

(** [offset] is the 16-bit broadcast of the chroma offset, [weights] the
    32-bit broadcast of the two multipliers, read here as 16-bit lanes. *)
Definition BlendChromaValsNoCfl (scaling_lut : list Z)
    (chroma : list Z) (chroma_cursor : Z)
    (noise : list Z) (noise_image_cursor : Z)
    (average_luma : list Z) (scaling_shift : Z)
    (offset : list Z) (weights : list Z) : list Z :=
  let orig := LoadSource_uint8_t chroma chroma_cursor in
  let combined_lo :=
    _mm_madd_epi16 (_mm_unpacklo_epi16 average_luma orig) (epi32_as_epi16 weights) in
  let combined_hi :=
    _mm_madd_epi16 (_mm_unpackhi_epi16 average_luma orig) (epi32_as_epi16 weights) in
  let merged_base :=
    _mm_packs_epi32 (_mm_srai_epi32 combined_lo 6) (_mm_srai_epi32 combined_hi 6) in
  let merged := _mm_add_epi16 merged_base offset in
  let merged_buffer := StoreLo8 (memset0 8) 0 (_mm_packus_epi16 merged merged) in
  let scaling := GetScalingFactors 8 uint8_t scaling_lut merged_buffer 0 in
  let noise := LoadSource_int8_t noise noise_image_cursor in
  let noise := ScaleNoise 8 noise scaling scaling_shift in
  _mm_add_epi16 orig noise.

Section Chroma8bpp.
Variable (noise_image : Array2D).
Variables (min_value max_chroma width height start_height : Z).
Variables (subsampling_x subsampling_y scaling_shift : Z).
Variables (chroma_offset chroma_multiplier luma_multiplier : Z).
Variable (scaling_lut : list Z).
Variables (in_y : list Z) (source_stride_y : Z).
Variables (in_chroma : list Z) (source_stride_chroma : Z).
Variable (dest_stride : Z).
(** [chroma_buffer] is not initialised unless [LIBGAV1_MSAN] is set:
    [stack y] is what the eight bytes hold when row [y] reaches the right
    edge. *)
Variable (stack : Z → list Z).

Definition Chroma8bpp_row (s : Z * Z * Z * Z * list Z)
    : option (Z * Z * Z * Z * list Z) :=
  let '(y, in_y_row, in_chroma_row, out_chroma_row, dest) := s in
  let floor := _mm_set1_epi16 min_value in
  let ceiling := _mm_set1_epi16 max_chroma in
  let chroma_width := (width + subsampling_x) ≫ subsampling_x in
  let safe_chroma_width := Z.land chroma_width (Z.lnot 7) in
  let offset := _mm_set1_epi16 chroma_offset in
  let multipliers :=
    _mm_set1_epi32 (Z.lor (LeftShift chroma_multiplier 16)
                          (Z.land luma_multiplier 65535)) in
  let derived_scaling_shift := _mm_cvtsi32_si128 (15 - scaling_shift) in
  let start_height := start_height ≫ subsampling_y in
  let noise_row := row_of noise_image (y + start_height) in
  let '(x, dest) :=
    for_loop (Z.to_nat safe_chroma_width) 0 safe_chroma_width 8
      (λ x dest,
         let luma_x := x ≪ subsampling_x in
         let average_luma :=
           GetAverageLuma uint8_t in_y (in_y_row + luma_x) subsampling_x in
         let blended :=
           BlendChromaValsNoCfl scaling_lut in_chroma (in_chroma_row + x)
             (data noise_image) (noise_row + x)
             average_luma derived_scaling_shift offset multipliers in
         StoreUnsigned uint8_t dest (out_chroma_row + x)
                       (Clip3 blended floor ceiling))
      dest in
  let dest :=
    if decide (x < chroma_width) then
      let luma_buffer := memset0 16 in
      let chroma_buffer := take 8 (stack y) ++ replicate (8 - length (stack y)) 0 in
      let luma_x := x ≪ subsampling_x in
      let valid_range := width - luma_x in
      let luma_buffer := memcpy luma_buffer in_y (in_y_row + luma_x) valid_range in
      let luma_buffer :=
        store luma_buffer valid_range [rd in_y (in_y_row + (width - 1))] in
      let valid_range_chroma := chroma_width - x in
      let chroma_buffer :=
        memcpy chroma_buffer in_chroma (in_chroma_row + x) valid_range_chroma in
      let chroma_buffer :=
        store chroma_buffer valid_range_chroma
              [rd in_chroma (in_chroma_row + (chroma_width - 1))] in
      let average_luma := GetAverageLuma uint8_t luma_buffer 0 subsampling_x in
      let blended :=
        BlendChromaValsNoCfl scaling_lut chroma_buffer 0
          (data noise_image) (noise_row + x)
          average_luma derived_scaling_shift offset multipliers in
      StoreUnsigned uint8_t dest (out_chroma_row + x)
                    (Clip3 blended floor ceiling)
    else dest in
  Some (y + 1,
        in_y_row + source_stride_y ≪ subsampling_y,
        in_chroma_row + source_stride_chroma,
        out_chroma_row + dest_stride,
        dest).

Definition BlendChromaPlane8bpp_SSE4_1 (out_chroma : list Z)
    : option (list Z) :=
  let chroma_height := (height + subsampling_y) ≫ subsampling_y in
  snd <$> do_while (S (Z.to_nat chroma_height)) Chroma8bpp_row
                   (λ s, bool_decide (s.1.1.1.1 < chroma_height))
                   (0, 0, 0, 0, out_chroma).
End Chroma8bpp.

(** This function is for the case [params.chroma_scaling_from_luma ==
    false]; the [assert] on the plane is compiled out. *)
Definition BlendNoiseWithImageChroma8bpp_SSE4_1
    (plane : Plane) (params : FilmGrainParams) (noise_image : Plane → Array2D)
    (min_value max_chroma width height start_height : Z)
    (subsampling_x subsampling_y : Z) (scaling_lut : list Z)
    (source_plane_y : list Z) (source_stride_y : Z)
    (source_plane_uv : list Z) (source_stride_uv : Z)
    (dest_plane_uv : list Z) (dest_stride_uv : Z)
    (stack : Z → list Z) : option (list Z) :=
  let offset :=
    if decide (plane = kPlaneU) then u_offset params else v_offset params in
  let luma_multiplier :=
    if decide (plane = kPlaneU) then u_luma_multiplier params
    else v_luma_multiplier params in
  let multiplier :=
    if decide (plane = kPlaneU) then u_multiplier params
    else v_multiplier params in
  BlendChromaPlane8bpp_SSE4_1 (noise_image plane)
    min_value max_chroma width height start_height
    subsampling_x subsampling_y (chroma_scaling params)
    offset multiplier luma_multiplier scaling_lut
    source_plane_y source_stride_y source_plane_uv source_stride_uv
    dest_stride_uv stack dest_plane_uv.

End FilmGrain.

(** ** The dispatch table and the initializers *)

Module Dispatch.
Import FilmGrain.

(** Modelled from the spec: the table ([src/dsp/dsp.h], [src/dsp/dsp.cc]) is
    not part of the sources at hand; section 4.1 describes it as one slot
    per (operation, bit depth) holding the registered implementation or
    nothing.  An implementation is named by the function and its template
    arguments; [registered_elsewhere] stands for what other initializers
    put there. *)
Inductive impl :=
| DistanceWeightedBlend_NEON_fn
| BlendNoiseWithImageLuma_SSE4_1_fn (bitdepth : Z) (G : GrainType) (P : Pixel)
| BlendNoiseWithImageChroma8bpp_SSE4_1_fn
| BlendNoiseWithImageChromaWithCfl_SSE4_1_fn (bitdepth : Z) (G : GrainType) (P : Pixel)
| registered_elsewhere (id : nat).

(** [blend_noise_chroma] is indexed by [chroma_scaling_from_luma]: slot 0 is
    the multiplier mode, slot 1 the CFL mode. *)
Record FilmGrainFuncs := {
  blend_noise_luma : option impl;
  blend_noise_chroma : option impl * option impl
}.

Record Dsp := {
  distance_weighted_blend : option impl;
  film_grain : FilmGrainFuncs
}.

(** The tables of the two bit depths; [GetWritableDspTable] returns a
    pointer to the one asked for, which the initializers write through. *)
Record DspTables := { table8 : Dsp; table10 : Dsp }.

Definition kBitdepth8 : Z := 8.
Definition kBitdepth10 : Z := 10.

Definition GetWritableDspTable (t : DspTables) (bitdepth : Z) : Dsp :=
  if decide (bitdepth = kBitdepth8) then table8 t else table10 t.

Definition write_table (t : DspTables) (bitdepth : Z) (dsp : Dsp) : DspTables :=
  if decide (bitdepth = kBitdepth8)
  then {| table8 := dsp; table10 := table10 t |}
  else {| table8 := table8 t; table10 := dsp |}.

(** [film_grain::low_bitdepth::Init8bpp]. *)
Module low_bitdepth.
Definition Init8bpp (t : DspTables) : DspTables :=
  let dsp := GetWritableDspTable t kBitdepth8 in
  let fg := film_grain dsp in
  let fg := {| blend_noise_luma :=
                 Some (BlendNoiseWithImageLuma_SSE4_1_fn 8 int8_t uint8_t);
               blend_noise_chroma := blend_noise_chroma fg |} in
  let fg := {| blend_noise_luma := blend_noise_luma fg;
               blend_noise_chroma :=
                 (Some BlendNoiseWithImageChroma8bpp_SSE4_1_fn,
                  (blend_noise_chroma fg).2) |} in
  let fg := {| blend_noise_luma := blend_noise_luma fg;
               blend_noise_chroma :=
                 ((blend_noise_chroma fg).1,
                  Some (BlendNoiseWithImageChromaWithCfl_SSE4_1_fn 8 int8_t uint8_t)) |} in
  write_table t kBitdepth8
    {| distance_weighted_blend := distance_weighted_blend dsp; film_grain := fg |}.

End low_bitdepth.

(** [film_grain::high_bitdepth::Init10bpp]. *)
Module high_bitdepth.
Definition Init10bpp (t : DspTables) : DspTables :=
  let dsp := GetWritableDspTable t kBitdepth10 in
  let fg := film_grain dsp in
  let fg := {| blend_noise_luma :=
                 Some (BlendNoiseWithImageLuma_SSE4_1_fn 10 int16_t uint16_t);
               blend_noise_chroma := blend_noise_chroma fg |} in
  let fg := {| blend_noise_luma := blend_noise_luma fg;
               blend_noise_chroma :=
                 ((blend_noise_chroma fg).1,
                  Some (BlendNoiseWithImageChromaWithCfl_SSE4_1_fn 10 int16_t uint16_t)) |} in
  write_table t kBitdepth10
    {| distance_weighted_blend := distance_weighted_blend dsp; film_grain := fg |}.

End high_bitdepth.

(** [FilmGrainInit_SSE4_1]; the 10-bit initializer is compiled in when
    [LIBGAV1_MAX_BITDEPTH >= 10]. *)
Definition FilmGrainInit_SSE4_1 (LIBGAV1_MAX_BITDEPTH : Z) (t : DspTables) : DspTables :=
  let t := low_bitdepth.Init8bpp t in
  if decide (10 <= LIBGAV1_MAX_BITDEPTH) then high_bitdepth.Init10bpp t else t.

(** [Init8bpp] of [distance_weighted_blend_neon.cc] and
    [DistanceWeightedBlendInit_NEON]. *)
Module distance_weighted_blend.
Definition Init8bpp (t : DspTables) : DspTables :=
  let dsp := GetWritableDspTable t kBitdepth8 in
  write_table t kBitdepth8
    {| distance_weighted_blend := Some DistanceWeightedBlend_NEON_fn;
       film_grain := film_grain dsp |}.

End distance_weighted_blend.

Definition DistanceWeightedBlendInit_NEON (t : DspTables) : DspTables :=
  distance_weighted_blend.Init8bpp t.

End Dispatch.

(** ** The kernels, one lane at a time

    What one lane of each vector expression of [film_grain_sse4.cc]
    computes, with the wrap-arounds of the intrinsics kept.  The facts below
    show that the vector code is these functions mapped over the lanes. *)

Module Lanes.
Import SSE FilmGrain.

(** A loaded pixel, a loaded grain sample, a stored pixel. *)
Definition pixel_lane (P : Pixel) (c : Z) : Z :=
  match P with uint8_t => zext8 c | uint16_t => wrap16 c end.
Definition grain_lane (G : GrainType) (c : Z) : Z :=
  match G with int8_t => sext8 c | int16_t => wrap16 c end.
Definition store_lane (P : Pixel) (v : Z) : Z :=
  match P with uint8_t => sat_u8 v | uint16_t => zext16 v end.

(** One lane of [GetScalingFactors], from the element [c] it reads. *)
Definition scaling_lane (bitdepth : Z) (P : Pixel) (lut : list Z) (c : Z) : Z :=
  if decide (bitdepth = 8) then wrap16 (rd lut c)
  else
    let index := c ≫ 2 in
    let start := wrap16 (rd lut index) in
    let end_ := wrap16 (rd lut (index + 1)) in
    let remainder := srl16 (sll16 (pixel_lane P c) 14) 1 in
    add16 start (mulhrs16 (sub16 end_ start) remainder).

(** One lane of [Clip3]. *)
Definition clip_lane (value low high : Z) : Z := Z.max low (Z.min high value).

(** One lane of [ScaleNoise] followed by [_mm_add_epi16] with the original
    pixel: [orig] is the loaded pixel, [scaling] the scaling factor, [noise]
    the loaded grain sample. *)
Definition noisy_lane (scaling_shift : Z) (orig scaling noise : Z) : Z :=
  add16 orig (mulhrs16 noise (sll16 scaling (_mm_cvtsi32_si128 (15 - scaling_shift)))).

(** One stored lane: clipped, then narrowed by [StoreUnsigned]. *)
Definition stored_lane (P : Pixel) (min_value max_value : Z) (v : Z) : Z :=
  store_lane P (clip_lane v (wrap16 min_value) (wrap16 max_value)).

(** One lane of the luma kernel and of the CFL chroma kernel: [orig_cell] is
    the pixel the noise is added to, [scale_cell] the element handed to
    [GetScalingFactors], [noise_cell] the grain sample. *)
Definition blend_lane (bitdepth : Z) (G : GrainType) (P : Pixel) (lut : list Z)
    (min_value max_value scaling_shift : Z)
    (orig_cell scale_cell noise_cell : Z) : Z :=
  stored_lane P min_value max_value
    (noisy_lane scaling_shift (pixel_lane P orig_cell)
       (scaling_lane bitdepth P lut scale_cell) (grain_lane G noise_cell)).

(** One lane of [GetAverageLuma] with subsampling, from the two luma
    elements it reads. *)
Definition average_lane (P : Pixel) (a b : Z) : Z :=
  rsr_u16 (add16 (pixel_lane P a) (pixel_lane P b)) 1.

(** Lane [i] of [GetAverageLuma] called on [luma + p]. *)
Definition average_luma_lane (P : Pixel) (luma : list Z) (p : Z)
    (subsampling_x : Z) (i : Z) : Z :=
  if decide (subsampling_x ≠ 0)
  then average_lane P (rd luma (p + 2 * i)) (rd luma (p + (2 * i + 1)))
  else pixel_lane P (rd luma (p + i)).

(** The two 16-bit halves of the broadcast multiplier word of
    [BlendChromaPlane8bpp_SSE4_1]. *)
Definition multiplier_word (chroma_multiplier luma_multiplier : Z) : Z :=
  wrap32 (Z.lor (LeftShift chroma_multiplier 16) (Z.land luma_multiplier 65535)).

(** One lane of [merged_buffer] in [BlendChromaValsNoCfl], from the
    average-luma lane and the loaded chroma pixel. *)
Definition merged_lane (chroma_offset chroma_multiplier luma_multiplier : Z)
    (average_luma orig : Z) : Z :=
  let w := multiplier_word chroma_multiplier luma_multiplier in
  let combined := wrap32 (average_luma * wrap16 w + orig * wrap16 (w ≫ 16)) in
  let merged_base := sat_s16 (combined ≫ 6) in
  sat_u8 (add16 merged_base (wrap16 chroma_offset)).

(** One lane of the multiplier-mode chroma kernel. *)
Definition nocfl_lane (lut : list Z) (min_value max_value scaling_shift : Z)
    (chroma_offset chroma_multiplier luma_multiplier : Z)
    (average_luma chroma_cell noise_cell : Z) : Z :=
  let orig := zext8 chroma_cell in
  let merged :=
    merged_lane chroma_offset chroma_multiplier luma_multiplier average_luma orig in
  stored_lane uint8_t min_value max_value
    (noisy_lane scaling_shift orig (scaling_lane 8 uint8_t lut merged)
                (sext8 noise_cell)).

End Lanes.

(** ** The film-grain blend in the words of the spec (sections 4.2 - 4.6)

    These follow the text of the specification, not the vector code; the
    claims compare the two. *)

Module Spec.

(** "a fixed-point multiply-round": the Q15 rounding multiply. *)
Definition round_multiply (a b : Z) : Z := RightShiftWithRounding (a * b) 15.

(** Section 4.2: direct lookup for 8 bits; above, interpolation between
    [LUT[sample >> 2]] and the next entry by the remainder
    [(sample & 3) / 4], rounded. *)
Definition LUT (bitdepth : Z) (scaling_lut : list Z) (sample : Z) : Z :=
  if decide (bitdepth = 8) then rd scaling_lut sample
  else
    let index := sample ≫ 2 in
    let start := rd scaling_lut index in
    let end_ := rd scaling_lut (index + 1) in
    start + RightShiftWithRounding ((end_ - start) * Z.land sample 3) 2.

(** Section 4.4: [clip(sample + round_multiply(noise, scale << (15 -
    scaling_shift)), min, max)] with [scale = LUT(index)]. *)
Definition grain_sample (bitdepth : Z) (scaling_lut : list Z)
    (scaling_shift min_value max_value : Z) (sample index noise : Z) : Z :=
  Clip3_scalar
    (sample + round_multiply noise (LUT bitdepth scaling_lut index ≪ (15 - scaling_shift)))
    min_value max_value.

(** Section 4.5: the rounded average of the two co-located luma samples, or
    the single co-located one. *)
Definition average_luma (luma : Z → Z) (subsampling_x x : Z) : Z :=
  if decide (subsampling_x ≠ 0) then (luma (2 * x) + luma (2 * x + 1) + 1) ≫ 1
  else luma x.

(** Section 4.6: the index of the LUT in multiplier mode; the intermediate
    it is clipped to is the 8-bit pixel. *)
Definition clip_to_intermediate (v : Z) : Z := Clip3_scalar v 0 255.
Definition merged (average_luma chroma_sample : Z)
    (luma_multiplier chroma_multiplier chroma_offset : Z) : Z :=
  clip_to_intermediate
    (((average_luma * luma_multiplier + chroma_sample * chroma_multiplier) ≫ 6)
     + chroma_offset).

(** Section 4.6: the plane selects the triple; everything else of the
    multiplier mode is shared between U and V. *)
Definition chroma_triple (plane : FilmGrain.Plane)
    (params : FilmGrain.FilmGrainParams) : Z * Z * Z :=
  match plane with
  | FilmGrain.kPlaneU =>
      (FilmGrain.u_offset params, FilmGrain.u_luma_multiplier params,
       FilmGrain.u_multiplier params)
  | _ =>
      (FilmGrain.v_offset params, FilmGrain.v_luma_multiplier params,
       FilmGrain.v_multiplier params)
  end.

(** The pixel range of a bit depth and the range of its grain samples. *)
Definition valid_pixel (bitdepth v : Z) : Prop := 0 <= v < 2 ^ bitdepth.
Definition valid_grain (bitdepth n : Z) : Prop :=
  - 2 ^ (bitdepth - 1) <= n < 2 ^ (bitdepth - 1).

(** A well-typed element of a pixel buffer: a byte, or a 16-bit element
    whose top bit is clear (the kernels handle the lanes as signed). *)
Definition typed_pixel (P : FilmGrain.Pixel) (v : Z) : Prop :=
  match P with
  | FilmGrain.uint8_t => is_u8 v
  | FilmGrain.uint16_t => 0 <= v <= 32767
  end.

(** The luma sample at column [k] of a row of [width] valid columns that
    starts at [row]; past the end the last valid sample stands in (lane
    padding). *)
Definition padded_luma (in_y : list Z) (row width : Z) (k : Z) : Z :=
  rd in_y (row + Z.min k (width - 1)).

(** A strictly per-sample loop over the valid columns of every row:
    [sample y x] is stored at column [x] of row [y], one sample at a time. *)
Definition scalar_rows (width height dest_stride : Z) (sample : Z → Z → Z)
    (dest : list Z) : list Z :=
  (for_loop (Z.to_nat height) 0 height 1
     (λ y dest,
        (for_loop (Z.to_nat width) 0 width 1
           (λ x dest, store dest (y * dest_stride + x) [sample y x]) dest).2)
     dest).2.

(** Section 4.4 as a scalar loop; the strides are in elements. *)
Definition BlendGrainLuma_scalar (bitdepth : Z)
    (noise_image : FilmGrain.Array2D)
    (min_value max_luma scaling_shift width height start_height : Z)
    (scaling_lut : list Z) (source : list Z) (source_stride : Z)
    (dest : list Z) (dest_stride : Z) : list Z :=
  scalar_rows width height dest_stride
    (λ y x,
       let sample := rd source (y * source_stride + x) in
       let noise :=
         rd (FilmGrain.data noise_image)
            (FilmGrain.row_of noise_image (y + start_height) + x) in
       grain_sample bitdepth scaling_lut scaling_shift min_value max_luma
                    sample sample noise)
    dest.

(** Section 4.6 as a scalar loop over the chroma plane, for 8-bit pixels:
    the average luma of section 4.5 over the valid luma columns, the merged
    index, then the sample of section 4.4. *)
Definition BlendGrainChroma_scalar (noise_image : FilmGrain.Array2D)
    (min_value max_chroma width height start_height : Z)
    (subsampling_x subsampling_y scaling_shift : Z)
    (chroma_offset chroma_multiplier luma_multiplier : Z)
    (scaling_lut : list Z)
    (source_y : list Z) (source_stride_y : Z)
    (source_uv : list Z) (source_stride_uv : Z)
    (dest : list Z) (dest_stride : Z) : list Z :=
  let chroma_width := (width + subsampling_x) ≫ subsampling_x in
  let chroma_height := (height + subsampling_y) ≫ subsampling_y in
  scalar_rows chroma_width chroma_height dest_stride
    (λ y x,
       let luma :=
         padded_luma source_y (y * (source_stride_y ≪ subsampling_y)) width in
       let chroma_sample := rd source_uv (y * source_stride_uv + x) in
       let noise :=
         rd (FilmGrain.data noise_image)
            (FilmGrain.row_of noise_image (y + start_height ≫ subsampling_y) + x) in
       let index :=
         merged (average_luma luma subsampling_x x) chroma_sample
                luma_multiplier chroma_multiplier chroma_offset in
       grain_sample 8 scaling_lut scaling_shift min_value max_chroma
                    chroma_sample index noise)
    dest.

(** Section 4.5 as a scalar loop over the chroma plane: the LUT is indexed
    by the average luma. *)
Definition BlendGrainChromaCfl_scalar (bitdepth : Z)
    (noise_image : FilmGrain.Array2D)
    (min_value max_chroma width height start_height : Z)
    (subsampling_x subsampling_y scaling_shift : Z)
    (scaling_lut : list Z)
    (source_y : list Z) (source_stride_y : Z)
    (source_uv : list Z) (source_stride_uv : Z)
    (dest : list Z) (dest_stride : Z) : list Z :=
  let chroma_width := (width + subsampling_x) ≫ subsampling_x in
  let chroma_height := (height + subsampling_y) ≫ subsampling_y in
  scalar_rows chroma_width chroma_height dest_stride
    (λ y x,
       let luma :=
         padded_luma source_y (y * (source_stride_y ≪ subsampling_y)) width in
       let chroma_sample := rd source_uv (y * source_stride_uv + x) in
       let noise :=
         rd (FilmGrain.data noise_image)
            (FilmGrain.row_of noise_image (y + start_height ≫ subsampling_y) + x) in
       grain_sample bitdepth scaling_lut scaling_shift min_value max_chroma
                    chroma_sample (average_luma luma subsampling_x x) noise)
    dest.

(** The two instantiations of the kernel templates that [Init8bpp] and
    [Init10bpp] register. *)
Definition instantiated (bitdepth : Z) (G : FilmGrain.GrainType)
    (P : FilmGrain.Pixel) : Prop :=
  (bitdepth = 8 ∧ G = FilmGrain.int8_t ∧ P = FilmGrain.uint8_t) ∨
  (bitdepth = 10 ∧ G = FilmGrain.int16_t ∧ P = FilmGrain.uint16_t).

End Spec.

(** ** A call of a kernel

    The four entry points the initializers register, with their arguments,
    so that a property can be stated of every kernel at once. *)

Module Calls.
Import FilmGrain.

Inductive kernel_call :=
| CallBlend (prediction_0 : list Z) (prediction_stride_0 : Z)
            (prediction_1 : list Z) (prediction_stride_1 : Z)
            (weight_0 weight_1 width height : Z)
            (dest : list Z) (dest_stride : Z)
| CallLuma (bitdepth : Z) (G : GrainType) (P : Pixel)
           (noise_image : Plane → Array2D)
           (min_value max_luma scaling_shift width height start_height : Z)
           (scaling_lut_y : list Z)
           (source_plane_y : list Z) (source_stride_y : Z)
           (dest_plane_y : list Z) (dest_stride_y : Z)
| CallChromaWithCfl (bitdepth : Z) (G : GrainType) (P : Pixel)
           (plane : Plane) (params : FilmGrainParams)
           (noise_image : Plane → Array2D)
           (min_value max_chroma width height start_height : Z)
           (subsampling_x subsampling_y : Z) (scaling_lut : list Z)
           (source_plane_y : list Z) (source_stride_y : Z)
           (source_plane_uv : list Z) (source_stride_uv : Z)
           (dest_plane_uv : list Z) (dest_stride_uv : Z)
| CallChroma8bpp (plane : Plane) (params : FilmGrainParams)
           (noise_image : Plane → Array2D)
           (min_value max_chroma width height start_height : Z)
           (subsampling_x subsampling_y : Z) (scaling_lut : list Z)
           (source_plane_y : list Z) (source_stride_y : Z)
           (source_plane_uv : list Z) (source_stride_uv : Z)
           (dest_plane_uv : list Z) (dest_stride_uv : Z)
           (stack : Z → list Z).

Definition run (k : kernel_call) : option (list Z) :=
  match k with
  | CallBlend p0 s0 p1 s1 w0 w1 width height dest ds =>
      DistanceWeightedBlend.DistanceWeightedBlend_NEON
        p0 s0 p1 s1 w0 w1 width height dest ds
  | CallLuma bitdepth G P noise mn mx shift width height sh lut src ss dest ds =>
      BlendNoiseWithImageLuma_SSE4_1 bitdepth G P noise mn mx shift width height
        sh lut src ss dest ds
  | CallChromaWithCfl bitdepth G P plane params noise mn mx width height sh
                      ssx ssy lut src_y ss_y src_uv ss_uv dest ds =>
      BlendNoiseWithImageChromaWithCfl_SSE4_1 bitdepth G P plane params noise
        mn mx width height sh ssx ssy lut src_y ss_y src_uv ss_uv dest ds
  | CallChroma8bpp plane params noise mn mx width height sh
                   ssx ssy lut src_y ss_y src_uv ss_uv dest ds stack =>
      BlendNoiseWithImageChroma8bpp_SSE4_1 plane params noise
        mn mx width height sh ssx ssy lut src_y ss_y src_uv ss_uv dest ds stack
  end.

(** The destination buffer before the call. *)
Definition destination (k : kernel_call) : list Z :=
  match k with
  | CallBlend _ _ _ _ _ _ _ _ dest _ => dest
  | CallLuma _ _ _ _ _ _ _ _ _ _ _ _ _ dest _ => dest
  | CallChromaWithCfl _ _ _ _ _ _ _ _ _ _ _ _ _ _ _ _ _ _ dest _ => dest
  | CallChroma8bpp _ _ _ _ _ _ _ _ _ _ _ _ _ _ _ dest _ _ => dest
  end.

(** The block of the destination the call is asked to fill: its width, its
    height and the stride between its rows, in elements. *)
Definition block (k : kernel_call) : Z * Z * Z :=
  match k with
  | CallBlend _ _ _ _ _ _ width height _ ds => (width, height, ds)
  | CallLuma _ _ P _ _ _ _ width height _ _ _ _ _ ds =>
      (width, height, stride_in_pixels P ds)
  | CallChromaWithCfl _ _ P _ _ _ _ _ width height _ ssx ssy _ _ _ _ _ _ ds =>
      ((width + ssx) ≫ ssx, (height + ssy) ≫ ssy, stride_in_pixels P ds)
  | CallChroma8bpp _ _ _ _ _ width height _ ssx ssy _ _ _ _ _ _ ds _ =>
      ((width + ssx) ≫ ssx, (height + ssy) ≫ ssy, ds)
  end.

(** The pixel range of the call: that of 8 bits for the predictor blend,
    the [min, max] handed to a film-grain kernel. *)
Definition pixel_range (k : kernel_call) : Z * Z :=
  match k with
  | CallBlend _ _ _ _ _ _ _ _ _ _ => (0, 255)
  | CallLuma _ _ _ _ mn mx _ _ _ _ _ _ _ _ _ => (mn, mx)
  | CallChromaWithCfl _ _ _ _ _ _ mn mx _ _ _ _ _ _ _ _ _ _ _ _ => (mn, mx)
  | CallChroma8bpp _ _ _ mn mx _ _ _ _ _ _ _ _ _ _ _ _ _ => (mn, mx)
  end.

Definition bit_depth (k : kernel_call) : Z :=
  match k with
  | CallBlend _ _ _ _ _ _ _ _ _ _ => 8
  | CallLuma bitdepth _ _ _ _ _ _ _ _ _ _ _ _ _ _ => bitdepth
  | CallChromaWithCfl bitdepth _ _ _ _ _ _ _ _ _ _ _ _ _ _ _ _ _ _ _ => bitdepth
  | CallChroma8bpp _ _ _ _ _ _ _ _ _ _ _ _ _ _ _ _ _ _ => 8
  end.

(** A sample of the call's pixel range, which lies in that of the bit
    depth. *)
Definition in_pixel_range (k : kernel_call) (v : Z) : Prop :=
  (pixel_range k).1 <= v <= (pixel_range k).2 ∧ 0 <= v <= 2 ^ bit_depth k - 1.

(** What the caller guarantees (section 7): a supported block, predictors
    and weights of their types, the template instantiated as registered, a
    pixel range of the bit depth, and a destination that holds the block. *)
Definition well_formed (k : kernel_call) : Prop :=
  let '(w, h, ds) := block k in
  let '(mn, mx) := pixel_range k in
  0 <= w <= ds ∧ 1 <= h ∧ (h - 1) * ds + w <= Z.of_nat (length (destination k)) ∧
  0 <= mn <= mx ∧ mx < 2 ^ bit_depth k ∧
  match k with
  | CallBlend p0 _ p1 _ w0 w1 width height _ _ =>
      DistanceWeightedBlend.supported width height ∧
      Forall is_s16 p0 ∧ Forall is_s16 p1 ∧ is_u8 w0 ∧ is_u8 w1
  | CallLuma bitdepth G P _ _ _ _ _ _ _ _ _ _ _ _ =>
      Spec.instantiated bitdepth G P
  | CallChromaWithCfl bitdepth G P _ _ _ _ _ _ _ _ _ _ _ _ _ _ _ _ _ =>
      Spec.instantiated bitdepth G P
  | CallChroma8bpp _ _ _ _ _ _ _ _ _ _ _ _ _ _ _ _ _ _ => True
  end.

(** The inputs of the types and ranges of section 3: table entries are
    bytes, the scaling shift is in [8, 11], pixels and grain are of the bit
    depth, the multipliers are signed bytes and the offset has nine bits. *)
Definition valid_inputs (k : kernel_call) : Prop :=
  well_formed k ∧
  match k with
  | CallBlend _ _ _ _ _ _ _ _ _ _ => True
  | CallLuma bitdepth _ _ noise _ _ shift _ _ _ lut src _ _ _ =>
      Forall is_u8 lut ∧ 8 <= shift <= 11 ∧
      Forall (Spec.valid_pixel bitdepth) src ∧
      Forall (Spec.valid_grain bitdepth) (data (noise kPlaneY))
  | CallChromaWithCfl bitdepth _ _ plane params noise _ _ _ _ _ ssx _ lut
                      src_y _ src_uv _ _ _ =>
      Forall is_u8 lut ∧ 8 <= chroma_scaling params <= 11 ∧
      (ssx = 0 ∨ ssx = 1) ∧
      Forall (Spec.valid_pixel bitdepth) src_y ∧
      Forall (Spec.valid_pixel bitdepth) src_uv ∧
      Forall (Spec.valid_grain bitdepth) (data (noise plane))
  | CallChroma8bpp plane params noise _ _ _ _ _ ssx _ lut
                   src_y _ src_uv _ _ _ _ =>
      Forall is_u8 lut ∧ 8 <= chroma_scaling params <= 11 ∧
      (ssx = 0 ∨ ssx = 1) ∧
      Forall is_u8 src_y ∧ Forall is_u8 src_uv ∧
      Forall is_s8 (data (noise plane)) ∧
      is_s8 (Spec.chroma_triple plane params).1.2 ∧
      is_s8 (Spec.chroma_triple plane params).2 ∧
      -256 <= (Spec.chroma_triple plane params).1.1 <= 255
  end.

(** "Destination samples at columns at or beyond the valid width are left
    unchanged": [dest'] is the destination after the call. *)
Definition keeps_columns_beyond_width (k : kernel_call) (dest' : list Z) : Prop :=
  ∀ x y, (block k).1.1 <= x < (block k).2 → 0 <= y < (block k).1.2 →
    rd dest' (y * (block k).2 + x) = rd (destination k) (y * (block k).2 + x).

(** The per-sample scalar loop that a call is compared with: over the
    valid columns of the block only. *)
Definition scalar_reference (k : kernel_call) : list Z :=
  match k with
  | CallBlend p0 s0 p1 s1 w0 w1 width height dest ds =>
      Spec.scalar_rows width height ds
        (λ y x, DistanceWeightedBlend.blend_sample
                  (rd p0 (y * s0 + x)) (rd p1 (y * s1 + x)) w0 w1)
        dest
  | CallLuma bitdepth _ P noise mn mx shift width height sh lut src ss dest ds =>
      Spec.BlendGrainLuma_scalar bitdepth (noise kPlaneY) mn mx shift
        width height sh lut src (stride_in_pixels P ss) dest (stride_in_pixels P ds)
  | CallChromaWithCfl bitdepth _ P plane params noise mn mx width height sh
                      ssx ssy lut src_y ss_y src_uv ss_uv dest ds =>
      Spec.BlendGrainChromaCfl_scalar bitdepth (noise plane) mn mx
        width height sh ssx ssy (chroma_scaling params) lut
        src_y (stride_in_pixels P ss_y) src_uv (stride_in_pixels P ss_uv)
        dest (stride_in_pixels P ds)
  | CallChroma8bpp plane params noise mn mx width height sh
                   ssx ssy lut src_y ss_y src_uv ss_uv dest ds _ =>
      Spec.BlendGrainChroma_scalar (noise plane) mn mx width height sh
        ssx ssy (chroma_scaling params)
        (Spec.chroma_triple plane params).1.1
        (Spec.chroma_triple plane params).2
        (Spec.chroma_triple plane params).1.2
        lut src_y ss_y src_uv ss_uv dest ds
  end.

End Calls.
(** ** What a call leaves in the destination

    The predicates and the cell values in which the behaviour of the
    kernels is stated below. *)

(** [rows_done ds W Wspan val R m0 m y] describes the destination buffer
    [m] once rows [0 .. y-1] are processed, [m0] being the buffer before the
    call: column [c < W] of row [r] holds [val r c], nothing outside the
    spans [[r*ds, r*ds + Wspan)] has changed, and every cell that did change
    satisfies [R]. *)
Definition rows_done (ds W Wspan : Z) (val : Z → Z → Z) (R : Z → Prop)
    (m0 m : list Z) (y : Z) : Prop :=
  length m = length m0 ∧
  (∀ r c, 0 <= r < y → 0 <= c < W → rd m (r * ds + c) = val r c) ∧
  (∀ q, (∀ r, 0 <= r < y → ¬ (r * ds <= q < r * ds + Wspan)) →
        rd m q = rd m0 q) ∧
  (∀ q, rd m q = rd m0 q ∨ R (rd m q)).

(** The same within one row that starts at [base]: the first [xv] columns
    are done and nothing from column [xs] on has been touched. *)
Definition cols_done (base : Z) (rowval : Z → Z) (R : Z → Prop)
    (m mx : list Z) (xv xs : Z) : Prop :=
  length mx = length m ∧
  (∀ c, 0 <= c < xv → rd mx (base + c) = rowval c) ∧
  (∀ q, q < base ∨ base + xs <= q → rd mx q = rd m q) ∧
  (∀ q, rd mx q = rd m q ∨ R (rd mx q)).

(** The columns a film-grain row writes: the width rounded up to a whole
    block of eight. *)
Definition row_span (W : Z) : Z :=
  if decide (W `mod` 8 = 0) then W else 8 * (W `div` 8) + 8.

(** A row described block by block: column [c] is lane [c mod 8] of the
    block that starts at [8 * (c / 8)], or a lane of the edge block. *)
Definition block_val (W : Z) (main : Z → Z → Z) (edge : Z → Z) (c : Z) : Z :=
  if decide (c < 8 * (W `div` 8)) then main (8 * (c `div` 8)) (c `mod` 8)
  else edge (c - 8 * (W `div` 8)).

Module BlendValues.
Import NEON DistanceWeightedBlend.

(** The sample of the blend at column [c] of row [r]. *)
Definition blend_val (pred_0 pred_1 : list Z) (s0 s1 w0 w1 : Z) (r c : Z) : Z :=
  blend_sample (rd pred_0 (r * s0 + c)) (rd pred_1 (r * s1 + c)) w0 w1.

(** The cursors of a blend kernel at the start of row [y]. *)
Definition at_row (s0 s1 ds : Z) (y : Z) (m : list Z) : cursor :=
  Cursor (y * s0) (y * s1) (y * ds) m.

End BlendValues.

Module GrainValues.
Import SSE FilmGrain Lanes.

(** What a kernel stores went through [Clip3] and [StoreUnsigned]. *)
Definition stored (P : Pixel) (min_value max_value : Z) (v : Z) : Prop :=
  ∃ u, v = stored_lane P min_value max_value u.

Section Luma.
Variables (bitdepth : Z) (G : GrainType) (P : Pixel).
Variable (noise_image : Plane → Array2D).
Variables (min_value max_luma scaling_shift width height start_height : Z).
Variable (scaling_lut_y : list Z).
Variables (source_plane_y : list Z) (source_stride_y : Z).

Definition luma_noise_row (y : Z) : Z :=
  row_of (noise_image kPlaneY) (y + start_height).
Definition luma_edge_x : Z := 8 * (width `div` 8).

(** The scratch copy of the row at the right edge. *)
Definition luma_edge_buffer (y : Z) : list Z :=
  store (memcpy (memset0 8) source_plane_y
                (y * source_stride_y + luma_edge_x) (width - luma_edge_x))
        (width - luma_edge_x)
        [rd source_plane_y (y * source_stride_y + (width - 1))].

Definition luma_main (y x i : Z) : Z :=
  blend_lane bitdepth G P scaling_lut_y min_value max_luma scaling_shift
    (rd source_plane_y (y * source_stride_y + x + i))
    (rd source_plane_y (y * source_stride_y + x + i))
    (rd (data (noise_image kPlaneY)) (luma_noise_row y + x + i)).

Definition luma_edge (y i : Z) : Z :=
  blend_lane bitdepth G P scaling_lut_y min_value max_luma scaling_shift
    (rd source_plane_y (y * source_stride_y + luma_edge_x + i))
    (rd (luma_edge_buffer y) (0 + i))
    (rd (data (noise_image kPlaneY)) (luma_noise_row y + luma_edge_x + i)).

(** The value the kernel leaves at column [c] of row [y]. *)
Definition luma_val (y : Z) : Z → Z :=
  block_val width (luma_main y) (luma_edge y).

End Luma.

Section ChromaWithCfl.
Variables (bitdepth : Z) (G : GrainType) (P : Pixel).
Variable (noise_image : Array2D).
Variables (min_value max_chroma width height start_height : Z).
Variables (subsampling_x subsampling_y scaling_shift : Z).
Variable (scaling_lut : list Z).
Variables (in_y : list Z) (source_stride_y : Z).
Variables (in_chroma : list Z) (source_stride_chroma : Z).

Definition chroma_width : Z := (width + subsampling_x) ≫ subsampling_x.
Definition chroma_height : Z := (height + subsampling_y) ≫ subsampling_y.
Definition luma_row (y : Z) : Z := y * (source_stride_y ≪ subsampling_y).
Definition noise_row (y : Z) : Z :=
  row_of noise_image (y + start_height ≫ subsampling_y).
Definition edge_x : Z := 8 * (chroma_width `div` 8).

(** The scratch copy of the luma row at the right edge. *)
Definition edge_luma_buffer (y : Z) : list Z :=
  store (memcpy (memset0 16) in_y (luma_row y + edge_x ≪ subsampling_x)
                (width - edge_x ≪ subsampling_x))
        (width - edge_x ≪ subsampling_x)
        [rd in_y (luma_row y + (width - 1))].

Definition cfl_main (y x i : Z) : Z :=
  blend_lane bitdepth G P scaling_lut min_value max_chroma scaling_shift
    (rd in_chroma (y * source_stride_chroma + x + i))
    (store_lane P (average_luma_lane P in_y (luma_row y + x ≪ subsampling_x)
                                     subsampling_x i))
    (rd (data noise_image) (noise_row y + x + i)).

Definition cfl_edge (y i : Z) : Z :=
  blend_lane bitdepth G P scaling_lut min_value max_chroma scaling_shift
    (rd in_chroma (y * source_stride_chroma + edge_x + i))
    (store_lane P (average_luma_lane P (edge_luma_buffer y) 0 subsampling_x i))
    (rd (data noise_image) (noise_row y + edge_x + i)).

Definition cfl_val (y : Z) : Z → Z :=
  block_val chroma_width (cfl_main y) (cfl_edge y).

End ChromaWithCfl.

Section Chroma8bpp.
Variable (noise_image : Array2D).
Variables (min_value max_chroma width height start_height : Z).
Variables (subsampling_x subsampling_y scaling_shift : Z).
Variables (chroma_offset chroma_multiplier luma_multiplier : Z).
Variable (scaling_lut : list Z).
Variables (in_y : list Z) (source_stride_y : Z).
Variables (in_chroma : list Z) (source_stride_chroma : Z).
Variable (stack : Z → list Z).

Local Abbreviation cw := (chroma_width width subsampling_x).
Local Abbreviation lrow := (luma_row subsampling_y source_stride_y).
Local Abbreviation nrow := (noise_row noise_image start_height subsampling_y).
Local Abbreviation ex := (edge_x width subsampling_x).
Local Abbreviation luma_buffer :=
  (edge_luma_buffer width subsampling_x subsampling_y in_y source_stride_y).

(** The scratch copy of the chroma row at the right edge, on top of what
    the stack held. *)
Definition edge_chroma_buffer (y : Z) : list Z :=
  store (memcpy (take 8 (stack y) ++ replicate (8 - length (stack y)) 0)
                in_chroma (y * source_stride_chroma + ex) (cw - ex))
        (cw - ex)
        [rd in_chroma (y * source_stride_chroma + (cw - 1))].

Definition nocfl_main (y x i : Z) : Z :=
  nocfl_lane scaling_lut min_value max_chroma scaling_shift
    chroma_offset chroma_multiplier luma_multiplier
    (average_luma_lane uint8_t in_y (lrow y + x ≪ subsampling_x) subsampling_x i)
    (rd in_chroma (y * source_stride_chroma + x + i))
    (rd (data noise_image) (nrow y + x + i)).

Definition nocfl_edge (y i : Z) : Z :=
  nocfl_lane scaling_lut min_value max_chroma scaling_shift
    chroma_offset chroma_multiplier luma_multiplier
    (average_luma_lane uint8_t (luma_buffer y) 0 subsampling_x i)
    (rd (edge_chroma_buffer y) (0 + i))
    (rd (data noise_image) (nrow y + ex + i)).

Definition nocfl_val (y : Z) : Z → Z :=
  block_val cw (nocfl_main y) (nocfl_edge y).

End Chroma8bpp.

(** The average luma a chroma kernel computes for column [c] of row [y]:
    from the luma row in the full blocks, from the scratch copy at the right
    edge. *)
Definition kernel_average_luma (P : Pixel) (width subsampling_x subsampling_y : Z)
    (in_y : list Z) (source_stride_y : Z) (y c : Z) : Z :=
  block_val (chroma_width width subsampling_x)
    (λ x i, average_luma_lane P in_y
              (luma_row subsampling_y source_stride_y y + x ≪ subsampling_x)
              subsampling_x i)
    (λ i, average_luma_lane P
            (edge_luma_buffer width subsampling_x subsampling_y in_y
                              source_stride_y y)
            0 subsampling_x i)
    c.

End GrainValues.

(** ** Concrete calls

    Small inputs on which the kernels are run in the examples below. *)

Module Inputs.
Import FilmGrain Calls.

(** A row of 8-bit grain, extremes included. *)
Definition C2_noise : Plane → Array2D :=
  λ _, {| columns := 16; data := [100; -100; 50; -50; 127; -128; 3; 0; 9; 9; -7] |}.

(** Parameters of the multiplier mode with different triples for U and V. *)
Definition C3_params : FilmGrainParams :=
  {| chroma_scaling_from_luma := false; chroma_scaling := 9;
     u_multiplier := 40; u_luma_multiplier := -20; u_offset := 30;
     v_multiplier := 64; v_luma_multiplier := 0; v_offset := 0 |}.

Definition C3_noise : Plane → Array2D :=
  λ _, {| columns := 8; data := [-128; 127; 5; -5; 0; 1; 90; 3] |}.

(** Two luma rows of width 11 (stride 16) and a chroma row of width 6. *)
Definition C3_luma : list Z :=
  [10; 20; 30; 40; 50; 60; 70; 80; 90; 100; 111; 0; 0; 0; 0; 0;
   1; 2; 3; 4; 5; 6; 7; 8; 9; 10; 11; 0; 0; 0; 0; 0].

Definition C3_chroma : list Z := [200; 100; 50; 25; 255; 0; 0; 0].

(** A 10-bit luma call of width 4 with extreme grain on extreme samples. *)
Definition C6_call : kernel_call :=
  CallLuma 10 int16_t uint16_t
    (λ _, {| columns := 8; data := [511; -512; 300; -300; 0; 0; 0; 0;
                                    -512; 511; 1; -1; 0; 0; 0; 0] |})
    64 940 8 4 2 0 (replicate 257 255)
    [1023; 0; 64; 940; 0; 0; 0; 0; 0; 1023; 512; 513; 0; 0; 0; 0] 16
    (replicate 16 5) 16.

(** An 8-bit multiplier-mode call with horizontal and vertical
    subsampling: luma width 11, chroma width 6, one chroma row. *)
Definition C8_call : kernel_call :=
  CallChroma8bpp kPlaneU C3_params C3_noise 16 240 11 2 0 1 1 (seqZ 0 256)
    C3_luma 16 C3_chroma 8 (replicate 8 7) 8 (λ _, []).

(** The same kernel on a luma row of width 15, followed in memory by the
    element [after]: chroma width 8. *)
Definition odd_width_call (after : Z) : kernel_call :=
  CallChroma8bpp kPlaneU C3_params
    (λ _, {| columns := 8; data := [0; 0; 0; 0; 0; 0; 0; 100] |})
    0 255 15 1 0 1 0 (seqZ 0 256)
    ([10; 20; 30; 40; 50; 60; 70; 80; 90; 100; 110; 120; 130; 140; 150]
       ++ [after])
    16 [200; 100; 50; 25; 255; 0; 0; 77] 8 (replicate 8 7) 8 (λ _, []).

(** An 8-bit luma call of width 3 without grain, in a destination row of
    eight samples that hold 7. *)
Definition C9_call : kernel_call :=
  CallLuma 8 int8_t uint8_t
    (λ _, {| columns := 8; data := [0; 0; 0; 0; 0; 0; 0; 0] |})
    16 235 8 3 1 0 (replicate 256 64)
    [100; 110; 120; 130; 140; 150; 160; 170] 8
    (replicate 8 7) 8.

End Inputs.

(** * Properties *)

(** ** Machine-integer facts *)

Lemma wrap16_small z : is_s16 z → wrap16 z = z.
Proof. unfold is_s16, wrap16. intros ?. rewrite Z.mod_small; lia. Qed.

Lemma wrap32_small z : -2147483648 <= z <= 2147483647 → wrap32 z = z.
Proof. unfold wrap32. intros ?. rewrite Z.mod_small; lia. Qed.

Lemma wrap16_range z : is_s16 (wrap16 z).
Proof.
  unfold is_s16, wrap16.
  pose proof (Z.mod_pos_bound (z + 32768) 65536). lia.
Qed.

Lemma zext8_small z : is_u8 z → zext8 z = z.
Proof. unfold is_u8, zext8. intros ?. rewrite Z.mod_small; lia. Qed.

Lemma sext8_small z : is_s8 z → sext8 z = z.
Proof. unfold is_s8, sext8. intros ?. rewrite Z.mod_small; lia. Qed.

Lemma zext8_idem c : zext8 (zext8 c) = zext8 c.
Proof. unfold zext8. by rewrite Z.mod_mod. Qed.

Lemma zext16_small z : is_u16 z → zext16 z = z.
Proof. unfold is_u16, zext16. intros ?. rewrite Z.mod_small; lia. Qed.

Lemma sat_u8_range z : is_u8 (sat_u8 z).
Proof. unfold is_u8, sat_u8. lia. Qed.

Lemma sat_u8_sat_s16 z : sat_u8 (sat_s16 z) = sat_u8 z.
Proof. unfold sat_u8, sat_s16. lia. Qed.

Lemma sat_u8_small z : is_u8 z → sat_u8 z = z.
Proof. unfold is_u8, sat_u8. lia. Qed.

Lemma RightShiftWithRounding_div value bits :
  0 < bits →
  RightShiftWithRounding value bits = (value + 2 ^ (bits - 1)) `div` 2 ^ bits.
Proof.
  intros ?. unfold RightShiftWithRounding.
  rewrite !Z.shiftr_div_pow2, Z.shiftl_mul_pow2 by lia.
  rewrite Z.mul_1_l, Z.pow_1_r. do 2 f_equal.
  replace bits with (bits - 1 + 1) at 1 by lia.
  rewrite Z.pow_add_r, Z.pow_1_r by lia. apply Z.div_mul. lia.
Qed.

(** ** Buffer facts *)

Lemma length_store m p vs : length (store m p vs) = length m.
Proof. unfold store. case_decide; [apply length_inserts|done]. Qed.

Lemma rd_store_in m p vs q :
  0 <= p → p <= q < p + Z.of_nat (length vs) → q < Z.of_nat (length m) →
  rd (store m p vs) q = default 0 (vs !! Z.to_nat (q - p)).
Proof.
  intros ? ? ?. unfold rd, store. rewrite !decide_True by lia.
  rewrite list_lookup_inserts by lia. do 2 f_equal. lia.
Qed.

Lemma rd_store_out m p vs q :
  q < p ∨ p + Z.of_nat (length vs) <= q →
  rd (store m p vs) q = rd m q.
Proof.
  intros ?. unfold rd, store. repeat case_decide; try done.
  destruct (decide (q < p)).
  - by rewrite list_lookup_inserts_lt by lia.
  - by rewrite list_lookup_inserts_ge by lia.
Qed.

Lemma length_tab (F : Z → Z) n : Z.of_nat (length (F <$> seqZ 0 n)) = Z.max 0 n.
Proof. rewrite length_fmap, length_seqZ. lia. Qed.

Lemma lookup_tab (F : Z → Z) n i :
  0 <= i < n → (F <$> seqZ 0 n) !! Z.to_nat i = Some (F i).
Proof.
  intros ?. rewrite list_lookup_fmap.
  rewrite lookup_seqZ_lt by lia. simpl. do 2 f_equal. lia.
Qed.

Lemma rd_store_tab m p (F : Z → Z) n q :
  0 <= p → p <= q < p + n → q < Z.of_nat (length m) →
  rd (store m p (F <$> seqZ 0 n)) q = F (q - p).
Proof.
  intros ? ? ?. rewrite rd_store_in by (rewrite ?length_tab; lia).
  by rewrite lookup_tab by lia.
Qed.

Lemma rd_store_tab_out m p (F : Z → Z) n q :
  q < p ∨ p + n <= q →
  rd (store m p (F <$> seqZ 0 n)) q = rd m q.
Proof. intros ?. apply rd_store_out. rewrite length_tab. lia. Qed.

Lemma zip_with_tab {A B C} (f : A → B → C) (g : Z → A) (h : Z → B) (l : list Z) :
  zip_with f (g <$> l) (h <$> l) = (λ i, f (g i) (h i)) <$> l.
Proof. induction l; simpl; [done|by f_equal]. Qed.

Lemma take_tab (F : Z → Z) k n :
  0 <= k <= n → take (Z.to_nat k) (F <$> seqZ 0 n) = F <$> seqZ 0 k.
Proof.
  intros ?. rewrite <-fmap_take. f_equal.
  replace n with (k + (n - k)) by lia.
  rewrite seqZ_app by lia. rewrite take_app_length'; [done|].
  rewrite length_seqZ. lia.
Qed.

(** ** Loop rules *)

Lemma for_loop_inv {St} (I : Z → St → Prop) limit step body :
  0 < step →
  (∀ j s, j < limit → I j s → I (j + step) (body j s)) →
  ∀ fuel i s, (Z.to_nat (limit - i) ≤ fuel)%nat → I i s →
  ∃ j s', for_loop fuel i limit step body s = (j, s') ∧ limit <= j ∧ I j s'.
Proof.
  intros Hstep Hbody fuel. induction fuel as [|fuel IH]; intros i s Hfuel Hi; simpl.
  - exists i, s. split; [done|]. split; [lia|done].
  - case_decide as Hlt.
    + apply IH; [lia|]. by apply Hbody.
    + exists i, s. split; [done|]. split; [lia|done].
Qed.

Lemma do_while_inv {St} (I : nat → St → Prop) (n : nat) body cond :
  (∀ k s, (k < n)%nat → I k s →
     ∃ s', body s = Some s' ∧ I (S k) s' ∧ (cond s' = true ↔ (S k < n)%nat)) →
  ∀ fuel k s, (k < n)%nat → (n - k ≤ fuel)%nat → I k s →
  ∃ s', do_while fuel body cond s = Some s' ∧ I n s'.
Proof.
  intros Hbody fuel. induction fuel as [|fuel IH]; intros k s Hk Hfuel Hi; [lia|].
  simpl. destruct (Hbody k s Hk Hi) as (s' & -> & Hi' & Hc). simpl.
  destruct (cond s') eqn:E.
  - apply (IH (S k)); [by apply Hc|lia|done].
  - assert (S k = n) as <-; [|by eauto].
    destruct (decide (S k < n)%nat) as [Hlt|]; [|lia].
    apply Hc in Hlt. congruence.
Qed.

Lemma Forall_rd (P : Z → Prop) m p : P 0 → Forall P m → P (rd m p).
Proof.
  intros H0 Hm. unfold rd. case_decide; [|done].
  destruct (m !! Z.to_nat p) eqn:E; simpl; [|done].
  by eapply Forall_lookup_1.
Qed.

Lemma Forall_load (P : Z → Prop) n m p : P 0 → Forall P m → Forall P (load n m p).
Proof.
  intros H0 Hm. unfold load. apply Forall_fmap, Forall_forall.
  intros i _. simpl. by apply Forall_rd.
Qed.

Lemma length_load n m p : length (load n m p) = Z.to_nat n.
Proof. unfold load. by rewrite length_fmap, length_seqZ. Qed.

Lemma take_tab_all (F : Z → Z) (k : nat) n :
  n <= Z.of_nat k → take k (F <$> seqZ 0 n) = F <$> seqZ 0 n.
Proof. intros ?. apply take_ge. rewrite length_fmap, length_seqZ. lia. Qed.

Lemma store_app m p a b :
  0 <= p → store m p (a ++ b) = store (store m p a) (p + Z.of_nat (length a)) b.
Proof.
  intros ?. unfold store. rewrite !decide_True by lia.
  rewrite list_inserts_app_l. f_equal. lia.
Qed.

(** ** Rows written so far

    How [rows_done] is established, and kept from one row to the next. *)

Section Rows.
Variables (ds W Wspan : Z) (val : Z → Z → Z) (R : Z → Prop) (m0 : list Z).
Hypothesis HW : 0 <= W <= Wspan.
Hypothesis Hds : W <= ds.

Local Abbreviation rows := (rows_done ds W Wspan val R m0).

Lemma rows_done_0 : rows m0 0.
Proof. split; [done|]. split; [intros; lia|]. split; [done|by left]. Qed.

Lemma rows_done_step m m' y :
  0 <= y → rows m y →
  length m' = length m →
  (∀ c, 0 <= c < W → rd m' (y * ds + c) = val y c) →
  (∀ q, q < y * ds ∨ y * ds + Wspan <= q → rd m' q = rd m q) →
  (∀ q, rd m' q = rd m q ∨ R (rd m' q)) →
  rows m' (y + 1).
Proof.
  intros Hy (Hlen & Hval & Hframe & HR) Hlen' Hrow Hout HR'.
  split; [congruence|]. split; [|split].
  - intros r c Hr Hc. destruct (decide (r = y)) as [->|]; [by apply Hrow|].
    rewrite Hout by nia. apply Hval; lia.
  - intros q Hq. rewrite Hout.
    + apply Hframe. intros r Hr. apply Hq. lia.
    + specialize (Hq y). lia.
  - intros q. destruct (HR' q) as [->|]; [apply HR|by right].
Qed.
End Rows.

(** ** Columns written so far in one row

    [cols_done mx xv xs]: starting from [m], the lanes stored at [base]
    onwards cover [xs] columns, of which the first [xv] are known to hold
    [rowval]; every cell that changed satisfies [R]. *)

Lemma rd_oob m q : Z.of_nat (length m) <= q → rd m q = 0.
Proof.
  intros ?. unfold rd. case_decide; [|done].
  by rewrite lookup_ge_None_2 by lia.
Qed.

Section Cols.
Variables (base : Z) (rowval : Z → Z) (R : Z → Prop) (m : list Z).

Local Abbreviation cols := (cols_done base rowval R m).

Lemma cols_done_0 : cols m 0 0.
Proof. split; [done|]. split; [intros; lia|]. split; [done|by left]. Qed.

Lemma cols_done_store mx x n nv (F : Z → Z) :
  0 <= base → 0 <= x → 0 <= nv <= n →
  base + x + nv <= Z.of_nat (length m) →
  (∀ i, 0 <= i < nv → F i = rowval (x + i)) →
  (∀ i, 0 <= i < n → R (F i)) →
  cols mx x x →
  cols (store mx (base + x) (F <$> seqZ 0 n)) (x + nv) (x + n).
Proof.
  intros ? ? ? ? HF HR (Hlen & Hval & Hframe & HRm).
  split; [by rewrite length_store|]. split; [|split].
  - intros c Hc. destruct (decide (c < x)).
    + rewrite rd_store_tab_out by lia. apply Hval. lia.
    + rewrite rd_store_tab by lia. rewrite HF by lia. f_equal. lia.
  - intros q Hq. rewrite rd_store_tab_out by lia. apply Hframe. lia.
  - intros q.
    destruct (decide (base + x <= q < base + x + n)) as [Hin|Hout].
    + destruct (decide (q < Z.of_nat (length mx))).
      * right. rewrite rd_store_tab by lia. apply HR. lia.
      * left. rewrite !rd_oob; [done|lia|rewrite length_store; lia].
    + rewrite rd_store_tab_out by lia. apply HRm.
Qed.

Lemma cols_done_weaken mx xv xs xv' xs' :
  xv' <= xv → xs <= xs' → cols mx xv xs → cols mx xv' xs'.
Proof.
  intros ? ? (Hlen & Hval & Hframe & HR). split; [done|]. split; [|split].
  - intros c ?. apply Hval. lia.
  - intros q ?. apply Hframe. lia.
  - done.
Qed.
End Cols.

(** A finished row extends [rows_done] by one. *)
Lemma rows_done_cols ds W Wspan val R m0 m m' y :
  0 <= W <= Wspan → W <= ds → 0 <= y →
  rows_done ds W Wspan val R m0 m y →
  cols_done (y * ds) (val y) R m m' W Wspan →
  rows_done ds W Wspan val R m0 m' (y + 1).
Proof.
  intros ? ? ? Hd (Hlen & Hval & Hframe & HR).
  by apply rows_done_step with (m := m).
Qed.

(** A row written by one store of [W] lanes. *)
Lemma rows_done_store ds W val (R : Z → Prop) m0 m y :
  0 <= W <= ds → 0 <= y → y * ds + W <= Z.of_nat (length m0) →
  (∀ c, 0 <= c < W → R (val y c)) →
  rows_done ds W W val R m0 m y →
  rows_done ds W W val R m0 (store m (y * ds) (val y <$> seqZ 0 W)) (y + 1).
Proof.
  intros ? ? ? HR Hd. pose proof Hd as (Hlen & _).
  apply rows_done_cols with (m := m); [lia|lia|lia|done|].
  replace (y * ds) with (y * ds + 0) at 2 by lia.
  replace W with (0 + W) at 3 4 by lia.
  apply (cols_done_store (y * ds) (val y) R m m 0 W W);
    [nia|lia|lia|lia|intros; f_equal; lia|done|apply cols_done_0].
Qed.


(** ** A row of a film-grain kernel

    All three kernels walk a row the same way: full blocks of eight lanes up
    to [safe = W & ~7], then one more block at the right edge when [safe <
    W]. *)

Lemma land_lnot7 w : Z.land w (Z.lnot 7) = 8 * (w `div` 8).
Proof.
  rewrite <-Z.ldiff_land. change 7 with (Z.ones 3).
  rewrite Z.ldiff_ones_r by lia.
  rewrite Z.shiftl_mul_pow2, Z.shiftr_div_pow2 by lia.
  change (2 ^ 3) with 8. lia.
Qed.

Lemma for_loop_ext {St} fuel i limit step (body body' : Z → St → St) s :
  (∀ j t, body j t = body' j t) →
  for_loop fuel i limit step body s = for_loop fuel i limit step body' s.
Proof.
  intros H. revert i s. induction fuel as [|fuel IH]; intros i s; simpl; [done|].
  case_decide; [|done]. by rewrite H, IH.
Qed.

Lemma row_span_ge W : W <= row_span W.
Proof.
  unfold row_span. case_decide; [lia|].
  pose proof (Z.mod_pos_bound W 8). pose proof (Z.div_mod W 8). lia.
Qed.

(** [V] is the number of columns of the row that lie inside the buffer: at
    least the width, at most the whole span. *)
Section GrainRow.
Variables (W V out : Z) (main : Z → Z → Z) (edge : Z → Z).
Variables (rowval : Z → Z) (R : Z → Prop) (d0 : list Z).
Hypothesis HW : 0 <= W.
Hypothesis HV : W <= V <= row_span W.
Hypothesis Hout : 0 <= out.
Hypothesis Hlen : out + V <= Z.of_nat (length d0).
Hypothesis Hmain :
  ∀ x i, x `mod` 8 = 0 → 0 <= x → x + 8 <= W → 0 <= i < 8 →
         main x i = rowval (x + i).
Hypothesis Hedge :
  ∀ i, 0 <= i → 8 * (W `div` 8) + i < V → edge i = rowval (8 * (W `div` 8) + i).
Hypothesis HRmain : ∀ x i, R (main x i).
Hypothesis HRedge : ∀ i, R (edge i).

Lemma grain_row_main :
  ∃ d1,
    for_loop (Z.to_nat (Z.land W (Z.lnot 7))) 0 (Z.land W (Z.lnot 7)) 8
             (λ x d, store d (out + x) (main x <$> seqZ 0 8)) d0
    = (8 * (W `div` 8), d1) ∧
    cols_done out rowval R d0 d1 (8 * (W `div` 8)) (8 * (W `div` 8)).
Proof.
  rewrite land_lnot7.
  pose proof (Z.div_mod W 8 ltac:(lia)) as Hdm.
  pose proof (Z.mod_pos_bound W 8 ltac:(lia)) as Hmb.
  destruct (for_loop_inv
    (λ x d, x `mod` 8 = 0 ∧ 0 <= x <= 8 * (W `div` 8) ∧
            cols_done out rowval R d0 d x x)
    (8 * (W `div` 8)) 8 (λ x d, store d (out + x) (main x <$> seqZ 0 8)))
    with (fuel := Z.to_nat (8 * (W `div` 8))) (i := 0) (s := d0)
    as (x & d1 & -> & Hx & Hx8 & Hx' & Hd).
  - lia.
  - intros x d Hlt (Hx8 & Hx & Hd).
    assert (x + 8 <= 8 * (W `div` 8)).
    { apply Z.mod_divide in Hx8 as [k ->]; lia. }
    split; [|split; [lia|]].
    + replace (x + 8) with (x + 1 * 8) by lia. by rewrite Z.mod_add by lia.
    + apply (cols_done_store out rowval R d0 d x 8 8); try lia; try done.
      intros i Hi. apply Hmain; lia.
  - lia.
  - split; [done|]. split; [lia|]. apply cols_done_0.
  - assert (x = 8 * (W `div` 8)) as -> by lia. eauto.
Qed.

Lemma grain_row :
  ∃ x d1,
    for_loop (Z.to_nat (Z.land W (Z.lnot 7))) 0 (Z.land W (Z.lnot 7)) 8
             (λ x d, store d (out + x) (main x <$> seqZ 0 8)) d0
    = (x, d1) ∧ x = 8 * (W `div` 8) ∧
    cols_done out rowval R d0
      (if decide (x < W) then store d1 (out + x) (edge <$> seqZ 0 8) else d1)
      V (row_span W).
Proof.
  destruct grain_row_main as (d1 & E & Hd).
  exists (8 * (W `div` 8)), d1. split; [done|]. split; [done|].
  pose proof (Z.div_mod W 8 ltac:(lia)) as Hdm.
  pose proof (Z.mod_pos_bound W 8 ltac:(lia)) as Hmb.
  revert HV Hedge. unfold row_span.
  destruct (decide (W `mod` 8 = 0)) as [H0|H0]; intros HV' Hedge'.
  - rewrite decide_False by lia.
    assert (V = W) as -> by lia.
    by replace (8 * (W `div` 8)) with W in Hd by lia.
  - rewrite decide_True by lia.
    assert (cols_done out rowval R d0
              (store d1 (out + 8 * (W `div` 8)) (edge <$> seqZ 0 8))
              (8 * (W `div` 8) + (V - 8 * (W `div` 8))) (8 * (W `div` 8) + 8)) as Hc.
    { apply (cols_done_store out rowval R d0 d1 _ 8 (V - 8 * (W `div` 8)));
        try lia; try done.
      intros i Hi. apply Hedge'; lia. }
    by replace (8 * (W `div` 8) + (V - 8 * (W `div` 8))) with V in Hc by lia.
Qed.
End GrainRow.

(** The same, with the row described block by block ([block_val]). *)
Lemma grain_row_blocks W V out main edge (R : Z → Prop) d0 :
0 <= W → W <= V <= row_span W → 0 <= out →
out + V <= Z.of_nat (length d0) →
(∀ x i, R (main x i)) → (∀ i, R (edge i)) →
∃ x d1,
  for_loop (Z.to_nat (Z.land W (Z.lnot 7))) 0 (Z.land W (Z.lnot 7)) 8
           (λ x d, store d (out + x) (main x <$> seqZ 0 8)) d0
  = (x, d1) ∧ x = 8 * (W `div` 8) ∧
  cols_done out (block_val W main edge) R d0
    (if decide (x < W) then store d1 (out + x) (edge <$> seqZ 0 8) else d1)
    V (row_span W).
Proof.
intros HW HV Hout Hlen HRm HRe.
apply grain_row; try done.
- intros x i Hx8 Hx HxW Hi. unfold block_val.
  pose proof (Z.div_mod W 8 ltac:(lia)). pose proof (Z.mod_pos_bound W 8 ltac:(lia)).
  apply Z.mod_divide in Hx8 as [k ->]; [|lia].
  rewrite decide_True by lia.
  replace ((k * 8 + i) `div` 8) with k.
  2:{ rewrite Z.add_comm, Z.div_add, Z.div_small; lia. }
  replace ((k * 8 + i) `mod` 8) with i.
  2:{ rewrite Z.add_comm, Z.mod_add, Z.mod_small; lia. }
  f_equal. lia.
- intros i Hi Hlt. unfold block_val. rewrite decide_False by lia.
  f_equal. lia.
Qed.
(** ** The blend, lane by lane *)

Module BlendFacts.
Import NEON DistanceWeightedBlend.

Lemma blend_sample_lane a b w0 w1 :
  is_s16 a → is_s16 b → is_u8 w0 → is_u8 w1 →
  sat_u8 (sat_s16 ((wrap32 (wrap32 (wrap16 w0 * a) + wrap16 w1 * b)
                    + 2 ^ (kInterPostRoundBit + 4 - 1))
                   ≫ (kInterPostRoundBit + 4)))
  = blend_sample a b w0 w1.
Proof.
  unfold is_s16, is_u8, blend_sample. intros ? ? ? ?.
  rewrite sat_u8_sat_s16, !wrap16_small by (unfold is_s16; lia).
  rewrite (wrap32_small (w0 * a)) by nia.
  rewrite wrap32_small by nia.
  rewrite RightShiftWithRounding_div by done.
  rewrite Z.shiftr_div_pow2 by done.
  do 3 f_equal. lia.
Qed.

(** [ComputeWeightedAverage8] followed by [vqmovun_s16] applies
    [blend_sample] to each pair of lanes. *)
Lemma ComputeWeightedAverage8_lanes pred0 pred1 w0 w1 :
  length pred0 = 8%nat → length pred1 = 8%nat →
  Forall is_s16 pred0 → Forall is_s16 pred1 → is_u8 w0 → is_u8 w1 →
  vqmovun_s16 (ComputeWeightedAverage8 pred0 pred1 (vdup_n_s16 w0, vdup_n_s16 w1))
  = zip_with (λ a b, blend_sample a b w0 w1) pred0 pred1.
Proof.
  intros L0 L1 F0 F1 ? ?.
  do 9 (destruct pred0 as [|? pred0]; try discriminate L0).
  do 9 (destruct pred1 as [|? pred1]; try discriminate L1).
  repeat match goal with H : Forall _ (_ :: _) |- _ =>
    apply Forall_cons in H; destruct H end.
  unfold ComputeWeightedAverage8, vqmovun_s16, vqrshrn_n_s32, vmlal_s16,
    vmull_s16, vcombine_s16, vget_low_s16, vget_high_s16, vdup_n_s16.
  cbn [take drop replicate zip_with fmap list_fmap app fst snd].
  repeat f_equal; by apply blend_sample_lane.
Qed.
End BlendFacts.

(** ** The blend kernels, row by row *)

Module BlendKernelFacts.
Import NEON DistanceWeightedBlend BlendFacts BlendValues.

Section Blend.
Variables (pred_0 pred_1 : list Z) (s0 s1 w0 w1 ds : Z) (dest0 : list Z).
Hypothesis Hp0 : Forall is_s16 pred_0.
Hypothesis Hp1 : Forall is_s16 pred_1.
Hypothesis Hw0 : is_u8 w0.
Hypothesis Hw1 : is_u8 w1.

Local Abbreviation bval := (blend_val pred_0 pred_1 s0 s1 w0 w1).
Local Abbreviation row_at := (at_row s0 s1 ds).

Lemma blend_val_u8 r c : is_u8 (bval r c).
Proof. apply sat_u8_range. Qed.

Local Abbreviation weights := (vdup_n_s16 w0, vdup_n_s16 w1).

Lemma average8_load p0 p1 :
  vqmovun_s16 (ComputeWeightedAverage8 (load 8 pred_0 p0) (load 8 pred_1 p1) weights)
  = (λ i, blend_sample (rd pred_0 (p0 + i)) (rd pred_1 (p1 + i)) w0 w1)
      <$> seqZ 0 8.
Proof.
  rewrite ComputeWeightedAverage8_lanes;
    [|by rewrite length_load|by rewrite length_load
     |by apply Forall_load|by apply Forall_load|done|done].
  unfold load. by rewrite zip_with_tab.
Qed.

Lemma average8_load4 p0 p0' p1 p1' :
  vqmovun_s16 (ComputeWeightedAverage8
                 (vcombine_s16 (load 4 pred_0 p0) (load 4 pred_0 p0'))
                 (vcombine_s16 (load 4 pred_1 p1) (load 4 pred_1 p1')) weights)
  = ((λ i, blend_sample (rd pred_0 (p0 + i)) (rd pred_1 (p1 + i)) w0 w1)
       <$> seqZ 0 4) ++
    ((λ i, blend_sample (rd pred_0 (p0' + i)) (rd pred_1 (p1' + i)) w0 w1)
       <$> seqZ 0 4).
Proof.
  unfold vcombine_s16.
  rewrite ComputeWeightedAverage8_lanes;
    [|by rewrite length_app, !length_load
     |by rewrite length_app, !length_load
     |by apply Forall_app; split; apply Forall_load
     |by apply Forall_app; split; apply Forall_load|done|done].
  rewrite zip_with_app by (by rewrite !length_load).
  unfold load. by rewrite !zip_with_tab.
Qed.

Lemma Blend8xH_body_rows y m :
  8 <= ds → 0 <= y → (y + 1) * ds + 8 <= Z.of_nat (length dest0) →
  rows_done ds 8 8 bval is_u8 dest0 m y →
  ∃ m', Blend8xH_body pred_0 pred_1 s0 s1 weights ds (row_at y m)
        = row_at (y + 2) m' ∧
        rows_done ds 8 8 bval is_u8 dest0 m' (y + 2).
Proof.
  intros Hds Hy Hlen Hd.
  unfold Blend8xH_body, at_row, vld1q_s16, vst1_u8.
  cbn [prediction_0 prediction_1 dst dest].
  rewrite !average8_load, !take_tab_all by lia.
  eexists. split.
  - f_equal; first [lia|reflexivity].
  - replace (y + 2) with (y + 1 + 1) by lia.
    replace (y * ds + ds) with ((y + 1) * ds) by lia.
    replace (y * s0 + s0) with ((y + 1) * s0) by lia.
    replace (y * s1 + s1) with ((y + 1) * s1) by lia.
    apply (rows_done_store ds 8 bval); [lia|lia|lia|intros; apply blend_val_u8|].
    apply (rows_done_store ds 8 bval); [lia|lia|nia|intros; apply blend_val_u8|done].
Qed.
Lemma DistanceWeightedBlend8xH_rows height :
  8 <= ds → 0 <= height → height `mod` 2 = 0 →
  (height - 1) * ds + 8 <= Z.of_nat (length dest0) →
  ∃ m', DistanceWeightedBlend8xH_NEON pred_0 pred_1 s0 s1 weights ds
          height (row_at 0 dest0) = row_at height m' ∧
        rows_done ds 8 8 bval is_u8 dest0 m' height.
Proof.
  intros Hds Hh Heven Hlen. unfold DistanceWeightedBlend8xH_NEON.
  destruct (for_loop_inv
    (λ y c, 0 <= y <= height ∧ y `mod` 2 = 0 ∧
            ∃ m, c = row_at y m ∧ rows_done ds 8 8 bval is_u8 dest0 m y)
    height 2 (λ _, Blend8xH_body pred_0 pred_1 s0 s1 weights ds))
    with (fuel := Z.to_nat height) (i := 0) (s := row_at 0 dest0)
    as (j & c & -> & Hj & (Hj' & _ & m & -> & Hd)).
  - lia.
  - intros y c Hlt (Hy & Hev & m & -> & Hd).
    assert (y + 2 <= height) by (apply Z.mod_divide in Hev, Heven; try lia;
      destruct Hev as [a ->], Heven as [b ->]; lia).
    destruct (Blend8xH_body_rows y m) as (m' & -> & Hd'); [lia|lia|nia|done|].
    split; [lia|]. split; [|by eauto].
    rewrite <-Z.add_mod_idemp_l, Hev by lia. done.
  - lia.
  - split; [lia|]. split; [done|]. exists dest0. split; [done|].
    apply rows_done_0.
  - assert (j = height) as -> by lia. eauto.
Qed.

Lemma take4_app (a b : Z → Z) :
  take 4 ((a <$> seqZ 0 4) ++ (b <$> seqZ 0 4)) = a <$> seqZ 0 4.
Proof. done. Qed.

Lemma drop4_app (a b : Z → Z) :
  take 4 (drop 4 ((a <$> seqZ 0 4) ++ (b <$> seqZ 0 4))) = b <$> seqZ 0 4.
Proof. done. Qed.

Lemma Blend4xH_body_rows y m :
  4 <= ds → 0 <= y → (y + 3) * ds + 4 <= Z.of_nat (length dest0) →
  rows_done ds 4 4 bval is_u8 dest0 m y →
  ∃ m', Blend4xH_body pred_0 pred_1 s0 s1 weights ds (row_at y m)
        = row_at (y + 4) m' ∧
        rows_done ds 4 4 bval is_u8 dest0 m' (y + 4).
Proof.
  intros Hds Hy Hlen Hd.
  unfold Blend4xH_body, at_row, vld1_s16, StoreLo4, StoreHi4.
  cbn [prediction_0 prediction_1 dst dest].
  rewrite !average8_load4, !take4_app, !drop4_app.
  eexists. split.
  - f_equal; first [lia|reflexivity].
  - replace (y + 4) with (y + 1 + 1 + 1 + 1) by lia.
    replace (y * ds + ds + ds + ds) with ((y + 1 + 1 + 1) * ds) by lia.
    replace (y * s0 + s0 + s0 + s0) with ((y + 1 + 1 + 1) * s0) by lia.
    replace (y * s1 + s1 + s1 + s1) with ((y + 1 + 1 + 1) * s1) by lia.
    replace (y * ds + ds + ds) with ((y + 1 + 1) * ds) by lia.
    replace (y * s0 + s0 + s0) with ((y + 1 + 1) * s0) by lia.
    replace (y * s1 + s1 + s1) with ((y + 1 + 1) * s1) by lia.
    replace (y * ds + ds) with ((y + 1) * ds) by lia.
    replace (y * s0 + s0) with ((y + 1) * s0) by lia.
    replace (y * s1 + s1) with ((y + 1) * s1) by lia.
    apply (rows_done_store ds 4 bval); [lia|lia|lia|intros; apply blend_val_u8|].
    apply (rows_done_store ds 4 bval); [lia|lia|nia|intros; apply blend_val_u8|].
    apply (rows_done_store ds 4 bval); [lia|lia|nia|intros; apply blend_val_u8|].
    apply (rows_done_store ds 4 bval); [lia|lia|nia|intros; apply blend_val_u8|done].
Qed.

Lemma DistanceWeightedBlend4xH_rows height :
  4 <= ds → 0 <= height → height `mod` 4 = 0 →
  (height - 1) * ds + 4 <= Z.of_nat (length dest0) →
  ∃ m', DistanceWeightedBlend4xH_NEON pred_0 pred_1 s0 s1 weights ds
          height (row_at 0 dest0) = row_at height m' ∧
        rows_done ds 4 4 bval is_u8 dest0 m' height.
Proof.
  intros Hds Hh Heven Hlen. unfold DistanceWeightedBlend4xH_NEON.
  destruct (for_loop_inv
    (λ y c, 0 <= y <= height ∧ y `mod` 4 = 0 ∧
            ∃ m, c = row_at y m ∧ rows_done ds 4 4 bval is_u8 dest0 m y)
    height 4 (λ _, Blend4xH_body pred_0 pred_1 s0 s1 weights ds))
    with (fuel := Z.to_nat height) (i := 0) (s := row_at 0 dest0)
    as (j & c & -> & Hj & (Hj' & _ & m & -> & Hd)).
  - lia.
  - intros y c Hlt (Hy & Hev & m & -> & Hd).
    assert (y + 4 <= height) by (apply Z.mod_divide in Hev, Heven; try lia;
      destruct Hev as [a ->], Heven as [b ->]; lia).
    destruct (Blend4xH_body_rows y m) as (m' & -> & Hd'); [lia|lia|nia|done|].
    split; [lia|]. split; [|by eauto].
    rewrite <-Z.add_mod_idemp_l, Hev by lia. done.
  - lia.
  - split; [lia|]. split; [done|]. exists dest0. split; [done|].
    apply rows_done_0.
  - assert (j = height) as -> by lia. eauto.
Qed.
Lemma BlendLarge_row width y m :
  0 <= ds → 0 <= y → 16 <= width → width `mod` 16 = 0 →
  y * ds + width <= Z.of_nat (length m) →
  ∃ m', do_while (S (Z.to_nat width))
          (BlendLarge_xbody pred_0 pred_1 weights (row_at y m))
          (λ s, bool_decide (s.1 < width)) (0, m) = Some (width, m') ∧
        cols_done (y * ds) (bval y) is_u8 m m' width width.
Proof.
  intros Hds Hy Hw Hmod Hlen.
  apply Z.mod_divide in Hmod as [n ->]; [|lia].
  destruct (do_while_inv
    (λ k s, s.1 = 16 * Z.of_nat k ∧
            cols_done (y * ds) (bval y) is_u8 m s.2 s.1 s.1)
    (Z.to_nat n)
    (BlendLarge_xbody pred_0 pred_1 weights (row_at y m))
    (λ s, bool_decide (s.1 < n * 16)))
    with (fuel := S (Z.to_nat (n * 16))) (k := 0%nat) (s := (0, m))
    as ([x m'] & -> & Hx & Hc).
  - intros k [x mx] Hk [Hx Hc]. simpl in Hx, Hc. subst x.
    unfold BlendLarge_xbody, at_row, vld1q_s16, vst1q_u8, vcombine_u8.
    cbn [prediction_0 prediction_1 dst dest].
    rewrite !average8_load.
    rewrite take_ge by (rewrite length_app, !length_fmap, !length_seqZ; lia).
    rewrite store_app by nia.
    eexists. split; [reflexivity|]. cbn [fst snd]. split; [split; [lia|]|].
    + rewrite length_fmap, length_seqZ.
      replace (16 * Z.of_nat k + 16) with (16 * Z.of_nat k + 8 + 8) by lia.
      replace (y * ds + 16 * Z.of_nat k + Z.of_nat (Z.to_nat 8))
        with (y * ds + (16 * Z.of_nat k + 8)) by lia.
      replace (16 * Z.of_nat (S k)) with (16 * Z.of_nat k + 8 + 8) by lia.
      apply (cols_done_store _ _ _ _ _ _ 8 8); [nia|lia|lia|lia| |intros; apply sat_u8_range|].
      { intros i Hi. unfold blend_val. f_equal; f_equal; lia. }
      apply (cols_done_store _ _ _ _ _ _ 8 8); [nia|lia|lia|lia| |intros; apply sat_u8_range|done].
      intros i Hi. unfold blend_val. f_equal; f_equal; lia.
    + rewrite bool_decide_eq_true. lia.
  - lia.
  - lia.
  - split; [done|]. apply cols_done_0.
  - simpl in Hx, Hc. subst x. exists m'.
    replace (16 * Z.of_nat (Z.to_nat n)) with (n * 16) in * by lia. done.
Qed.

Lemma DistanceWeightedBlendLarge_rows width height :
  width <= ds → 16 <= width → width `mod` 16 = 0 → 1 <= height →
  (height - 1) * ds + width <= Z.of_nat (length dest0) →
  ∃ m', DistanceWeightedBlendLarge_NEON pred_0 pred_1 s0 s1 weights ds
          width height (row_at 0 dest0) = Some (row_at height m') ∧
        rows_done ds width width bval is_u8 dest0 m' height.
Proof.
  intros Hds Hw Hmod Hh Hlen. unfold DistanceWeightedBlendLarge_NEON.
  destruct (do_while_inv
    (λ k s, s.1 = height - Z.of_nat k ∧
            ∃ m, s.2 = row_at (Z.of_nat k) m ∧
                 rows_done ds width width bval is_u8 dest0 m (Z.of_nat k))
    (Z.to_nat height)
    (BlendLarge_ybody pred_0 pred_1 s0 s1 weights ds width)
    (λ s, bool_decide (s.1 ≠ 0)))
    with (fuel := Z.to_nat height) (k := 0%nat) (s := (height, row_at 0 dest0))
    as ([yr c] & -> & Hyr & m & Hc & Hd).
  - intros k [yr c] Hk (Hyr & m & Hc & Hd). simpl in Hyr, Hc. subst yr c.
    pose proof Hd as (Hl & _).
    destruct (BlendLarge_row width (Z.of_nat k) m) as (m' & Hrow & Hcols);
      [lia|lia|lia|done|rewrite Hl; nia|].
    unfold BlendLarge_ybody.
    change (dest (row_at (Z.of_nat k) m)) with m. rewrite Hrow. simpl.
    eexists. split; [reflexivity|]. cbn [fst snd]. split; [split; [lia|]|].
    + exists m'. split.
      * unfold at_row. cbn [prediction_0 prediction_1 dst].
        f_equal; lia.
      * replace (Z.of_nat (S k)) with (Z.of_nat k + 1) by lia.
        by apply rows_done_cols with (m := m); [lia|lia|lia|..].
    + rewrite bool_decide_eq_true. lia.
  - lia.
  - lia.
  - split; [simpl; lia|]. exists dest0. split; [done|]. apply rows_done_0.
  - simpl in Hc. subst c. simpl.
    replace (Z.of_nat (Z.to_nat height)) with height in * by lia. eauto.
Qed.
End Blend.

(** The dispatcher: every supported block ends with all its rows done. *)
Lemma DistanceWeightedBlend_NEON_rows pred_0 s0 pred_1 s1 w0 w1 width height dest0 ds :
  supported width height →
  Forall is_s16 pred_0 → Forall is_s16 pred_1 → is_u8 w0 → is_u8 w1 →
  width <= ds → (height - 1) * ds + width <= Z.of_nat (length dest0) →
  ∃ dest',
    DistanceWeightedBlend_NEON pred_0 s0 pred_1 s1 w0 w1 width height dest0 ds
      = Some dest' ∧
    rows_done ds width width (blend_val pred_0 pred_1 s0 s1 w0 w1) is_u8
              dest0 dest' height.
Proof.
  intros Hs Hp0 Hp1 Hw0 Hw1 Hds Hlen. unfold DistanceWeightedBlend_NEON.
  change (Cursor 0 0 0 dest0) with (at_row s0 s1 ds 0 dest0).
  destruct Hs as [[-> Hh]|[[-> Hh]|(Hw & Hmod & Hh)]].
  - rewrite decide_True by done.
    destruct Hh as [->|[->| ->]];
      repeat (first [rewrite decide_True by done|rewrite decide_False by done]);
      edestruct (DistanceWeightedBlend4xH_rows pred_0 pred_1 s0 s1 w0 w1 ds dest0)
        as (m' & -> & Hd); try done; try lia; simpl; eauto.
  - rewrite decide_False, decide_True by done.
    destruct Hh as [->|[->|[->| ->]]];
      repeat (first [rewrite decide_True by done|rewrite decide_False by done]);
      edestruct (DistanceWeightedBlend8xH_rows pred_0 pred_1 s0 s1 w0 w1 ds dest0)
        as (m' & -> & Hd); try done; try lia; simpl; eauto.
  - rewrite !decide_False by (intros ->; done).
    destruct (DistanceWeightedBlendLarge_rows pred_0 pred_1 s0 s1 w0 w1 ds dest0
                Hp0 Hp1 Hw0 Hw1 width height) as (m' & -> & Hd); try done.
    simpl. eauto.
Qed.
End BlendKernelFacts.


(** ** The vector code is the lane functions mapped over the lanes *)

Module LaneFacts.
Import SSE FilmGrain Lanes.

Lemma replicate8_tab (c : Z) : replicate 8 c = (λ _, c) <$> seqZ 0 8.
Proof. reflexivity. Qed.

Lemma tab8_explicit (F : Z → Z) :
  F <$> seqZ 0 8 = [F 0; F 1; F 2; F 3; F 4; F 5; F 6; F 7].
Proof. reflexivity. Qed.

Lemma tab16_explicit (F : Z → Z) :
  F <$> seqZ 0 16 = [F 0; F 1; F 2; F 3; F 4; F 5; F 6; F 7;
                     F 8; F 9; F 10; F 11; F 12; F 13; F 14; F 15].
Proof. reflexivity. Qed.

Lemma fmap_tab (f : Z → Z) (F : Z → Z) (l : list Z) :
  f <$> (F <$> l) = (λ i, f (F i)) <$> l.
Proof. by rewrite <-list_fmap_compose. Qed.

Lemma LoadLo8_take m p : take 8 (LoadLo8 m p) = load 8 m p.
Proof. unfold LoadLo8. by rewrite take_app_length' by (by rewrite length_load). Qed.

Lemma LoadSource_pixel_lanes P m p :
  LoadSource_pixel P m p = (λ i, pixel_lane P (rd m (p + i))) <$> seqZ 0 8.
Proof.
  destruct P; unfold LoadSource_pixel, LoadSource_uint8_t, LoadSource_uint16_t,
    _mm_cvtepu8_epi16, LoadUnaligned16; rewrite ?LoadLo8_take;
    unfold load; by rewrite fmap_tab.
Qed.

Lemma LoadSource_grain_lanes G m p :
  LoadSource_grain G m p = (λ i, grain_lane G (rd m (p + i))) <$> seqZ 0 8.
Proof.
  destruct G; unfold LoadSource_grain, LoadSource_int8_t, LoadSource_int16_t,
    _mm_cvtepi8_epi16, LoadUnaligned16; rewrite ?LoadLo8_take;
    unfold load; by rewrite fmap_tab.
Qed.

(** Reading back a scratch array that was filled lane by lane. *)
Lemma load_tab8 (F : Z → Z) : load 8 (F <$> seqZ 0 8) 0 = F <$> seqZ 0 8.
Proof. reflexivity. Qed.

Lemma rd_tab8 (H F : Z → Z) :
  (λ i, H (rd (F <$> seqZ 0 8) (0 + i))) <$> seqZ 0 8 = (λ i, H (F i)) <$> seqZ 0 8.
Proof. reflexivity. Qed.

Lemma GetScalingFactors_lanes bitdepth P lut buf b :
  GetScalingFactors bitdepth P lut buf b
  = (λ i, scaling_lane bitdepth P lut (rd buf (b + i))) <$> seqZ 0 8.
Proof.
  unfold GetScalingFactors, scaling_lane. case_decide.
  - unfold LoadAligned16. by rewrite load_tab8, fmap_tab.
  - unfold LoadAligned16, _mm_add_epi16, _mm_mulhrs_epi16, _mm_sub_epi16,
      _mm_srli_epi16, _mm_slli_epi16.
    rewrite !load_tab8, LoadSource_pixel_lanes, !fmap_tab.
    by rewrite !zip_with_tab.
Qed.

Lemma ScaleNoise_lanes bitdepth (N S : Z → Z) (l : list Z) count :
  ScaleNoise bitdepth (N <$> l) (S <$> l) count
  = (λ i, mulhrs16 (N i) (sll16 (S i) count)) <$> l.
Proof.
  unfold ScaleNoise, _mm_mulhrs_epi16, _mm_sll_epi16.
  by rewrite fmap_tab, zip_with_tab.
Qed.

Lemma Clip3_lanes (V : Z → Z) low high :
  Clip3 (V <$> seqZ 0 8) (_mm_set1_epi16 low) (_mm_set1_epi16 high)
  = (λ i, clip_lane (V i) (wrap16 low) (wrap16 high)) <$> seqZ 0 8.
Proof.
  unfold Clip3, _mm_max_epi16, _mm_min_epi16, _mm_set1_epi16, clip_lane.
  by rewrite !replicate8_tab, !zip_with_tab.
Qed.

Lemma StoreUnsigned_lanes P dest q (V : Z → Z) :
  StoreUnsigned P dest q (V <$> seqZ 0 8)
  = store dest q ((λ i, store_lane P (V i)) <$> seqZ 0 8).
Proof.
  destruct P; unfold StoreUnsigned, StoreLo8, StoreUnaligned16, _mm_packus_epi16.
  - rewrite take_app_length' by (by rewrite !length_fmap, length_seqZ).
    by rewrite fmap_tab.
  - rewrite take_tab_all by lia. by rewrite fmap_tab.
Qed.

(** The body shared by the luma kernel and the CFL chroma kernel: load the
    pixels, scale the noise, add, clip and store. *)
Lemma blend_block_lanes bitdepth G P lut src p buf b noise n
    min_value max_value scaling_shift dest q :
  StoreUnsigned P dest q
    (Clip3 (_mm_add_epi16 (LoadSource_pixel P src p)
              (ScaleNoise bitdepth (LoadSource_grain G noise n)
                 (GetScalingFactors bitdepth P lut buf b)
                 (_mm_cvtsi32_si128 (15 - scaling_shift))))
           (_mm_set1_epi16 min_value) (_mm_set1_epi16 max_value))
  = store dest q
      ((λ i, blend_lane bitdepth G P lut min_value max_value scaling_shift
               (rd src (p + i)) (rd buf (b + i)) (rd noise (n + i)))
         <$> seqZ 0 8).
Proof.
  rewrite LoadSource_pixel_lanes, LoadSource_grain_lanes, GetScalingFactors_lanes.
  rewrite ScaleNoise_lanes. unfold _mm_add_epi16. rewrite zip_with_tab.
  by rewrite Clip3_lanes, StoreUnsigned_lanes.
Qed.

Lemma wrap16_zext8_hi c : wrap16 (zext8 c + 256 * 0) = zext8 c.
Proof.
  rewrite Z.mul_0_r, Z.add_0_r. apply wrap16_small.
  unfold zext8, is_s16. pose proof (Z.mod_pos_bound c 256). lia.
Qed.

Lemma GetAverageLuma_lanes_444 P luma p :
  GetAverageLuma P luma p 0 = (λ i, pixel_lane P (rd luma (p + i))) <$> seqZ 0 8.
Proof.
  pose proof (LoadSource_pixel_lanes P luma p) as H.
  destruct P; unfold GetAverageLuma; rewrite decide_False by (intros ?; done);
    exact H.
Qed.

Lemma GetAverageLuma_lanes_sub P luma p subsampling_x :
  subsampling_x ≠ 0 →
  GetAverageLuma P luma p subsampling_x
  = (λ i, average_lane P (rd luma (p + 2 * i)) (rd luma (p + (2 * i + 1))))
      <$> seqZ 0 8.
Proof.
  intros Hs. unfold GetAverageLuma. rewrite !decide_True by done.
  destruct P.
  - unfold LoadUnaligned16_epi8, load.
    set (L := λ i, rd luma (p + i)).
    change ((λ i, average_lane uint8_t (rd luma (p + 2 * i))
                     (rd luma (p + (2 * i + 1)))) <$> seqZ 0 8)
      with ((λ i, average_lane uint8_t (L (2 * i)) (L (2 * i + 1))) <$> seqZ 0 8).
    clearbody L.
    rewrite tab16_explicit, tab8_explicit.
    unfold RightShiftWithRounding_U16, _mm_hadd_epi16, _mm_cvtepu8_epi16,
      _mm_unpackhi_epi8, _mm_setzero_si128, average_lane, pixel_lane, add16.
    cbn [take drop replicate interleave epi8_as_epi16 hadd_pairs app fmap
         list_fmap Z.mul Pos.mul Z.add Pos.add Pos.succ].
    rewrite !wrap16_zext8_hi, !zext8_idem. reflexivity.
  - unfold LoadUnaligned16, load.
    replace ((λ i, rd luma (p + 8 + i)) <$> seqZ 0 8)
      with ((λ i, rd luma (p + (8 + i))) <$> seqZ 0 8).
    2:{ apply list_fmap_ext. intros ? i _. f_equal. lia. }
    set (L := λ i, rd luma (p + i)).
    change ((λ i, rd luma (p + (8 + i))) <$> seqZ 0 8)
      with ((λ i, L (8 + i)) <$> seqZ 0 8).
    change ((λ i, average_lane uint16_t (rd luma (p + 2 * i))
                     (rd luma (p + (2 * i + 1)))) <$> seqZ 0 8)
      with ((λ i, average_lane uint16_t (L (2 * i)) (L (2 * i + 1))) <$> seqZ 0 8).
    clearbody L. reflexivity.
Qed.

Lemma GetAverageLuma_lanes P luma p subsampling_x :
  GetAverageLuma P luma p subsampling_x
  = average_luma_lane P luma p subsampling_x <$> seqZ 0 8.
Proof.
  unfold average_luma_lane. destruct (decide (subsampling_x ≠ 0)) as [H|H].
  - by apply GetAverageLuma_lanes_sub.
  - assert (subsampling_x = 0) as -> by lia. apply GetAverageLuma_lanes_444.
Qed.

Lemma store_scratch8 (F : Z → Z) :
  store (memset0 8) 0 (F <$> seqZ 0 8) = F <$> seqZ 0 8.
Proof. reflexivity. Qed.

Lemma rd_scratch8 (H : Z → Z → Z) (F : Z → Z) :
  (λ i, H i (rd (F <$> seqZ 0 8) (0 + i))) <$> seqZ 0 8
  = (λ i, H i (F i)) <$> seqZ 0 8.
Proof. reflexivity. Qed.

(** The body of the CFL chroma kernel, from the average-luma lanes [A]. *)
Lemma cfl_block_lanes bitdepth G P lut (A : Z → Z) chroma c noise n
    min_value max_value scaling_shift dest q :
  StoreUnsigned P dest q
    (Clip3 (BlendChromaValsWithCfl bitdepth G P
              (StoreUnsigned P (memset0 8) 0 (A <$> seqZ 0 8))
              lut chroma c noise n (_mm_cvtsi32_si128 (15 - scaling_shift)))
           (_mm_set1_epi16 min_value) (_mm_set1_epi16 max_value))
  = store dest q
      ((λ i, blend_lane bitdepth G P lut min_value max_value scaling_shift
               (rd chroma (c + i)) (store_lane P (A i)) (rd noise (n + i)))
         <$> seqZ 0 8).
Proof.
  unfold BlendChromaValsWithCfl. rewrite blend_block_lanes. f_equal.
  by rewrite StoreUnsigned_lanes, store_scratch8.
Qed.

Lemma merged_buffer_lanes (A O : Z → Z) chroma_offset chroma_multiplier luma_multiplier :
  let weights :=
    _mm_set1_epi32 (Z.lor (LeftShift chroma_multiplier 16)
                          (Z.land luma_multiplier 65535)) in
  let average_luma := A <$> seqZ 0 8 in
  let orig := O <$> seqZ 0 8 in
  let combined_lo :=
    _mm_madd_epi16 (_mm_unpacklo_epi16 average_luma orig) (epi32_as_epi16 weights) in
  let combined_hi :=
    _mm_madd_epi16 (_mm_unpackhi_epi16 average_luma orig) (epi32_as_epi16 weights) in
  let merged_base :=
    _mm_packs_epi32 (_mm_srai_epi32 combined_lo 6) (_mm_srai_epi32 combined_hi 6) in
  let merged := _mm_add_epi16 merged_base (_mm_set1_epi16 chroma_offset) in
  StoreLo8 (memset0 8) 0 (_mm_packus_epi16 merged merged)
  = (λ i, merged_lane chroma_offset chroma_multiplier luma_multiplier (A i) (O i))
      <$> seqZ 0 8.
Proof.
  unfold merged_lane, multiplier_word, _mm_set1_epi32.
  generalize (wrap32 (Z.lor (LeftShift chroma_multiplier 16)
                            (Z.land luma_multiplier 65535))).
  intros w. reflexivity.
Qed.

(** The body of the multiplier-mode chroma kernel, from the average-luma
    lanes [A]. *)
Lemma nocfl_block_lanes lut (A : Z → Z) chroma c noise n
    min_value max_value scaling_shift
    chroma_offset chroma_multiplier luma_multiplier dest q :
  StoreUnsigned uint8_t dest q
    (Clip3 (BlendChromaValsNoCfl lut chroma c noise n (A <$> seqZ 0 8)
              (_mm_cvtsi32_si128 (15 - scaling_shift))
              (_mm_set1_epi16 chroma_offset)
              (_mm_set1_epi32 (Z.lor (LeftShift chroma_multiplier 16)
                                     (Z.land luma_multiplier 65535))))
           (_mm_set1_epi16 min_value) (_mm_set1_epi16 max_value))
  = store dest q
      ((λ i, nocfl_lane lut min_value max_value scaling_shift
               chroma_offset chroma_multiplier luma_multiplier
               (A i) (rd chroma (c + i)) (rd noise (n + i)))
         <$> seqZ 0 8).
Proof.
  unfold BlendChromaValsNoCfl.
  rewrite (LoadSource_pixel_lanes uint8_t chroma c
           : LoadSource_uint8_t chroma c = _).
  rewrite (LoadSource_grain_lanes int8_t noise n
           : LoadSource_int8_t noise n = _).
  rewrite (merged_buffer_lanes A (λ i, pixel_lane uint8_t (rd chroma (c + i)))).
  rewrite GetScalingFactors_lanes, ScaleNoise_lanes.
  unfold _mm_add_epi16. rewrite zip_with_tab.
  rewrite Clip3_lanes, StoreUnsigned_lanes. reflexivity.
Qed.

End LaneFacts.

(** ** The lane functions against the words of the spec *)

Module ScalarFacts.
Import SSE FilmGrain Lanes Spec.

Lemma is_u8_s16 z : is_u8 z → is_s16 z.
Proof. unfold is_u8, is_s16. lia. Qed.

Lemma rd_lut_u8 lut c : Forall is_u8 lut → is_u8 (rd lut c).
Proof. intros ?. apply Forall_rd; [unfold is_u8; lia|done]. Qed.

(** [_mm_mulhrs_epi16] is the Q15 rounding multiply, wrapped to 16 bits. *)
Lemma mulhrs16_round_multiply x y : mulhrs16 x y = wrap16 (round_multiply x y).
Proof.
  unfold mulhrs16, round_multiply. f_equal.
  rewrite RightShiftWithRounding_div by done.
  rewrite !Z.shiftr_div_pow2 by done.
  change (2 ^ 15) with (2 ^ 14 * 2). change (2 ^ (15 - 1)) with (1 * 2 ^ 14).
  rewrite <-Z.div_div by done. f_equal.
  by rewrite Z.div_add by done.
Qed.

Lemma round_multiply_bound x y B :
  0 <= B → - B * 32768 <= x * y <= B * 32768 - 16384 →
  - B <= round_multiply x y <= B.
Proof.
  intros ? ?. unfold round_multiply. rewrite RightShiftWithRounding_div by done.
  change (2 ^ (15 - 1)) with 16384. change (2 ^ 15) with 32768.
  split.
  - apply Z.div_le_lower_bound; lia.
  - apply Z.lt_succ_r, Z.div_lt_upper_bound; lia.
Qed.

Lemma zext16_wrap16 z : zext16 (wrap16 z) = z `mod` 65536.
Proof.
  unfold zext16, wrap16. rewrite Zminus_mod_idemp_l. f_equal. lia.
Qed.

Lemma pixel_lane_mod4 P c : pixel_lane P c `mod` 4 = c `mod` 4.
Proof.
  destruct P; unfold pixel_lane, zext8, wrap16.
  - apply Z.mod_mod_divide. by exists 64.
  - replace ((c + 32768) `mod` 65536 - 32768)
      with (c + (- ((c + 32768) `div` 65536) * 16384) * 4).
    2:{ pose proof (Z.div_mod (c + 32768) 65536). lia. }
    by rewrite Z.mod_add by lia.
Qed.

(** The remainder lanes of [GetScalingFactors]: the two low bits of the
    sample, in Q15. *)
Lemma remainder_lane P c :
  srl16 (sll16 (pixel_lane P c) 14) 1 = Z.land c 3 * 8192.
Proof.
  unfold srl16, sll16. rewrite !decide_False by lia.
  assert (Z.land c 3 = c `mod` 4) as -> by (apply (Z.land_ones c 2); lia).
  rewrite zext16_wrap16, Z.shiftl_mul_pow2 by lia.
  change (2 ^ 14) with 16384. change 65536 with (4 * 16384).
  rewrite Z.mul_mod_distr_r, pixel_lane_mod4 by lia.
  rewrite Z.shiftr_div_pow2 by lia. change (2 ^ 1) with 2.
  pose proof (Z.mod_pos_bound c 4).
  replace (c `mod` 4 * 16384) with (c `mod` 4 * 8192 * 2) by lia.
  rewrite Z.div_mul by lia. apply wrap16_small. unfold is_s16. lia.
Qed.

(** Interpolation stays between the two table entries. *)
Lemma interpolation_bound d r :
  -255 <= d <= 255 → 0 <= r <= 3 →
  Z.min 0 d <= RightShiftWithRounding (d * r) 2 <= Z.max 0 d.
Proof.
  intros ? ?. rewrite RightShiftWithRounding_div by done.
  change (2 ^ (2 - 1)) with 2. change (2 ^ 2) with 4. split.
  - apply Z.div_le_lower_bound; nia.
  - apply Z.lt_succ_r, Z.div_lt_upper_bound; nia.
Qed.

Lemma LUT_u8 bitdepth lut c : Forall is_u8 lut → is_u8 (LUT bitdepth lut c).
Proof.
  intros Hl. unfold LUT. case_decide; [by apply rd_lut_u8|].
  pose proof (rd_lut_u8 lut (c ≫ 2) Hl). pose proof (rd_lut_u8 lut (c ≫ 2 + 1) Hl).
  assert (Z.land c 3 = c `mod` 4) as -> by (apply (Z.land_ones c 2); lia).
  pose proof (Z.mod_pos_bound c 4).
  pose proof (interpolation_bound (rd lut (c ≫ 2 + 1) - rd lut (c ≫ 2)) (c `mod` 4)).
  unfold is_u8 in *. lia.
Qed.

(** One lane of [GetScalingFactors] is the LUT evaluation of section 4.2. *)
Lemma scaling_lane_LUT bitdepth P lut c :
  Forall is_u8 lut → scaling_lane bitdepth P lut c = LUT bitdepth lut c.
Proof.
  intros Hl. unfold scaling_lane, LUT. case_decide.
  - apply wrap16_small, is_u8_s16. by apply rd_lut_u8.
  - pose proof (rd_lut_u8 lut (c ≫ 2) Hl) as Hs.
    pose proof (rd_lut_u8 lut (c ≫ 2 + 1) Hl) as He.
    rewrite remainder_lane, mulhrs16_round_multiply.
    rewrite !(wrap16_small (rd lut _)) by (by apply is_u8_s16).
    unfold sub16, add16. rewrite (wrap16_small (_ - _)) by (unfold is_u8, is_s16 in *; lia).
    assert (round_multiply (rd lut (c ≫ 2 + 1) - rd lut (c ≫ 2)) (Z.land c 3 * 8192)
            = RightShiftWithRounding
                ((rd lut (c ≫ 2 + 1) - rd lut (c ≫ 2)) * Z.land c 3) 2) as ->.
    { unfold round_multiply. rewrite !RightShiftWithRounding_div by done.
      change (2 ^ (15 - 1)) with (2 * 8192). change (2 ^ 15) with (4 * 8192).
      change (2 ^ (2 - 1)) with 2. change (2 ^ 2) with 4.
      rewrite Z.mul_assoc, <-Z.mul_add_distr_r.
      by rewrite Z.div_mul_cancel_r by lia. }
    assert (Z.land c 3 = c `mod` 4) as Hr by (apply (Z.land_ones c 2); lia).
    pose proof (Z.mod_pos_bound c 4).
    pose proof (interpolation_bound (rd lut (c ≫ 2 + 1) - rd lut (c ≫ 2)) (Z.land c 3)).
    unfold is_u8 in *.
    rewrite (wrap16_small (RightShiftWithRounding _ _)) by (unfold is_s16; lia).
    apply wrap16_small. unfold is_s16. lia.
Qed.

Lemma cvtsi32_small a : 0 <= a < 2 ^ 32 → _mm_cvtsi32_si128 a = a.
Proof. intros ?. unfold _mm_cvtsi32_si128. by rewrite Z.mod_small. Qed.

Lemma clip_lane_Clip3 v low high :
  low <= high → clip_lane v low high = Clip3_scalar v low high.
Proof. intros ?. unfold clip_lane, Clip3_scalar. repeat case_decide; lia. Qed.

Lemma clip_lane_range v low high :
  low <= high → low <= clip_lane v low high <= high.
Proof. unfold clip_lane. lia. Qed.

(** The scaled noise of one lane, when the scaling factor is a byte. *)
Lemma scaled_noise_lane scaling_shift s n B :
  8 <= scaling_shift <= 11 → is_u8 s → 128 <= B <= 16384 → - B <= n < B →
  mulhrs16 n (sll16 s (_mm_cvtsi32_si128 (15 - scaling_shift)))
  = round_multiply n (s ≪ (15 - scaling_shift)) ∧
  - B <= round_multiply n (s ≪ (15 - scaling_shift)) <= B.
Proof.
  intros Hsh Hs HB Hn. unfold is_u8 in Hs.
  rewrite cvtsi32_small by (change (2 ^ 32) with 4294967296; lia).
  unfold sll16. rewrite decide_False by lia.
  rewrite Z.shiftl_mul_pow2 by lia.
  assert (16 <= 2 ^ (15 - scaling_shift) <= 128) as Hp.
  { assert (scaling_shift = 8 ∨ scaling_shift = 9 ∨ scaling_shift = 10
            ∨ scaling_shift = 11) as [->|[->|[->| ->]]] by lia; simpl; lia. }
  rewrite (wrap16_small (s * _)) by (unfold is_s16; nia).
  rewrite mulhrs16_round_multiply.
  assert (- B <= round_multiply n (s * 2 ^ (15 - scaling_shift)) <= B) as Hr.
  { apply round_multiply_bound; [lia|].
    assert (0 <= s * 2 ^ (15 - scaling_shift) <= 32640) by nia.
    generalize dependent (s * 2 ^ (15 - scaling_shift)). intros t. intros. nia. }
  split; [|done]. apply wrap16_small. unfold is_s16. lia.
Qed.

(** One lane of the luma and CFL kernels is the sample of section 4.4. *)
Lemma blend_lane_grain_sample bitdepth G P lut min_value max_value scaling_shift
    orig_cell scale_cell noise_cell :
  instantiated bitdepth G P → Forall is_u8 lut → 8 <= scaling_shift <= 11 →
  0 <= min_value <= max_value → max_value < 2 ^ bitdepth →
  valid_pixel bitdepth orig_cell → valid_grain bitdepth noise_cell →
  blend_lane bitdepth G P lut min_value max_value scaling_shift
             orig_cell scale_cell noise_cell
  = grain_sample bitdepth lut scaling_shift min_value max_value
                 orig_cell scale_cell noise_cell.
Proof.
  intros Hi Hl Hsh Hmm Hmax Ho Hn.
  unfold blend_lane, stored_lane, noisy_lane, grain_sample.
  rewrite scaling_lane_LUT by done.
  pose proof (LUT_u8 bitdepth lut scale_cell Hl) as Hs.
  unfold valid_pixel, valid_grain in *.
  destruct Hi as [(-> & -> & ->)|(-> & -> & ->)]; cbn [pixel_lane grain_lane store_lane].
  - change (2 ^ 8) with 256 in *. change (2 ^ (8 - 1)) with 128 in *.
    destruct (scaled_noise_lane scaling_shift (LUT 8 lut scale_cell) noise_cell 128)
      as [E Hr]; [done|done|lia|lia|].
    rewrite zext8_small, sext8_small by (unfold is_u8, is_s8; lia).
    rewrite E. unfold add16.
    rewrite !wrap16_small by (unfold is_s16; lia).
    rewrite clip_lane_Clip3 by lia. apply sat_u8_small.
    unfold Clip3_scalar, is_u8. repeat case_decide; lia.
  - change (2 ^ 10) with 1024 in *. change (2 ^ (10 - 1)) with 512 in *.
    destruct (scaled_noise_lane scaling_shift (LUT 10 lut scale_cell) noise_cell 512)
      as [E Hr]; [done|done|lia|lia|].
    rewrite !(wrap16_small orig_cell), !(wrap16_small noise_cell)
      by (unfold is_s16; lia).
    rewrite E. unfold add16.
    rewrite !wrap16_small by (unfold is_s16; lia).
    rewrite clip_lane_Clip3 by lia. apply zext16_small.
    unfold Clip3_scalar, is_u16. repeat case_decide; lia.
Qed.

(** What [StoreUnsigned] stores is a pixel; it lies between the bounds
    handed to the kernel when these are a pixel range. *)
Lemma stored_lane_u8 min_value max_value v :
  is_u8 (stored_lane uint8_t min_value max_value v).
Proof. apply sat_u8_range. Qed.

Lemma stored_lane_u16 min_value max_value v :
  is_u16 (stored_lane uint16_t min_value max_value v).
Proof.
  unfold stored_lane, store_lane, zext16, is_u16.
  pose proof (Z.mod_pos_bound (clip_lane v (wrap16 min_value) (wrap16 max_value)) 65536).
  lia.
Qed.

Lemma stored_lane_range P bitdepth min_value max_value v :
  (P = uint8_t ∧ bitdepth = 8) ∨ (P = uint16_t ∧ 8 <= bitdepth <= 15) →
  0 <= min_value <= max_value → max_value < 2 ^ bitdepth →
  min_value <= stored_lane P min_value max_value v <= max_value.
Proof.
  intros HP Hmm Hmax. unfold stored_lane.
  assert (2 ^ bitdepth <= 2 ^ 15) by (apply Z.pow_le_mono_r; lia).
  change (2 ^ 15) with 32768 in *.
  rewrite !wrap16_small by (unfold is_s16; lia).
  pose proof (clip_lane_range v min_value max_value).
  destruct HP as [[-> ->]|[-> ?]]; cbn [store_lane].
  - change (2 ^ 8) with 256 in *. rewrite sat_u8_small; unfold is_u8; lia.
  - rewrite zext16_small; unfold is_u16; lia.
Qed.

(** One lane of [GetAverageLuma] is the rounded average of section 4.5. *)
Lemma average_lane_spec P a b :
  (P = uint8_t ∧ is_u8 a ∧ is_u8 b) ∨
  (P = uint16_t ∧ 0 <= a <= 32767 ∧ 0 <= b <= 32767) →
  average_lane P a b = (a + b + 1) ≫ 1.
Proof.
  intros H. unfold average_lane, rsr_u16, add16.
  assert (pixel_lane P a = a ∧ pixel_lane P b = b ∧ 0 <= a <= 32767 ∧ 0 <= b <= 32767)
    as (-> & -> & ? & ?).
  { destruct H as [(-> & ? & ?)|(-> & ? & ?)]; cbn [pixel_lane]; unfold is_u8 in *.
    - rewrite !zext8_small by (unfold is_u8; lia). lia.
    - rewrite !wrap16_small by (unfold is_s16; lia). lia. }
  rewrite zext16_wrap16, Z.mod_small by lia.
  rewrite RightShiftWithRounding_div by done.
  rewrite Z.shiftr_div_pow2 by done. change (2 ^ (1 - 1)) with 1.
  change (2 ^ 1) with 2.
  apply wrap16_small. unfold is_s16.
  assert (0 <= (a + b + 1) `div` 2 <= 32767); [|lia].
  split; [apply Z.div_pos; lia|].
  apply Z.lt_succ_r, Z.div_lt_upper_bound; lia.
Qed.

(** The broadcast multiplier word carries the luma multiplier in its low
    half and the chroma multiplier in its high half. *)
Lemma land_shifted_low a l :
  0 <= l < 65536 → Z.land (a * 65536) l = 0.
Proof.
  intros Hl. apply Z.bits_inj'. intros k Hk.
  rewrite Z.land_spec, Z.bits_0.
  destruct (Z.lt_ge_cases k 16) as [Hlt|Hge].
  - change 65536 with (2 ^ 16). by rewrite Z.mul_pow2_bits_low by lia.
  - replace l with (l `mod` 2 ^ 16) by (apply Z.mod_small; simpl; lia).
    rewrite Z.mod_pow2_bits_high by lia. apply andb_false_r.
Qed.

Lemma multiplier_word_value cm lm :
  is_s16 cm → is_s16 lm →
  multiplier_word cm lm = cm * 65536 + lm `mod` 65536.
Proof.
  unfold is_s16, multiplier_word, LeftShift. intros ? ?.
  rewrite Z.shiftl_mul_pow2 by lia. change (2 ^ 16) with 65536.
  rewrite (wrap32_small (cm * 65536)) by lia.
  change 65535 with (Z.ones 16). rewrite Z.land_ones by lia.
  change (2 ^ 16) with 65536.
  pose proof (Z.mod_pos_bound lm 65536).
  rewrite <-Z.lxor_lor, <-Z.add_nocarry_lxor by (by apply land_shifted_low; lia).
  apply wrap32_small. lia.
Qed.

Lemma multiplier_word_lo cm lm :
  is_s16 cm → is_s16 lm → wrap16 (multiplier_word cm lm) = lm.
Proof.
  intros Hc Hl. rewrite multiplier_word_value by done.
  unfold wrap16.
  replace (cm * 65536 + lm `mod` 65536 + 32768)
    with (lm `mod` 65536 + 32768 + cm * 65536) by lia.
  rewrite Z.mod_add, Zplus_mod_idemp_l by lia.
  unfold is_s16 in Hl. rewrite Z.mod_small; lia.
Qed.

Lemma multiplier_word_hi cm lm :
  is_s16 cm → is_s16 lm → wrap16 (multiplier_word cm lm ≫ 16) = cm.
Proof.
  intros Hc Hl. rewrite multiplier_word_value by done.
  rewrite Z.shiftr_div_pow2 by lia. change (2 ^ 16) with 65536.
  pose proof (Z.mod_pos_bound lm 65536).
  rewrite Z.add_comm, Z.div_add, Z.div_small by lia.
  by apply wrap16_small.
Qed.

(** One lane of [merged_buffer] is the index of section 4.6. *)
Lemma merged_lane_spec chroma_offset chroma_multiplier luma_multiplier al orig :
  is_s8 chroma_multiplier → is_s8 luma_multiplier →
  -256 <= chroma_offset <= 255 → is_u8 al → is_u8 orig →
  merged_lane chroma_offset chroma_multiplier luma_multiplier al orig
  = merged al orig luma_multiplier chroma_multiplier chroma_offset.
Proof.
  unfold is_s8, is_u8. intros Hcm Hlm Hoff Hal Ho.
  unfold merged_lane, merged, clip_to_intermediate.
  rewrite multiplier_word_lo, multiplier_word_hi by (unfold is_s16; lia).
  rewrite wrap32_small by nia.
  assert (-1020 <= (al * luma_multiplier + orig * chroma_multiplier) ≫ 6 <= 1020).
  { rewrite Z.shiftr_div_pow2 by lia. change (2 ^ 6) with 64. split.
    - apply Z.div_le_lower_bound; nia.
    - apply Z.lt_succ_r, Z.div_lt_upper_bound; nia. }
  unfold sat_s16, add16.
  rewrite (wrap16_small chroma_offset) by (unfold is_s16; lia).
  rewrite Z.min_r, Z.max_r by lia.
  rewrite wrap16_small by (unfold is_s16; lia).
  unfold sat_u8, Clip3_scalar. repeat case_decide; lia.
Qed.

Lemma merged_u8 al orig lm cm off : is_u8 (merged al orig lm cm off).
Proof.
  unfold merged, clip_to_intermediate, Clip3_scalar, is_u8.
  repeat case_decide; lia.
Qed.

(** One lane of [GetAverageLuma] on 8-bit pixels is a byte, whatever the
    buffer holds. *)
Lemma zext8_u8 c : is_u8 (zext8 c).
Proof. unfold zext8, is_u8. pose proof (Z.mod_pos_bound c 256). lia. Qed.

Lemma average_luma_lane_u8 luma p subsampling_x i :
  is_u8 (average_luma_lane uint8_t luma p subsampling_x i).
Proof.
  unfold average_luma_lane. case_decide; [|apply zext8_u8].
  set (a := rd luma (p + 2 * i)). set (b := rd luma (p + (2 * i + 1))).
  assert (average_lane uint8_t a b = average_lane uint8_t (zext8 a) (zext8 b)) as ->.
  { unfold average_lane, pixel_lane. by rewrite !zext8_idem. }
  pose proof (zext8_u8 a) as Ha. pose proof (zext8_u8 b) as Hb.
  rewrite average_lane_spec by (left; done).
  unfold is_u8 in *. rewrite Z.shiftr_div_pow2 by lia. change (2 ^ 1) with 2.
  split; [apply Z.div_pos; lia|].
  apply Z.lt_succ_r, Z.div_lt_upper_bound; lia.
Qed.

(** One lane of the multiplier-mode kernel is the sample of section 4.4 at
    the index of section 4.6. *)
Lemma nocfl_lane_grain_sample lut min_value max_value scaling_shift
    chroma_offset chroma_multiplier luma_multiplier al chroma_cell noise_cell :
  Forall is_u8 lut → 8 <= scaling_shift <= 11 →
  0 <= min_value <= max_value → max_value <= 255 →
  is_s8 chroma_multiplier → is_s8 luma_multiplier →
  -256 <= chroma_offset <= 255 →
  is_u8 al → is_u8 chroma_cell → is_s8 noise_cell →
  nocfl_lane lut min_value max_value scaling_shift
             chroma_offset chroma_multiplier luma_multiplier
             al chroma_cell noise_cell
  = grain_sample 8 lut scaling_shift min_value max_value chroma_cell
      (merged al chroma_cell luma_multiplier chroma_multiplier chroma_offset)
      noise_cell.
Proof.
  intros Hl Hsh Hmm Hmax Hcm Hlm Hoff Hal Hc Hn.
  change (nocfl_lane lut min_value max_value scaling_shift
            chroma_offset chroma_multiplier luma_multiplier
            al chroma_cell noise_cell)
    with (blend_lane 8 int8_t uint8_t lut min_value max_value scaling_shift
            chroma_cell
            (merged_lane chroma_offset chroma_multiplier luma_multiplier
                         al (zext8 chroma_cell))
            noise_cell).
  rewrite zext8_small by done.
  rewrite merged_lane_spec by done.
  apply blend_lane_grain_sample; try done.
  - by left.
  - change (2 ^ 8) with 256. lia.
  - unfold valid_pixel, is_u8 in *. change (2 ^ 8) with 256. lia.
  - unfold valid_grain, is_s8 in *. change (2 ^ (8 - 1)) with 128. lia.
Qed.

End ScalarFacts.

(** ** The scratch buffers of the right edge *)

Module GrainKernelFacts.
Import SSE FilmGrain Lanes LaneFacts GrainValues.

(** The valid part of a scratch buffer is the source it was copied from. *)
Lemma scratch_valid buf src p valid last i :
  0 <= i < valid → valid <= Z.of_nat (length buf) →
  rd (store (memcpy buf src p valid) valid [last]) (0 + i) = rd src (p + i).
Proof.
  intros Hi Hv. rewrite rd_store_out by (simpl; lia).
  unfold memcpy, load. rewrite rd_store_tab by lia. f_equal. lia.
Qed.

(** The slot after the valid part holds the replicated sample. *)
Lemma scratch_last buf src p valid last :
  0 <= valid < Z.of_nat (length buf) →
  rd (store (memcpy buf src p valid) valid [last]) valid = last.
Proof.
  intros Hv. rewrite rd_store_in; simpl; rewrite ?Z.sub_diag; try done; try lia.
  unfold memcpy. rewrite length_store. lia.
Qed.

(** Past that slot the buffer keeps what it held before. *)
Lemma scratch_rest buf src p valid last i :
  0 <= valid → valid < i →
  rd (store (memcpy buf src p valid) valid [last]) i = rd buf i.
Proof.
  intros Hv Hi. rewrite rd_store_out by (simpl; lia).
  unfold memcpy, load. by rewrite rd_store_tab_out by lia.
Qed.

Lemma blend_lane_stored bitdepth G P lut min_value max_value scaling_shift o s n :
  stored P min_value max_value
         (blend_lane bitdepth G P lut min_value max_value scaling_shift o s n).
Proof. unfold blend_lane. by eexists. Qed.

Lemma nocfl_lane_stored lut min_value max_value scaling_shift off cm lm a c n :
  stored uint8_t min_value max_value
         (nocfl_lane lut min_value max_value scaling_shift off cm lm a c n).
Proof. unfold nocfl_lane. by eexists. Qed.

(** ** The luma kernel, row by row

    [V] is the number of columns of a row that the destination buffer
    holds: the width when the rows are packed, the whole span of the blocks
    when they are padded. *)

Section Luma.
Variables (bitdepth : Z) (G : GrainType) (P : Pixel).
Variable (noise_image : Plane → Array2D).
Variables (min_value max_luma scaling_shift width height start_height : Z).
Variable (scaling_lut_y : list Z).
Variables (source_plane_y : list Z) (source_stride_y : Z).
Variable (dest_stride_y : Z).
Variable (dest0 : list Z).
Variable (V : Z).

Local Abbreviation nrow := (luma_noise_row noise_image start_height).
Local Abbreviation lmain :=
  (luma_main bitdepth G P noise_image min_value max_luma scaling_shift
     start_height scaling_lut_y source_plane_y source_stride_y).
Local Abbreviation ledge :=
  (luma_edge bitdepth G P noise_image min_value max_luma scaling_shift width
     start_height scaling_lut_y source_plane_y source_stride_y).
Local Abbreviation lval :=
  (luma_val bitdepth G P noise_image min_value max_luma scaling_shift width
     start_height scaling_lut_y source_plane_y source_stride_y).

Hypothesis Hwidth : 0 <= width.
Hypothesis HV : width <= V <= row_span width.
Hypothesis Hstride : V <= dest_stride_y.

Local Abbreviation R := (stored P min_value max_luma).
Local Abbreviation Luma_row' :=
  (Luma_row bitdepth G P noise_image min_value max_luma scaling_shift width
            start_height scaling_lut_y source_plane_y source_stride_y
            dest_stride_y).

Lemma Luma_row_cols y d :
  0 <= y → y * dest_stride_y + V <= Z.of_nat (length d) →
  ∃ d',
    Luma_row' (y, y * source_stride_y, y * dest_stride_y, d)
    = Some (y + 1, (y + 1) * source_stride_y, (y + 1) * dest_stride_y, d') ∧
    cols_done (y * dest_stride_y) (lval y) R d d' V (row_span width).
Proof.
  intros Hy Hlen. unfold Luma_row. fold (nrow y).
  erewrite for_loop_ext; [|intros x d1; apply blend_block_lanes].
  edestruct (grain_row_blocks width V (y * dest_stride_y)
               (λ x i, lmain y x i) (ledge y) R d)
    as (x & d1 & E & -> & Hc); try done; try lia.
  - nia.
  - intros. apply blend_lane_stored.
  - intros. apply blend_lane_stored.
  - unfold luma_main in E.
    replace (λ x d2, store d2 (y * dest_stride_y + x) _) with
      (λ x d2, store d2 (y * dest_stride_y + x)
         ((λ i, blend_lane bitdepth G P scaling_lut_y min_value max_luma
                  scaling_shift
                  (rd source_plane_y (y * source_stride_y + x + i))
                  (rd source_plane_y (y * source_stride_y + x + i))
                  (rd (data (noise_image kPlaneY)) (nrow y + x + i)))
            <$> seqZ 0 8)) by reflexivity.
    rewrite E. eexists. split; [|exact Hc].
    rewrite blend_block_lanes.
    f_equal. rewrite !pair_equal_spec.
    repeat split; first [lia|reflexivity].
Qed.

Lemma BlendNoiseWithImageLuma_rows :
  1 <= height →
  (height - 1) * dest_stride_y + V <= Z.of_nat (length dest0) →
  ∃ dest',
    BlendNoiseWithImageLuma_SSE4_1_rows bitdepth G P noise_image
      min_value max_luma scaling_shift width height start_height
      scaling_lut_y source_plane_y source_stride_y dest_stride_y dest0
    = Some dest' ∧
    rows_done dest_stride_y V (row_span width) lval R dest0 dest' height.
Proof.
  intros Hh Hlen. unfold BlendNoiseWithImageLuma_SSE4_1_rows.
  destruct (do_while_inv
    (λ k s, ∃ d, s = (Z.of_nat k, Z.of_nat k * source_stride_y,
                      Z.of_nat k * dest_stride_y, d) ∧
                 rows_done dest_stride_y V (row_span width) lval R
                           dest0 d (Z.of_nat k))
    (Z.to_nat height) Luma_row' (λ s, bool_decide (s.1.1.1 < height)))
    with (fuel := S (Z.to_nat height)) (k := 0%nat) (s := (0, 0, 0, dest0))
    as (s' & -> & d & -> & Hd).
  - intros k s Hk (d & -> & Hd). pose proof Hd as (Hl & _).
    destruct (Luma_row_cols (Z.of_nat k) d) as (d' & -> & Hc);
      [lia|rewrite Hl; nia|].
    eexists. split; [reflexivity|]. split.
    + exists d'. split; [repeat f_equal; lia|].
      replace (Z.of_nat (S k)) with (Z.of_nat k + 1) by lia.
      by apply rows_done_cols with (m := d); [lia|lia|lia|..].
    + cbn [fst]. rewrite bool_decide_eq_true. lia.
  - lia.
  - lia.
  - exists dest0. split; [done|]. apply rows_done_0.
  - simpl. replace (Z.of_nat (Z.to_nat height)) with height in Hd by lia. eauto.
Qed.
End Luma.

(** ** The chroma kernels, row by row *)

Section ChromaWithCfl.
Variables (bitdepth : Z) (G : GrainType) (P : Pixel).
Variable (noise_image : Array2D).
Variables (min_value max_chroma width height start_height : Z).
Variables (subsampling_x subsampling_y scaling_shift : Z).
Variable (scaling_lut : list Z).
Variables (in_y : list Z) (source_stride_y : Z).
Variables (in_chroma : list Z) (source_stride_chroma : Z).
Variable (dest_stride : Z).
Variable (dest0 : list Z).
Variable (V : Z).

Local Abbreviation cw := (chroma_width width subsampling_x).
Local Abbreviation ch := (chroma_height height subsampling_y).
Local Abbreviation lrow := (luma_row subsampling_y source_stride_y).
Local Abbreviation nrow := (noise_row noise_image start_height subsampling_y).
Local Abbreviation cmain :=
  (cfl_main bitdepth G P noise_image min_value max_chroma start_height
     subsampling_x subsampling_y scaling_shift scaling_lut in_y
     source_stride_y in_chroma source_stride_chroma).
Local Abbreviation cedge :=
  (cfl_edge bitdepth G P noise_image min_value max_chroma width start_height
     subsampling_x subsampling_y scaling_shift scaling_lut in_y
     source_stride_y in_chroma source_stride_chroma).
Local Abbreviation cval :=
  (cfl_val bitdepth G P noise_image min_value max_chroma width start_height
     subsampling_x subsampling_y scaling_shift scaling_lut in_y
     source_stride_y in_chroma source_stride_chroma).

Hypothesis Hwidth : 0 <= cw.
Hypothesis HV : cw <= V <= row_span cw.
Hypothesis Hstride : V <= dest_stride.

Local Abbreviation R := (stored P min_value max_chroma).
Local Abbreviation row' :=
  (ChromaWithCfl_row bitdepth G P noise_image min_value max_chroma width
     start_height subsampling_x subsampling_y scaling_shift scaling_lut
     in_y source_stride_y in_chroma source_stride_chroma dest_stride).

Lemma ChromaWithCfl_row_cols y d :
  0 <= y → y * dest_stride + V <= Z.of_nat (length d) →
  ∃ d',
    row' (y, lrow y, y * source_stride_chroma, y * dest_stride, d)
    = Some (y + 1, lrow (y + 1), (y + 1) * source_stride_chroma,
            (y + 1) * dest_stride, d') ∧
    cols_done (y * dest_stride) (cval y) R d d'
              V (row_span cw).
Proof.
  intros Hy Hlen. unfold ChromaWithCfl_row.
  fold cw. fold (nrow y).
  erewrite for_loop_ext;
    [|intros x d1; rewrite GetAverageLuma_lanes; apply cfl_block_lanes].
  edestruct (grain_row_blocks cw V (y * dest_stride)
               (λ x i, cmain y x i) (cedge y) R d)
    as (x & d1 & E & -> & Hc); try done; try lia.
  - nia.
  - intros. apply blend_lane_stored.
  - intros. apply blend_lane_stored.
  - unfold cfl_main in E.
    replace (λ x d2, store d2 (y * dest_stride + x) _) with
      (λ x d2, store d2 (y * dest_stride + x)
         ((λ i, blend_lane bitdepth G P scaling_lut min_value max_chroma
                  scaling_shift
                  (rd in_chroma (y * source_stride_chroma + x + i))
                  (store_lane P (average_luma_lane P in_y
                                   (lrow y + x ≪ subsampling_x)
                                   subsampling_x i))
                  (rd (data noise_image) (nrow y + x + i)))
            <$> seqZ 0 8)) by reflexivity.
    rewrite E. eexists. split; [|exact Hc].
    rewrite GetAverageLuma_lanes, cfl_block_lanes.
    unfold luma_row. f_equal. rewrite !pair_equal_spec.
    repeat split; first [lia|reflexivity].
Qed.

Lemma BlendChromaPlaneWithCfl_rows :
  1 <= ch →
  (ch - 1) * dest_stride + V <= Z.of_nat (length dest0) →
  ∃ dest',
    BlendChromaPlaneWithCfl_SSE4_1 bitdepth G P noise_image
      min_value max_chroma width height start_height
      subsampling_x subsampling_y scaling_shift scaling_lut
      in_y source_stride_y in_chroma source_stride_chroma dest_stride dest0
    = Some dest' ∧
    rows_done dest_stride V (row_span cw) cval R
              dest0 dest' ch.
Proof.
  intros Hh Hlen. unfold BlendChromaPlaneWithCfl_SSE4_1. fold ch.
  destruct (do_while_inv
    (λ k s, ∃ d, s = (Z.of_nat k, lrow (Z.of_nat k),
                      Z.of_nat k * source_stride_chroma,
                      Z.of_nat k * dest_stride, d) ∧
                 rows_done dest_stride V (row_span cw)
                           cval R dest0 d (Z.of_nat k))
    (Z.to_nat ch) row'
    (λ s, bool_decide (s.1.1.1.1 < ch)))
    with (fuel := S (Z.to_nat ch)) (k := 0%nat)
         (s := (0, 0, 0, 0, dest0))
    as (s' & -> & d & -> & Hd).
  - intros k s Hk (d & -> & Hd). pose proof Hd as (Hl & _).
    destruct (ChromaWithCfl_row_cols (Z.of_nat k) d) as (d' & -> & Hc);
      [lia|rewrite Hl; nia|].
    eexists. split; [reflexivity|]. split.
    + exists d'. split; [repeat f_equal; lia|].
      replace (Z.of_nat (S k)) with (Z.of_nat k + 1) by lia.
      by apply rows_done_cols with (m := d); [lia|lia|lia|..].
    + cbn [fst]. rewrite bool_decide_eq_true. lia.
  - lia.
  - lia.
  - exists dest0. split; [done|]. apply rows_done_0.
  - simpl. replace (Z.of_nat (Z.to_nat ch)) with ch in Hd by lia.
    eauto.
Qed.
End ChromaWithCfl.

Section Chroma8bpp.
Variable (noise_image : Array2D).
Variables (min_value max_chroma width height start_height : Z).
Variables (subsampling_x subsampling_y scaling_shift : Z).
Variables (chroma_offset chroma_multiplier luma_multiplier : Z).
Variable (scaling_lut : list Z).
Variables (in_y : list Z) (source_stride_y : Z).
Variables (in_chroma : list Z) (source_stride_chroma : Z).
Variable (dest_stride : Z).
Variable (stack : Z → list Z).
Variable (dest0 : list Z).
Variable (V : Z).

Local Abbreviation cw := (chroma_width width subsampling_x).
Local Abbreviation ch := (chroma_height height subsampling_y).
Local Abbreviation lrow := (luma_row subsampling_y source_stride_y).
Local Abbreviation nrow := (noise_row noise_image start_height subsampling_y).
Local Abbreviation ex := (edge_x width subsampling_x).
Local Abbreviation luma_buffer :=
  (edge_luma_buffer width subsampling_x subsampling_y in_y source_stride_y).

Local Abbreviation nmain :=
  (nocfl_main noise_image min_value max_chroma start_height subsampling_x
     subsampling_y scaling_shift chroma_offset chroma_multiplier
     luma_multiplier scaling_lut in_y source_stride_y in_chroma
     source_stride_chroma).
Local Abbreviation nedge :=
  (nocfl_edge noise_image min_value max_chroma width start_height
     subsampling_x subsampling_y scaling_shift chroma_offset
     chroma_multiplier luma_multiplier scaling_lut in_y source_stride_y
     in_chroma source_stride_chroma stack).
Local Abbreviation nval :=
  (nocfl_val noise_image min_value max_chroma width start_height
     subsampling_x subsampling_y scaling_shift chroma_offset
     chroma_multiplier luma_multiplier scaling_lut in_y source_stride_y
     in_chroma source_stride_chroma stack).

Hypothesis Hwidth : 0 <= cw.
Hypothesis HV : cw <= V <= row_span cw.
Hypothesis Hstride : V <= dest_stride.

Local Abbreviation R := (stored uint8_t min_value max_chroma).
Local Abbreviation row' :=
  (Chroma8bpp_row noise_image min_value max_chroma width
     start_height subsampling_x subsampling_y scaling_shift
     chroma_offset chroma_multiplier luma_multiplier scaling_lut
     in_y source_stride_y in_chroma source_stride_chroma dest_stride stack).

Lemma Chroma8bpp_row_cols y d :
  0 <= y → y * dest_stride + V <= Z.of_nat (length d) →
  ∃ d',
    row' (y, lrow y, y * source_stride_chroma, y * dest_stride, d)
    = Some (y + 1, lrow (y + 1), (y + 1) * source_stride_chroma,
            (y + 1) * dest_stride, d') ∧
    cols_done (y * dest_stride) (nval y) R d d' V (row_span cw).
Proof.
  intros Hy Hlen. unfold Chroma8bpp_row.
  fold cw. fold (nrow y).
  erewrite for_loop_ext;
    [|intros x d1; rewrite GetAverageLuma_lanes; apply nocfl_block_lanes].
  edestruct (grain_row_blocks cw V (y * dest_stride)
               (λ x i, nmain y x i) (nedge y) R d)
    as (x & d1 & E & -> & Hc); try done; try lia.
  - nia.
  - intros. apply nocfl_lane_stored.
  - intros. apply nocfl_lane_stored.
  - unfold nocfl_main in E.
    replace (λ x d2, store d2 (y * dest_stride + x) _) with
      (λ x d2, store d2 (y * dest_stride + x)
         ((λ i, nocfl_lane scaling_lut min_value max_chroma scaling_shift
                  chroma_offset chroma_multiplier luma_multiplier
                  (average_luma_lane uint8_t in_y
                     (lrow y + x ≪ subsampling_x) subsampling_x i)
                  (rd in_chroma (y * source_stride_chroma + x + i))
                  (rd (data noise_image) (nrow y + x + i)))
            <$> seqZ 0 8)) by reflexivity.
    rewrite E. eexists. split; [|exact Hc].
    rewrite GetAverageLuma_lanes, nocfl_block_lanes.
    unfold luma_row. f_equal. rewrite !pair_equal_spec.
    repeat split; first [lia|reflexivity].
Qed.

Lemma BlendChromaPlane8bpp_rows :
  1 <= ch → (ch - 1) * dest_stride + V <= Z.of_nat (length dest0) →
  ∃ dest',
    BlendChromaPlane8bpp_SSE4_1 noise_image
      min_value max_chroma width height start_height
      subsampling_x subsampling_y scaling_shift
      chroma_offset chroma_multiplier luma_multiplier scaling_lut
      in_y source_stride_y in_chroma source_stride_chroma dest_stride
      stack dest0
    = Some dest' ∧
    rows_done dest_stride V (row_span cw) nval R dest0 dest' ch.
Proof.
  intros Hh Hlen. unfold BlendChromaPlane8bpp_SSE4_1. fold ch.
  destruct (do_while_inv
    (λ k s, ∃ d, s = (Z.of_nat k, lrow (Z.of_nat k),
                      Z.of_nat k * source_stride_chroma,
                      Z.of_nat k * dest_stride, d) ∧
                 rows_done dest_stride V (row_span cw)
                           nval R dest0 d (Z.of_nat k))
    (Z.to_nat ch) row' (λ s, bool_decide (s.1.1.1.1 < ch)))
    with (fuel := S (Z.to_nat ch)) (k := 0%nat) (s := (0, 0, 0, 0, dest0))
    as (s' & -> & d & -> & Hd).
  - intros k s Hk (d & -> & Hd). pose proof Hd as (Hl & _).
    destruct (Chroma8bpp_row_cols (Z.of_nat k) d) as (d' & -> & Hc);
      [lia|rewrite Hl; nia|].
    eexists. split; [reflexivity|]. split.
    + exists d'. split; [repeat f_equal; lia|].
      replace (Z.of_nat (S k)) with (Z.of_nat k + 1) by lia.
      by apply rows_done_cols with (m := d); [lia|lia|lia|..].
    + cbn [fst]. rewrite bool_decide_eq_true. lia.
  - lia.
  - lia.
  - exists dest0. split; [done|]. apply rows_done_0.
  - simpl. replace (Z.of_nat (Z.to_nat ch)) with ch in Hd by lia. eauto.
Qed.
End Chroma8bpp.

End GrainKernelFacts.

(** ** What the kernels leave at a valid column *)

Module GrainValueFacts.
Import SSE FilmGrain Lanes LaneFacts ScalarFacts GrainValues GrainKernelFacts.

Lemma block_index c : 8 * (c `div` 8) + c `mod` 8 = c.
Proof. pose proof (Z.div_mod c 8). lia. Qed.

Lemma edge_extent W : 0 <= W - 8 * (W `div` 8) < 8.
Proof. pose proof (Z.div_mod W 8). pose proof (Z.mod_pos_bound W 8). lia. Qed.

Lemma luma_val_valid bitdepth G P noise_image min_value max_luma scaling_shift
    width start_height lut src ss y c :
  0 <= c < width →
  luma_val bitdepth G P noise_image min_value max_luma scaling_shift width
           start_height lut src ss y c
  = blend_lane bitdepth G P lut min_value max_luma scaling_shift
      (rd src (y * ss + c)) (rd src (y * ss + c))
      (rd (data (noise_image kPlaneY))
          (row_of (noise_image kPlaneY) (y + start_height) + c)).
Proof.
  intros Hc. unfold luma_val, block_val.
  pose proof (block_index c). pose proof (edge_extent width).
  case_decide.
  - unfold luma_main, luma_noise_row. f_equal; f_equal; lia.
  - unfold luma_edge, luma_edge_buffer, luma_edge_x, luma_noise_row.
    rewrite scratch_valid by (simpl; lia).
    f_equal; f_equal; lia.
Qed.

Lemma length_chroma_scratch (l : list Z) :
  length (take 8 l ++ replicate (8 - length l) 0) = 8%nat.
Proof. rewrite length_app, length_take, length_replicate. lia. Qed.

Lemma cfl_val_valid bitdepth G P noise_image min_value max_chroma width
    start_height subsampling_x subsampling_y scaling_shift lut
    in_y ss_y in_chroma ss_c y c :
  0 <= c < chroma_width width subsampling_x →
  cfl_val bitdepth G P noise_image min_value max_chroma width start_height
          subsampling_x subsampling_y scaling_shift lut in_y ss_y in_chroma ss_c
          y c
  = blend_lane bitdepth G P lut min_value max_chroma scaling_shift
      (rd in_chroma (y * ss_c + c))
      (store_lane P (kernel_average_luma P width subsampling_x subsampling_y
                                         in_y ss_y y c))
      (rd (data noise_image)
          (noise_row noise_image start_height subsampling_y y + c)).
Proof.
  intros Hc. unfold cfl_val, kernel_average_luma, block_val.
  pose proof (block_index c).
  case_decide.
  - unfold cfl_main. f_equal; f_equal; lia.
  - unfold cfl_edge, edge_x. f_equal; f_equal; lia.
Qed.

Lemma nocfl_val_valid noise_image min_value max_chroma width start_height
    subsampling_x subsampling_y scaling_shift
    chroma_offset chroma_multiplier luma_multiplier lut
    in_y ss_y in_chroma ss_c stack y c :
  0 <= c < chroma_width width subsampling_x →
  nocfl_val noise_image min_value max_chroma width start_height
            subsampling_x subsampling_y scaling_shift
            chroma_offset chroma_multiplier luma_multiplier lut
            in_y ss_y in_chroma ss_c stack y c
  = nocfl_lane lut min_value max_chroma scaling_shift
      chroma_offset chroma_multiplier luma_multiplier
      (kernel_average_luma uint8_t width subsampling_x subsampling_y in_y ss_y y c)
      (rd in_chroma (y * ss_c + c))
      (rd (data noise_image)
          (noise_row noise_image start_height subsampling_y y + c)).
Proof.
  intros Hc. unfold nocfl_val, kernel_average_luma, block_val.
  pose proof (block_index c).
  pose proof (edge_extent (chroma_width width subsampling_x)).
  case_decide.
  - unfold nocfl_main. f_equal; f_equal; lia.
  - unfold nocfl_edge, edge_chroma_buffer, edge_x.
    rewrite scratch_valid by (rewrite ?length_chroma_scratch; lia).
    f_equal; f_equal; lia.
Qed.

Lemma typed_pixel_rd P l p : Forall (Spec.typed_pixel P) l → Spec.typed_pixel P (rd l p).
Proof.
  intros H. apply Forall_rd; [|done].
  destruct P; unfold Spec.typed_pixel, is_u8; lia.
Qed.

Lemma pixel_lane_typed P v : Spec.typed_pixel P v → pixel_lane P v = v.
Proof.
  destruct P; unfold Spec.typed_pixel, pixel_lane; intros ?.
  - by apply zext8_small.
  - apply wrap16_small. unfold is_s16. lia.
Qed.

Lemma average_lane_typed P a b :
  Spec.typed_pixel P a → Spec.typed_pixel P b →
  average_lane P a b = (a + b + 1) ≫ 1.
Proof.
  intros Ha Hb. apply average_lane_spec.
  destruct P; unfold Spec.typed_pixel in *; [left|right]; done.
Qed.

(** When the right edge has its own block (or no luma sample is missing),
    the average luma of the kernel is the average of section 4.5 over the
    valid columns of the luma row. *)
Lemma kernel_average_luma_spec P width subsampling_x subsampling_y in_y ss_y y c :
  subsampling_x = 0 ∨ subsampling_x = 1 →
  0 <= c < chroma_width width subsampling_x →
  Forall (Spec.typed_pixel P) in_y →
  subsampling_x = 0 ∨ width `mod` 2 = 0
    ∨ chroma_width width subsampling_x `mod` 8 ≠ 0 →
  kernel_average_luma P width subsampling_x subsampling_y in_y ss_y y c
  = Spec.average_luma
      (Spec.padded_luma in_y (luma_row subsampling_y ss_y y) width)
      subsampling_x c.
Proof.
  intros Hs Hc Ht Hodd.
  unfold kernel_average_luma, block_val, Spec.average_luma, Spec.padded_luma,
    average_luma_lane, edge_luma_buffer, edge_x.
  set (row := luma_row subsampling_y ss_y y).
  pose proof (block_index c) as Hbi.
  pose proof (Z.mod_pos_bound c 8 ltac:(lia)) as Hcm.
  destruct Hs as [-> | ->].
  - (* 4:4:4 *)
    unfold chroma_width in *. rewrite Z.add_0_r, Z.shiftr_0_r in *.
    pose proof (edge_extent width).
    rewrite !(decide_False (P := 0 ≠ 0)) by (intros ?; done).
    rewrite Z.min_l by lia. case_decide.
    + rewrite Z.shiftl_0_r. rewrite pixel_lane_typed by (by apply typed_pixel_rd).
      f_equal. lia.
    + rewrite !Z.shiftl_0_r. rewrite scratch_valid by (simpl; lia).
      rewrite pixel_lane_typed by (by apply typed_pixel_rd).
      f_equal. lia.
  - (* horizontally subsampled *)
    unfold chroma_width in *.
    rewrite Z.shiftr_div_pow2 in * by lia. change (2 ^ 1) with 2 in *.
    set (cw := (width + 1) `div` 2) in *.
    pose proof (Z.div_mod (width + 1) 2 ltac:(lia)) as Hw.
    pose proof (Z.mod_pos_bound (width + 1) 2 ltac:(lia)) as Hwm.
    fold cw in Hw.
    pose proof (edge_extent cw) as Hee.
    pose proof (Z.div_mod cw 8 ltac:(lia)) as Hcw.
    pose proof (Z.mod_pos_bound cw 8 ltac:(lia)) as Hcwm.
    assert (width `mod` 2 = 0 → width = 2 * cw) as Heven.
    { intros H0. pose proof (Z.div_mod width 2 ltac:(lia)).
      unfold cw. replace (width + 1) with (1 + width `div` 2 * 2) by lia.
      rewrite Z.div_add, Z.div_small by lia. lia. }
    rewrite !(decide_True (P := 1 ≠ 0)) by done.
    rewrite !Z.shiftl_mul_pow2 by lia. change (2 ^ 1) with 2.
    case_decide as Hmain.
    + rewrite average_lane_typed by (by apply typed_pixel_rd).
      assert (2 * c + 1 <= width - 1).
      { destruct Hodd as [?|[?|?]]; [lia|specialize (Heven ltac:(done)); lia|lia]. }
      rewrite !Z.min_l by lia.
      do 2 f_equal. f_equal; f_equal; lia.
    + set (vr := width - 8 * (cw `div` 8) * 2).
      assert (0 <= 2 * (c - 8 * (cw `div` 8)) < vr) by (unfold vr; lia).
      assert (vr <= 14) by (unfold vr; lia).
      rewrite (average_lane_typed P).
      2:{ rewrite scratch_valid by (simpl; lia). by apply typed_pixel_rd. }
      2:{ destruct (decide (2 * (c - 8 * (cw `div` 8)) + 1 < vr)).
          - rewrite scratch_valid by (simpl; lia). by apply typed_pixel_rd.
          - replace (0 + (2 * (c - 8 * (cw `div` 8)) + 1)) with vr by lia.
            rewrite scratch_last by (simpl; lia). by apply typed_pixel_rd. }
      rewrite scratch_valid by (simpl; lia).
      rewrite Z.min_l by (unfold vr in *; lia).
      destruct (decide (2 * (c - 8 * (cw `div` 8)) + 1 < vr)).
      * rewrite scratch_valid by (simpl; lia).
        rewrite Z.min_l by (unfold vr in *; lia).
        do 2 f_equal. f_equal; f_equal; lia.
      * replace (0 + (2 * (c - 8 * (cw `div` 8)) + 1)) with vr by lia.
        rewrite scratch_last by (simpl; lia).
        rewrite Z.min_r by (unfold vr in *; lia).
        do 2 f_equal. f_equal; f_equal; unfold vr; lia.
Qed.

End GrainValueFacts.

(** ** The per-sample loops of the spec *)

Module ScalarRowFacts.
Import Spec.

Lemma scalar_row_done width ds (rowval : Z → Z) y d :
  0 <= width → 0 <= y → 0 <= ds →
  y * ds + width <= Z.of_nat (length d) →
  cols_done (y * ds) rowval (λ _, True) d
    (for_loop (Z.to_nat width) 0 width 1
       (λ x d', store d' (y * ds + x) [rowval x]) d).2
    width width.
Proof.
  intros Hw Hy Hds Hlen.
  destruct (for_loop_inv
    (λ x d', 0 <= x <= width ∧ cols_done (y * ds) rowval (λ _, True) d d' x x)
    width 1 (λ x d', store d' (y * ds + x) [rowval x]))
    with (fuel := Z.to_nat width) (i := 0) (s := d)
    as (x & d' & -> & Hx & Hx' & Hd).
  - lia.
  - intros x d' Hlt (Hx & Hd). split; [lia|].
    change [rowval x] with ((λ _, rowval x) <$> seqZ 0 1).
    apply (cols_done_store (y * ds) rowval (λ _, True) d d' x 1 1);
      [nia|lia|lia|lia|intros i Hi; f_equal; lia|done|done].
  - lia.
  - split; [lia|]. apply cols_done_0.
  - simpl. by assert (x = width) as -> by lia.
Qed.

Lemma scalar_rows_done width height ds sample dest :
  0 <= width <= ds → 0 <= height →
  (height - 1) * ds + width <= Z.of_nat (length dest) →
  rows_done ds width width sample (λ _, True) dest
            (scalar_rows width height ds sample dest) height.
Proof.
  intros Hw Hh Hlen. unfold scalar_rows.
  destruct (for_loop_inv
    (λ y d, 0 <= y <= height ∧
            rows_done ds width width sample (λ _, True) dest d y)
    height 1
    (λ y d, (for_loop (Z.to_nat width) 0 width 1
               (λ x d', store d' (y * ds + x) [sample y x]) d).2))
    with (fuel := Z.to_nat height) (i := 0) (s := dest)
    as (y & d & -> & Hy & Hy' & Hd).
  - lia.
  - intros y d Hlt (Hy & Hd). split; [lia|]. pose proof Hd as (Hl & _).
    apply rows_done_cols with (m := d); [lia|lia|lia|done|].
    apply scalar_row_done; [lia|lia|lia|]. rewrite Hl. nia.
  - lia.
  - split; [lia|]. apply rows_done_0.
  - simpl. by assert (y = height) as -> by lia.
Qed.

End ScalarRowFacts.
(** ** The samples the film-grain kernels store *)

Module KernelFacts.
Import SSE FilmGrain Lanes LaneFacts ScalarFacts.
Import GrainValues GrainKernelFacts GrainValueFacts.

(** For a stride of the type, the step of the row pointer is the floor of
    the stride over the pixel size: the truncated quotient when the stride
    is not negative or is a multiple of the pixel size, one pixel further
    back for a negative stride that is not. *)
Lemma stride_in_pixels_floor P stride :
  - 2 ^ 63 <= stride < 2 ^ 63 →
  stride_in_pixels P stride = stride `div` sizeof P.
Proof.
  intros Hs. unfold stride_in_pixels, to_size_t, to_ptrdiff_t.
  destruct P; cbn [sizeof].
  - rewrite !Z.div_1_r, !Z.mul_1_r.
    destruct (decide (0 <= stride)).
    + rewrite (Z.mod_small stride) by lia.
      rewrite (Z.mod_small (stride + 2 ^ 63)) by lia.
      replace (stride + 2 ^ 63 - 2 ^ 63) with stride by lia.
      rewrite (Z.mod_small (stride + 2 ^ 63)) by lia. lia.
    + replace (stride `mod` 2 ^ 64) with (stride + 2 ^ 64)
        by (apply (Zmod_unique _ _ (-1)); lia).
      replace ((stride + 2 ^ 64 + 2 ^ 63) `mod` 2 ^ 64) with (stride + 2 ^ 63)
        by (apply (Zmod_unique _ _ 1); lia).
      replace (stride + 2 ^ 63 - 2 ^ 63) with stride by lia.
      rewrite (Z.mod_small (stride + 2 ^ 63)) by lia. lia.
  - pose proof (Z.div_mod stride 2 ltac:(lia)) as Hd.
    pose proof (Z.mod_pos_bound stride 2 ltac:(lia)) as Hm.
    set (q := stride `div` 2) in *.
    destruct (decide (0 <= stride)).
    + rewrite (Z.mod_small stride) by lia. fold q.
      rewrite (Z.mod_small (q + 2 ^ 63)) by lia.
      replace (q + 2 ^ 63 - 2 ^ 63) with q by lia.
      rewrite (Z.mod_small (q * 2 + 2 ^ 63)) by lia.
      replace (q * 2 + 2 ^ 63 - 2 ^ 63) with (q * 2) by lia.
      by rewrite Z.div_mul.
    + replace (stride `mod` 2 ^ 64) with (stride + 2 ^ 64)
        by (apply (Zmod_unique _ _ (-1)); lia).
      replace ((stride + 2 ^ 64) `div` 2) with (q + 2 ^ 63)
        by (apply (Zdiv_unique _ _ _ (stride `mod` 2)); lia).
      rewrite (Z.mod_small (q + 2 ^ 63 + 2 ^ 63)) by lia.
      replace (((q + 2 ^ 63 + 2 ^ 63 - 2 ^ 63) * 2 + 2 ^ 63) `mod` 2 ^ 64)
        with (q * 2 + 2 ^ 63)
        by (apply (Zmod_unique _ _ 1); lia).
      replace (q * 2 + 2 ^ 63 - 2 ^ 63) with (q * 2) by lia.
      by rewrite Z.div_mul.
Qed.

Lemma stride_in_pixels_quot P stride :
  - 2 ^ 63 <= stride < 2 ^ 63 →
  0 <= stride ∨ stride `mod` sizeof P = 0 →
  stride_in_pixels P stride = stride `quot` sizeof P.
Proof.
  intros Hs Hc. rewrite stride_in_pixels_floor by done.
  assert (0 < sizeof P) by (destruct P; cbn; lia).
  destruct Hc as [Hc|Hc].
  - by rewrite Z.quot_div_nonneg by lia.
  - apply Z.div_exact in Hc; [|lia].
    rewrite Hc at 2. rewrite Z.mul_comm, Z.quot_mul by lia. done.
Qed.

(** A negative stride that is not a multiple of the pixel size. *)
Example stride_in_pixels_negative_odd :
  stride_in_pixels uint16_t (-9) = -5 ∧ stride_in_pixels uint16_t (-8) = -4 ∧
  stride_in_pixels uint8_t (-9) = -9 ∧ stride_in_pixels uint16_t 9 = 4.
Proof. by vm_compute. Qed.

Lemma valid_pixel_rd bitdepth l p :
  0 <= bitdepth → Forall (Spec.valid_pixel bitdepth) l →
  Spec.valid_pixel bitdepth (rd l p).
Proof.
  intros ? H. apply Forall_rd; [|done]. unfold Spec.valid_pixel.
  pose proof (Z.pow_pos_nonneg 2 bitdepth). lia.
Qed.

Lemma valid_grain_rd bitdepth l p :
  1 <= bitdepth → Forall (Spec.valid_grain bitdepth) l →
  Spec.valid_grain bitdepth (rd l p).
Proof.
  intros ? H. apply Forall_rd; [|done]. unfold Spec.valid_grain.
  pose proof (Z.pow_pos_nonneg 2 (bitdepth - 1)). lia.
Qed.

Lemma instantiated_bitdepth bitdepth G P :
  Spec.instantiated bitdepth G P → bitdepth = 8 ∨ bitdepth = 10.
Proof. intros [(-> & _)|(-> & _)]; auto. Qed.

Lemma instantiated_pixel bitdepth G P :
  Spec.instantiated bitdepth G P →
  (P = uint8_t ∧ bitdepth = 8) ∨ (P = uint16_t ∧ 8 <= bitdepth <= 15).
Proof.
  intros [(-> & _ & ->)|(-> & _ & ->)]; [left|right]; split; done || lia.
Qed.

Lemma valid_pixel_typed bitdepth G P v :
  Spec.instantiated bitdepth G P →
  Spec.valid_pixel bitdepth v → Spec.typed_pixel P v.
Proof.
  intros [(-> & _ & ->)|(-> & _ & ->)]; unfold Spec.valid_pixel;
    simpl; unfold is_u8; lia.
Qed.

Lemma kernel_average_luma_u8 width subsampling_x subsampling_y in_y ss_y y c :
  is_u8 (kernel_average_luma uint8_t width subsampling_x subsampling_y
                             in_y ss_y y c).
Proof.
  unfold kernel_average_luma, block_val.
  case_decide; apply average_luma_lane_u8.
Qed.

Lemma luma_val_stored bitdepth G P noise_image min_value max_luma scaling_shift
    width start_height lut src ss y c :
  stored P min_value max_luma
    (luma_val bitdepth G P noise_image min_value max_luma scaling_shift width
              start_height lut src ss y c).
Proof.
  unfold luma_val, block_val. case_decide; apply blend_lane_stored.
Qed.

Lemma cfl_val_stored bitdepth G P noise_image min_value max_chroma width
    start_height subsampling_x subsampling_y scaling_shift lut
    in_y ss_y in_chroma ss_c y c :
  stored P min_value max_chroma
    (cfl_val bitdepth G P noise_image min_value max_chroma width start_height
             subsampling_x subsampling_y scaling_shift lut in_y ss_y
             in_chroma ss_c y c).
Proof.
  unfold cfl_val, block_val. case_decide; apply blend_lane_stored.
Qed.

Lemma nocfl_val_stored noise_image min_value max_chroma width start_height
    subsampling_x subsampling_y scaling_shift
    chroma_offset chroma_multiplier luma_multiplier lut
    in_y ss_y in_chroma ss_c stack y c :
  stored uint8_t min_value max_chroma
    (nocfl_val noise_image min_value max_chroma width start_height
               subsampling_x subsampling_y scaling_shift
               chroma_offset chroma_multiplier luma_multiplier lut
               in_y ss_y in_chroma ss_c stack y c).
Proof.
  unfold nocfl_val, block_val. case_decide; apply nocfl_lane_stored.
Qed.

Lemma stored_in_range P bitdepth min_value max_value v :
  (P = uint8_t ∧ bitdepth = 8) ∨ (P = uint16_t ∧ 8 <= bitdepth <= 15) →
  0 <= min_value <= max_value → max_value < 2 ^ bitdepth →
  stored P min_value max_value v →
  min_value <= v <= max_value ∧ 0 <= v <= 2 ^ bitdepth - 1.
Proof.
  intros HP Hmm Hmax (u & ->).
  pose proof (stored_lane_range P bitdepth min_value max_value u HP Hmm Hmax).
  lia.
Qed.

(** What a caller can rely on once the rows are done: the block holds
    samples of [I], and so does every cell the call changed. *)
Lemma rows_done_in_range ds W Wspan val (R I : Z → Prop) m0 m h :
  rows_done ds W Wspan val R m0 m h →
  (∀ v, R v → I v) → (∀ r c, R (val r c)) →
  length m = length m0 ∧
  (∀ x y, 0 <= x < W → 0 <= y < h → I (rd m (y * ds + x))) ∧
  (∀ q, rd m q = rd m0 q ∨ I (rd m q)).
Proof.
  intros (Hl & Hval & _ & HR) HRI HvalR. split; [done|]. split.
  - intros x y Hx Hy. rewrite Hval by done. apply HRI, HvalR.
  - intros q. destruct (HR q); auto.
Qed.

(** The luma kernel, sample by sample. *)
Lemma Luma_samples
    bitdepth G P noise_image min_value max_luma scaling_shift
    width height start_height scaling_lut_y
    source_plane_y source_stride_y dest_plane_y dest_stride_y :
  Spec.instantiated bitdepth G P →
  Forall is_u8 scaling_lut_y →
  Forall (Spec.valid_pixel bitdepth) source_plane_y →
  Forall (Spec.valid_grain bitdepth) (data (noise_image kPlaneY)) →
  8 <= scaling_shift <= 11 →
  0 <= min_value <= max_luma → max_luma < 2 ^ bitdepth →
  0 <= width <= stride_in_pixels P dest_stride_y → 1 <= height →
  (height - 1) * (stride_in_pixels P dest_stride_y) + width
    <= Z.of_nat (length dest_plane_y) →
  ∃ dest',
    BlendNoiseWithImageLuma_SSE4_1 bitdepth G P noise_image
      min_value max_luma scaling_shift width height start_height scaling_lut_y
      source_plane_y source_stride_y dest_plane_y dest_stride_y = Some dest' ∧
    ∀ x y, 0 <= x < width → 0 <= y < height →
      rd dest' (y * (stride_in_pixels P dest_stride_y) + x)
      = Spec.grain_sample bitdepth scaling_lut_y scaling_shift
          min_value max_luma
          (rd source_plane_y (y * (stride_in_pixels P source_stride_y) + x))
          (rd source_plane_y (y * (stride_in_pixels P source_stride_y) + x))
          (rd (data (noise_image kPlaneY))
              (row_of (noise_image kPlaneY) (y + start_height) + x)).
Proof.
  intros Hi Hlut Hsrc Hnoise Hsh Hmm Hmax Hw Hh Hlen.
  unfold BlendNoiseWithImageLuma_SSE4_1.
  destruct (BlendNoiseWithImageLuma_rows bitdepth G P noise_image min_value
              max_luma scaling_shift width height start_height scaling_lut_y
              source_plane_y (stride_in_pixels P source_stride_y)
              (stride_in_pixels P dest_stride_y) dest_plane_y width)
    as (dest' & -> & Hrows); try done; try lia.
  { pose proof (row_span_ge width). lia. }
  destruct Hrows as (_ & Hval & _).
  exists dest'. split; [done|]. intros x y Hx Hy.
  rewrite Hval by lia. rewrite luma_val_valid by done.
  destruct (instantiated_bitdepth _ _ _ Hi) as [Hb|Hb];
    apply blend_lane_grain_sample; try done;
    [apply valid_pixel_rd|apply valid_grain_rd
    |apply valid_pixel_rd|apply valid_grain_rd]; try done; lia.
Qed.

(** The plane selects the triple and nothing else. *)
Lemma Chroma8bpp_plane plane params noise_image min_value max_chroma
    width height start_height subsampling_x subsampling_y scaling_lut
    source_plane_y source_stride_y source_plane_uv source_stride_uv
    dest_plane_uv dest_stride_uv stack :
  BlendNoiseWithImageChroma8bpp_SSE4_1 plane params noise_image
    min_value max_chroma width height start_height subsampling_x subsampling_y
    scaling_lut source_plane_y source_stride_y source_plane_uv source_stride_uv
    dest_plane_uv dest_stride_uv stack
  = BlendChromaPlane8bpp_SSE4_1 (noise_image plane)
      min_value max_chroma width height start_height
      subsampling_x subsampling_y (chroma_scaling params)
      (Spec.chroma_triple plane params).1.1
      (Spec.chroma_triple plane params).2
      (Spec.chroma_triple plane params).1.2
      scaling_lut source_plane_y source_stride_y
      source_plane_uv source_stride_uv dest_stride_uv stack dest_plane_uv.
Proof. by destruct plane. Qed.

(** The multiplier-mode chroma kernel, sample by sample. *)
Lemma Chroma8bpp_samples noise_image min_value max_chroma width height
    start_height subsampling_x subsampling_y scaling_shift
    chroma_offset chroma_multiplier luma_multiplier scaling_lut
    in_y source_stride_y in_chroma source_stride_chroma dest_stride stack dest :
  is_s8 luma_multiplier → is_s8 chroma_multiplier →
  -256 <= chroma_offset <= 255 →
  Forall is_u8 scaling_lut → Forall is_u8 in_chroma →
  Forall is_s8 (data noise_image) →
  8 <= scaling_shift <= 11 →
  0 <= min_value <= max_chroma → max_chroma <= 255 →
  0 <= chroma_width width subsampling_x <= dest_stride →
  1 <= chroma_height height subsampling_y →
  (chroma_height height subsampling_y - 1) * dest_stride
    + chroma_width width subsampling_x <= Z.of_nat (length dest) →
  ∃ dest',
    BlendChromaPlane8bpp_SSE4_1 noise_image min_value max_chroma width height
      start_height subsampling_x subsampling_y scaling_shift
      chroma_offset chroma_multiplier luma_multiplier scaling_lut
      in_y source_stride_y in_chroma source_stride_chroma dest_stride stack dest
    = Some dest' ∧
    ∀ x y, 0 <= x < chroma_width width subsampling_x →
           0 <= y < chroma_height height subsampling_y →
      rd dest' (y * dest_stride + x)
      = Spec.grain_sample 8 scaling_lut scaling_shift min_value max_chroma
          (rd in_chroma (y * source_stride_chroma + x))
          (Spec.merged
             (kernel_average_luma uint8_t width subsampling_x subsampling_y
                                  in_y source_stride_y y x)
             (rd in_chroma (y * source_stride_chroma + x))
             luma_multiplier chroma_multiplier chroma_offset)
          (rd (data noise_image)
              (noise_row noise_image start_height subsampling_y y + x)).
Proof.
  intros Hlm Hm Hoff Hlut Huv Hnoise Hsh Hmm Hmax Hw Hh Hlen.
  destruct (BlendChromaPlane8bpp_rows noise_image min_value max_chroma
              width height start_height subsampling_x subsampling_y
              scaling_shift chroma_offset chroma_multiplier luma_multiplier
              scaling_lut in_y source_stride_y in_chroma
              source_stride_chroma dest_stride stack dest
              (chroma_width width subsampling_x))
    as (dest' & -> & Hrows); try done; try lia.
  { pose proof (row_span_ge (chroma_width width subsampling_x)). lia. }
  destruct Hrows as (_ & Hval & _).
  exists dest'. split; [done|]. intros x y Hx Hy.
  rewrite Hval by lia. rewrite nocfl_val_valid by done.
  apply nocfl_lane_grain_sample; try done.
  - apply kernel_average_luma_u8.
  - apply Forall_rd; [|done]. unfold is_u8. lia.
  - apply Forall_rd; [|done]. unfold is_s8. lia.
Qed.

(** The average of section 4.5 of valid pixels is a valid pixel. *)
Lemma average_luma_valid bitdepth (luma : Z → Z) subsampling_x x :
  0 <= bitdepth → (∀ k, Spec.valid_pixel bitdepth (luma k)) →
  Spec.valid_pixel bitdepth (Spec.average_luma luma subsampling_x x).
Proof.
  intros Hb Hl. unfold Spec.average_luma. case_decide; [|done].
  pose proof (Hl (2 * x)) as Ha. pose proof (Hl (2 * x + 1)) as Hc.
  unfold Spec.valid_pixel in *. rewrite Z.shiftr_div_pow2 by lia.
  change (2 ^ 1) with 2. split.
  - apply Z.div_pos; lia.
  - apply Z.div_lt_upper_bound; lia.
Qed.

Lemma store_lane_valid bitdepth G P v :
  Spec.instantiated bitdepth G P → Spec.valid_pixel bitdepth v →
  store_lane P v = v.
Proof.
  intros [(-> & _ & ->)|(-> & _ & ->)]; unfold Spec.valid_pixel; intros Hv;
    simpl.
  - apply sat_u8_small. unfold is_u8. lia.
  - apply zext16_small. unfold is_u16. lia.
Qed.

(** The chroma-from-luma kernel, sample by sample: the LUT is indexed by the
    average luma over the valid columns of the luma row. *)
Lemma ChromaWithCfl_samples bitdepth G P noise_image min_value max_chroma
    width height start_height subsampling_x subsampling_y scaling_shift
    scaling_lut in_y source_stride_y in_chroma source_stride_chroma
    dest_stride dest :
  Spec.instantiated bitdepth G P →
  subsampling_x = 0 ∨ subsampling_x = 1 →
  subsampling_x = 0 ∨ width `mod` 2 = 0
    ∨ chroma_width width subsampling_x `mod` 8 ≠ 0 →
  Forall is_u8 scaling_lut →
  Forall (Spec.valid_pixel bitdepth) in_y →
  Forall (Spec.valid_pixel bitdepth) in_chroma →
  Forall (Spec.valid_grain bitdepth) (data noise_image) →
  8 <= scaling_shift <= 11 →
  0 <= min_value <= max_chroma → max_chroma < 2 ^ bitdepth →
  0 <= chroma_width width subsampling_x <= dest_stride →
  1 <= chroma_height height subsampling_y →
  (chroma_height height subsampling_y - 1) * dest_stride
    + chroma_width width subsampling_x <= Z.of_nat (length dest) →
  ∃ dest',
    BlendChromaPlaneWithCfl_SSE4_1 bitdepth G P noise_image min_value
      max_chroma width height start_height subsampling_x subsampling_y
      scaling_shift scaling_lut in_y source_stride_y in_chroma
      source_stride_chroma dest_stride dest = Some dest' ∧
    ∀ x y, 0 <= x < chroma_width width subsampling_x →
           0 <= y < chroma_height height subsampling_y →
      rd dest' (y * dest_stride + x)
      = Spec.grain_sample bitdepth scaling_lut scaling_shift
          min_value max_chroma
          (rd in_chroma (y * source_stride_chroma + x))
          (Spec.average_luma
             (Spec.padded_luma in_y (luma_row subsampling_y source_stride_y y)
                               width)
             subsampling_x x)
          (rd (data noise_image)
              (noise_row noise_image start_height subsampling_y y + x)).
Proof.
  intros Hi Hs Hodd Hlut Hy Huv Hnoise Hsh Hmm Hmax Hw Hh Hlen.
  destruct (BlendChromaPlaneWithCfl_rows bitdepth G P noise_image min_value
              max_chroma width height start_height subsampling_x subsampling_y
              scaling_shift scaling_lut in_y source_stride_y in_chroma
              source_stride_chroma dest_stride dest
              (chroma_width width subsampling_x))
    as (dest' & -> & Hrows); try done; try lia.
  { pose proof (row_span_ge (chroma_width width subsampling_x)). lia. }
  destruct Hrows as (_ & Hval & _).
  exists dest'. split; [done|]. intros x y Hx Hy'.
  assert (0 <= bitdepth ∧ 1 <= bitdepth) as [Hb0 Hb1]
    by (destruct (instantiated_bitdepth _ _ _ Hi); lia).
  rewrite Hval by lia. rewrite cfl_val_valid by done.
  rewrite kernel_average_luma_spec; try done.
  - rewrite (store_lane_valid bitdepth G P); [|done|].
    + apply blend_lane_grain_sample; try done;
        [by apply valid_pixel_rd|by apply valid_grain_rd].
    + apply average_luma_valid; [done|]. intros k.
      by apply valid_pixel_rd.
  - eapply Forall_impl; [exact Hy|]. intros v. by eapply valid_pixel_typed.
Qed.

End KernelFacts.


(** * The claims *)

Module Claims.
Import NEON DistanceWeightedBlend BlendValues BlendFacts BlendKernelFacts.
Import SSE FilmGrain Lanes LaneFacts ScalarFacts.
Import GrainValues GrainKernelFacts GrainValueFacts.
Import ScalarRowFacts KernelFacts Calls Inputs.

(** After saturation to a pixel, the rounding shift (ties towards plus
    infinity) and rounding with ties away from zero agree: they differ only
    on negative sums, which saturate to 0 either way. *)
Lemma sat_u8_round_half_away s bits :
  0 < bits →
  sat_u8 (RightShiftWithRounding s bits) = sat_u8 (round_half_away s bits).
Proof.
  intros Hb. rewrite RightShiftWithRounding_div by done.
  unfold round_half_away. rewrite Z.shiftr_div_pow2 by lia.
  assert (0 < 2 ^ (bits - 1)) by (apply Z.pow_pos_nonneg; lia).
  assert (2 ^ bits = 2 * 2 ^ (bits - 1)) as Hp.
  { replace bits with (bits - 1 + 1) at 1 by lia.
    rewrite Z.pow_add_r by lia. lia. }
  destruct (Z.lt_trichotomy s 0) as [Hs|[->|Hs]].
  - rewrite Z.sgn_neg, Z.abs_neq by lia.
    assert ((s + 2 ^ (bits - 1)) `div` 2 ^ bits <= 0).
    { apply Z.lt_succ_r. apply Z.div_lt_upper_bound; lia. }
    assert (0 <= (- s + 2 ^ (bits - 1)) `div` 2 ^ bits).
    { apply Z.div_pos; lia. }
    unfold sat_u8. lia.
  - rewrite Z.sgn_0. simpl. rewrite Z.div_small by lia. done.
  - rewrite Z.sgn_pos, Z.abs_eq by lia. by rewrite Z.mul_1_l.
Qed.

(** C1. For every sample of a supported block and every weight pair summing
    to 16, the distance-weighted blend stores
    [pred0*weight0 + pred1*weight1], rounding-right-shifted by
    [kInterPostRoundBit + 4 = 8] and saturated to [0, 255]; the rounding is
    to nearest, ties away from zero. *)
Theorem C1_blend_rounding_shift
    pred_0 s0 pred_1 s1 w0 w1 width height dest0 ds :
  supported width height →
  Forall is_s16 pred_0 → Forall is_s16 pred_1 →
  is_u8 w0 → is_u8 w1 → w0 + w1 = 16 →
  width <= ds → (height - 1) * ds + width <= Z.of_nat (length dest0) →
  kInterPostRoundBit + 4 = 8 ∧
  ∃ dest',
    DistanceWeightedBlend_NEON pred_0 s0 pred_1 s1 w0 w1 width height dest0 ds
      = Some dest' ∧
    ∀ x y, 0 <= x < width → 0 <= y < height →
      let sum := rd pred_0 (y * s0 + x) * w0 + rd pred_1 (y * s1 + x) * w1 in
      rd dest' (y * ds + x) = sat_u8 (RightShiftWithRounding sum 8) ∧
      rd dest' (y * ds + x) = sat_u8 (round_half_away sum 8).
Proof.
  intros Hs Hp0 Hp1 Hw0 Hw1 _ Hds Hlen. split; [done|].
  destruct (DistanceWeightedBlend_NEON_rows pred_0 s0 pred_1 s1 w0 w1
              width height dest0 ds) as (dest' & -> & _ & Hval & _); try done.
  exists dest'. split; [done|]. intros x y Hx Hy sum.
  rewrite Hval by done. unfold blend_val, blend_sample. fold sum.
  split; [done|]. by apply sat_u8_round_half_away.
Qed.

Lemma C1_blend_rounding_shift_witness :
  kInterPostRoundBit + 4 = 8 ∧
  ∃ dest',
    DistanceWeightedBlend_NEON (replicate 16 100) 4 (replicate 16 200) 4
                               9 7 4 4 (replicate 16 0) 4 = Some dest' ∧
    ∀ x y, 0 <= x < 4 → 0 <= y < 4 →
      let sum := rd (replicate 16 100) (y * 4 + x) * 9
                 + rd (replicate 16 200) (y * 4 + x) * 7 in
      rd dest' (y * 4 + x) = sat_u8 (RightShiftWithRounding sum 8) ∧
      rd dest' (y * 4 + x) = sat_u8 (round_half_away sum 8).
Proof.
  apply (C1_blend_rounding_shift (replicate 16 100) 4 (replicate 16 200) 4
           9 7 4 4 (replicate 16 0) 4).
  - left. split; [reflexivity|]. left. reflexivity.
  - apply Forall_replicate. unfold is_s16. lia.
  - apply Forall_replicate. unfold is_s16. lia.
  - unfold is_u8. lia.
  - unfold is_u8. lia.
  - reflexivity.
  - lia.
  - simpl. lia.
Defined.

(** The rounding is not a truncation: a sum of exactly half a unit rounds
    up to 1. *)
Example blend_sample_half : blend_sample 8 8 8 8 = 1.
Proof. reflexivity. Qed.

(** The saturation is visible at both ends. *)
Example blend_sample_saturates :
  blend_sample 32767 32767 8 8 = 255 ∧ blend_sample (-32768) (-32768) 8 8 = 0.
Proof. split; reflexivity. Qed.

Lemma blend_sample_16_0 a b :
  blend_sample a b 16 0 = sat_u8 (RightShiftWithRounding a kInterPostRoundBit).
Proof.
  unfold blend_sample. rewrite !RightShiftWithRounding_div by done.
  f_equal. change (kInterPostRoundBit + 4) with 8.
  change kInterPostRoundBit with 4.
  change (2 ^ (8 - 1)) with (8 * 16). change (2 ^ 8) with (16 * 16).
  change (2 ^ (4 - 1)) with 8. change (2 ^ 4) with 16.
  replace (a * 16 + b * 0 + 8 * 16) with ((a + 8) * 16) by lia.
  by rewrite Z.div_mul_cancel_r by lia.
Qed.

Lemma blend_sample_0_16 a b :
  blend_sample a b 0 16 = sat_u8 (RightShiftWithRounding b kInterPostRoundBit).
Proof.
  rewrite <-(blend_sample_16_0 b a). unfold blend_sample. do 2 f_equal. lia.
Qed.

(** C7. With the weight pair (16, 0) every sample of the blend is
    predictor 0 rounding-right-shifted by [kInterPostRoundBit] and
    saturated, whatever predictor 1 holds; with (0, 16) it is predictor 1
    narrowed the same way. *)
Theorem C7_blend_degenerate_weights
    pred_0 s0 pred_1 s1 width height dest0 ds :
  supported width height →
  Forall is_s16 pred_0 → Forall is_s16 pred_1 →
  width <= ds → (height - 1) * ds + width <= Z.of_nat (length dest0) →
  (∃ dest',
     DistanceWeightedBlend_NEON pred_0 s0 pred_1 s1 16 0 width height dest0 ds
       = Some dest' ∧
     ∀ x y, 0 <= x < width → 0 <= y < height →
       rd dest' (y * ds + x)
       = sat_u8 (RightShiftWithRounding (rd pred_0 (y * s0 + x))
                                        kInterPostRoundBit)) ∧
  (∃ dest',
     DistanceWeightedBlend_NEON pred_0 s0 pred_1 s1 0 16 width height dest0 ds
       = Some dest' ∧
     ∀ x y, 0 <= x < width → 0 <= y < height →
       rd dest' (y * ds + x)
       = sat_u8 (RightShiftWithRounding (rd pred_1 (y * s1 + x))
                                        kInterPostRoundBit)).
Proof.
  intros Hs Hp0 Hp1 Hds Hlen. split.
  - destruct (DistanceWeightedBlend_NEON_rows pred_0 s0 pred_1 s1 16 0
                width height dest0 ds) as (dest' & -> & _ & Hval & _);
      try done; try (unfold is_u8; lia).
    exists dest'. split; [done|]. intros x y Hx Hy.
    rewrite Hval by done. apply blend_sample_16_0.
  - destruct (DistanceWeightedBlend_NEON_rows pred_0 s0 pred_1 s1 0 16
                width height dest0 ds) as (dest' & -> & _ & Hval & _);
      try done; try (unfold is_u8; lia).
    exists dest'. split; [done|]. intros x y Hx Hy.
    rewrite Hval by done. apply blend_sample_0_16.
Qed.

Lemma C7_blend_degenerate_weights_witness :
  (∃ dest',
     DistanceWeightedBlend_NEON (seqZ 0 64) 8 (seqZ 100 64) 8 16 0 8 8
                                (replicate 64 0) 8 = Some dest' ∧
     ∀ x y, 0 <= x < 8 → 0 <= y < 8 →
       rd dest' (y * 8 + x)
       = sat_u8 (RightShiftWithRounding (rd (seqZ 0 64) (y * 8 + x))
                                        kInterPostRoundBit)) ∧
  (∃ dest',
     DistanceWeightedBlend_NEON (seqZ 0 64) 8 (seqZ 100 64) 8 0 16 8 8
                                (replicate 64 0) 8 = Some dest' ∧
     ∀ x y, 0 <= x < 8 → 0 <= y < 8 →
       rd dest' (y * 8 + x)
       = sat_u8 (RightShiftWithRounding (rd (seqZ 100 64) (y * 8 + x))
                                        kInterPostRoundBit)).
Proof.
  apply (C7_blend_degenerate_weights (seqZ 0 64) 8 (seqZ 100 64) 8 8 8
           (replicate 64 0) 8).
  - right. left. split; [reflexivity|]. right. left. reflexivity.
  - apply Forall_forall. intros z Hz. apply elem_of_seqZ in Hz.
    unfold is_s16. lia.
  - apply Forall_forall. intros z Hz. apply elem_of_seqZ in Hz.
    unfold is_s16. lia.
  - lia.
  - simpl. lia.
Defined.

(** C2. For every luma sample, [BlendNoiseWithImageLuma_SSE4_1] stores
    [clip(sample + round_multiply(noise, LUT(sample) << (15 -
    scaling_shift)), min_value, max_luma)], with the Q15 rounding multiply,
    the LUT evaluation of section 4.2 and [scaling_shift] in [8, 11].  Row
    [y] of a plane starts [y * stride_in_pixels P stride] pixels after the
    first, the byte stride being divided as the kernel divides it. *)
Theorem C2_luma_blend_formula
    bitdepth G P noise_image min_value max_luma scaling_shift
    width height start_height scaling_lut_y
    source_plane_y source_stride_y dest_plane_y dest_stride_y :
  Spec.instantiated bitdepth G P →
  Forall is_u8 scaling_lut_y →
  Forall (Spec.valid_pixel bitdepth) source_plane_y →
  Forall (Spec.valid_grain bitdepth) (data (noise_image kPlaneY)) →
  8 <= scaling_shift <= 11 →
  0 <= min_value <= max_luma → max_luma < 2 ^ bitdepth →
  0 <= width <= stride_in_pixels P dest_stride_y → 1 <= height →
  (height - 1) * (stride_in_pixels P dest_stride_y) + width
    <= Z.of_nat (length dest_plane_y) →
  ∃ dest',
    BlendNoiseWithImageLuma_SSE4_1 bitdepth G P noise_image
      min_value max_luma scaling_shift width height start_height scaling_lut_y
      source_plane_y source_stride_y dest_plane_y dest_stride_y = Some dest' ∧
    ∀ x y, 0 <= x < width → 0 <= y < height →
      let sample := rd source_plane_y (y * (stride_in_pixels P source_stride_y) + x) in
      let noise := rd (data (noise_image kPlaneY))
                      (row_of (noise_image kPlaneY) (y + start_height) + x) in
      rd dest' (y * (stride_in_pixels P dest_stride_y) + x)
      = Clip3_scalar
          (sample + Spec.round_multiply noise
                      (Spec.LUT bitdepth scaling_lut_y sample ≪ (15 - scaling_shift)))
          min_value max_luma.
Proof.
  intros Hi Hlut Hsrc Hnoise Hsh Hmm Hmax Hw Hh Hlen.
  destruct (Luma_samples bitdepth G P noise_image min_value max_luma
              scaling_shift width height start_height scaling_lut_y
              source_plane_y source_stride_y dest_plane_y dest_stride_y)
    as (dest' & Hrun & Hval); try done.
  exists dest'. split; [done|]. intros x y Hx Hy. by apply Hval.
Qed.

Lemma C2_luma_blend_formula_witness :
  ∃ dest',
    BlendNoiseWithImageLuma_SSE4_1 8 int8_t uint8_t C2_noise 16 235 8 11 1 0
      (replicate 256 200) [0; 255; 16; 240; 128; 1; 2; 3; 250; 251; 252] 16
      (replicate 16 0) 16 = Some dest' ∧
    ∀ x y, 0 <= x < 11 → 0 <= y < 1 →
      let sample := rd [0; 255; 16; 240; 128; 1; 2; 3; 250; 251; 252]
                       (y * (stride_in_pixels uint8_t 16) + x) in
      let noise := rd (data (C2_noise kPlaneY))
                      (row_of (C2_noise kPlaneY) (y + 0) + x) in
      rd dest' (y * (stride_in_pixels uint8_t 16) + x)
      = Clip3_scalar
          (sample + Spec.round_multiply noise
                      (Spec.LUT 8 (replicate 256 200) sample ≪ (15 - 8)))
          16 235.
Proof.
  apply (C2_luma_blend_formula 8 int8_t uint8_t C2_noise 16 235 8 11 1 0
           (replicate 256 200) [0; 255; 16; 240; 128; 1; 2; 3; 250; 251; 252] 16
           (replicate 16 0) 16).
  - left. repeat split.
  - apply Forall_replicate. unfold is_u8. lia.
  - repeat constructor; unfold Spec.valid_pixel; simpl; lia.
  - repeat constructor; unfold Spec.valid_grain; simpl; lia.
  - lia.
  - lia.
  - by vm_compute.
  - by vm_compute.
  - lia.
  - by vm_compute.
Defined.

(** A stride of -9 bytes on 16-bit pixels, without grain: the division is
    unsigned, and the second row is read five pixels before the first
    (what lies before the buffer reads as 0). *)
Example Luma_negative_odd_stride :
  BlendNoiseWithImageLuma_SSE4_1 10 int16_t uint16_t
    (λ _, {| columns := 8; data := replicate 16 0 |}) 0 1023 8 8 2 0
    (replicate 257 0) [101; 102; 103; 104; 105; 106; 107; 108] (-9)
    (replicate 16 7) 16
  = Some [101; 102; 103; 104; 105; 106; 107; 108;
          0; 0; 0; 0; 0; 101; 102; 103].
Proof. by vm_compute. Qed.

(** C4. For bit depth 8 a lane of [GetScalingFactors] is the table entry
    [scaling_lut[sample]]; for bit depth 10 and above it is
    [start + round((end - start) * (sample & 3) / 4)] with
    [start = LUT[sample >> 2]] and [end = LUT[(sample >> 2) + 1]], and it is
    [start] exactly when [sample % 4 = 0]. *)
Theorem C4_GetScalingFactors_lanes bitdepth P scaling_lut source p i :
  Forall is_u8 scaling_lut → 0 <= i < 8 →
  let sample := rd source (p + i) in
  let start := rd scaling_lut (sample ≫ 2) in
  let end_ := rd scaling_lut (sample ≫ 2 + 1) in
  (bitdepth = 8 →
     GetScalingFactors bitdepth P scaling_lut source p !! Z.to_nat i
     = Some (rd scaling_lut sample)) ∧
  (10 <= bitdepth →
     GetScalingFactors bitdepth P scaling_lut source p !! Z.to_nat i
     = Some (start + RightShiftWithRounding ((end_ - start) * Z.land sample 3) 2) ∧
     (sample `mod` 4 = 0 →
        GetScalingFactors bitdepth P scaling_lut source p !! Z.to_nat i
        = Some start)).
Proof.
  intros Hlut Hi sample start end_.
  rewrite GetScalingFactors_lanes, lookup_tab by done.
  rewrite scaling_lane_LUT by done. unfold Spec.LUT. fold sample.
  split.
  - intros ->. by rewrite decide_True.
  - intros Hb. rewrite decide_False by lia. fold start end_. split; [done|].
    intros H0. f_equal.
    assert (Z.land sample 3 = sample `mod` 4) as ->
      by (apply (Z.land_ones sample 2); lia).
    rewrite H0, Z.mul_0_r. change (RightShiftWithRounding 0 2) with 0. lia.
Qed.

Lemma C4_GetScalingFactors_lanes_witness :
  let sample := rd [4; 5; 6; 7; 8; 9; 10; 1023] (0 + 5) in
  let start := rd (seqZ 0 256 ++ [255]) (sample ≫ 2) in
  let end_ := rd (seqZ 0 256 ++ [255]) (sample ≫ 2 + 1) in
  (10 = 8 →
     GetScalingFactors 10 uint16_t (seqZ 0 256 ++ [255]) [4; 5; 6; 7; 8; 9; 10; 1023] 0
       !! Z.to_nat 5 = Some (rd (seqZ 0 256 ++ [255]) sample)) ∧
  (10 <= 10 →
     GetScalingFactors 10 uint16_t (seqZ 0 256 ++ [255]) [4; 5; 6; 7; 8; 9; 10; 1023] 0
       !! Z.to_nat 5
     = Some (start + RightShiftWithRounding ((end_ - start) * Z.land sample 3) 2) ∧
     (sample `mod` 4 = 0 →
        GetScalingFactors 10 uint16_t (seqZ 0 256 ++ [255]) [4; 5; 6; 7; 8; 9; 10; 1023] 0
          !! Z.to_nat 5 = Some start)).
Proof.
  apply (C4_GetScalingFactors_lanes 10 uint16_t (seqZ 0 256 ++ [255])
           [4; 5; 6; 7; 8; 9; 10; 1023] 0 5).
  - apply Forall_app_2; [|repeat constructor; unfold is_u8; lia].
    apply Forall_forall. intros z Hz. apply elem_of_seqZ in Hz.
    unfold is_u8. lia.
  - lia.
Defined.


(** C3. In multiplier mode ([chroma_scaling_from_luma] false) every chroma
    sample stored by [BlendNoiseWithImageChroma8bpp_SSE4_1] is the blend of
    section 4.4 with the LUT indexed by
    [merged = clip_to_intermediate(((avg_luma * luma_multiplier
    + chroma_sample * chroma_multiplier) >> 6) + chroma_offset)], not by the
    chroma sample; the planes U and V differ only in the triple
    [{offset, luma_multiplier, multiplier}] taken from the parameters.
    [avg_luma] is the average of section 4.5 over the luma row. *)
Theorem C3_chroma_multiplier_mode
    plane params noise_image min_value max_chroma width height start_height
    subsampling_x subsampling_y scaling_lut source_plane_y source_stride_y
    source_plane_uv source_stride_uv dest_plane_uv dest_stride_uv stack
    offset luma_multiplier multiplier :
  chroma_scaling_from_luma params = false →
  Spec.chroma_triple plane params = (offset, luma_multiplier, multiplier) →
  is_s8 luma_multiplier → is_s8 multiplier → -256 <= offset <= 255 →
  Forall is_u8 scaling_lut → Forall is_u8 source_plane_uv →
  Forall is_s8 (data (noise_image plane)) →
  8 <= chroma_scaling params <= 11 →
  0 <= min_value <= max_chroma → max_chroma <= 255 →
  0 <= chroma_width width subsampling_x <= dest_stride_uv →
  1 <= chroma_height height subsampling_y →
  (chroma_height height subsampling_y - 1) * dest_stride_uv
    + chroma_width width subsampling_x <= Z.of_nat (length dest_plane_uv) →
  ∃ dest',
    BlendNoiseWithImageChroma8bpp_SSE4_1 plane params noise_image
      min_value max_chroma width height start_height subsampling_x subsampling_y
      scaling_lut source_plane_y source_stride_y source_plane_uv source_stride_uv
      dest_plane_uv dest_stride_uv stack = Some dest' ∧
    ∀ x y, 0 <= x < chroma_width width subsampling_x →
           0 <= y < chroma_height height subsampling_y →
      let chroma_sample := rd source_plane_uv (y * source_stride_uv + x) in
      let avg_luma :=
        kernel_average_luma uint8_t width subsampling_x subsampling_y
                            source_plane_y source_stride_y y x in
      let noise :=
        rd (data (noise_image plane))
           (row_of (noise_image plane) (y + start_height ≫ subsampling_y) + x) in
      let merged :=
        Spec.clip_to_intermediate
          (((avg_luma * luma_multiplier + chroma_sample * multiplier) ≫ 6)
           + offset) in
      rd dest' (y * dest_stride_uv + x)
      = Clip3_scalar
          (chroma_sample
           + Spec.round_multiply noise
               (Spec.LUT 8 scaling_lut merged ≪ (15 - chroma_scaling params)))
          min_value max_chroma
      ∧ (Forall is_u8 source_plane_y →
         subsampling_x = 0 ∨
         (subsampling_x = 1 ∧
          (width `mod` 2 = 0 ∨ chroma_width width subsampling_x `mod` 8 ≠ 0)) →
         avg_luma
         = Spec.average_luma
             (Spec.padded_luma source_plane_y
                (y * (source_stride_y ≪ subsampling_y)) width)
             subsampling_x x).
Proof.
  intros _ Htriple Hlm Hm Hoff Hlut Huv Hnoise Hsh Hmm Hmax Hw Hh Hlen.
  rewrite Chroma8bpp_plane, Htriple. cbn [fst snd].
  destruct (Chroma8bpp_samples (noise_image plane) min_value max_chroma
              width height start_height subsampling_x subsampling_y
              (chroma_scaling params) offset multiplier luma_multiplier
              scaling_lut source_plane_y source_stride_y source_plane_uv
              source_stride_uv dest_stride_uv stack dest_plane_uv)
    as (dest' & -> & Hval); try done.
  exists dest'. split; [done|]. intros x y Hx Hy. split.
  - by apply Hval.
  - intros Hy8 Hs. apply kernel_average_luma_spec; try done.
    + destruct Hs as [?|[? _]]; auto.
    + destruct Hs as [?|[_ [?|?]]]; auto.
Qed.

Lemma C3_chroma_multiplier_mode_witness :
  ∃ dest',
    BlendNoiseWithImageChroma8bpp_SSE4_1 kPlaneU C3_params C3_noise
      16 240 11 2 0 1 1 (seqZ 0 256) C3_luma 16 C3_chroma 8
      (replicate 8 7) 8 (λ _, []) = Some dest' ∧
    ∀ x y, 0 <= x < chroma_width 11 1 → 0 <= y < chroma_height 2 1 →
      let chroma_sample := rd C3_chroma (y * 8 + x) in
      let avg_luma := kernel_average_luma uint8_t 11 1 1 C3_luma 16 y x in
      let noise :=
        rd (data (C3_noise kPlaneU))
           (row_of (C3_noise kPlaneU) (y + 0 ≫ 1) + x) in
      let merged :=
        Spec.clip_to_intermediate
          (((avg_luma * -20 + chroma_sample * 40) ≫ 6) + 30) in
      rd dest' (y * 8 + x)
      = Clip3_scalar
          (chroma_sample
           + Spec.round_multiply noise
               (Spec.LUT 8 (seqZ 0 256) merged ≪ (15 - chroma_scaling C3_params)))
          16 240
      ∧ (Forall is_u8 C3_luma →
         1 = 0 ∨ (1 = 1 ∧ (11 `mod` 2 = 0 ∨ chroma_width 11 1 `mod` 8 ≠ 0)) →
         avg_luma
         = Spec.average_luma (Spec.padded_luma C3_luma (y * (16 ≪ 1)) 11) 1 x).
Proof.
  apply (C3_chroma_multiplier_mode kPlaneU C3_params C3_noise
           16 240 11 2 0 1 1 (seqZ 0 256) C3_luma 16 C3_chroma 8
           (replicate 8 7) 8 (λ _, []) 30 (-20) 40).
  - reflexivity.
  - reflexivity.
  - by vm_compute.
  - by vm_compute.
  - lia.
  - apply Forall_forall. intros z Hz. apply elem_of_seqZ in Hz.
    unfold is_u8. lia.
  - repeat constructor; unfold is_u8; lia.
  - repeat constructor; unfold is_s8; simpl; lia.
  - by vm_compute.
  - lia.
  - lia.
  - by vm_compute.
  - by vm_compute.
  - by vm_compute.
Defined.

(** The same call for U and for V: the two results differ through the
    triple alone.  Column 0 of U has [merged = 150] for the chroma sample
    200; indexing the LUT by the sample would give 150 instead of 163. *)
Example Chroma8bpp_U_and_V :
  BlendNoiseWithImageChroma8bpp_SSE4_1 kPlaneU C3_params C3_noise
    16 240 11 2 0 1 1 (seqZ 0 256) C3_luma 16 C3_chroma 8
    (replicate 8 7) 8 (λ _, []) = Some [163; 120; 50; 25; 240; 16; 16; 16] ∧
  BlendNoiseWithImageChroma8bpp_SSE4_1 kPlaneV C3_params C3_noise
    16 240 11 2 0 1 1 (seqZ 0 256) C3_luma 16 C3_chroma 8
    (replicate 8 7) 8 (λ _, []) = Some [150; 125; 50; 25; 240; 16; 16; 16] ∧
  Spec.merged 15 200 (-20) 40 30 = 150 ∧
  Spec.grain_sample 8 (seqZ 0 256) 9 16 240 200 150 (-128) = 163 ∧
  Spec.grain_sample 8 (seqZ 0 256) 9 16 240 200 200 (-128) = 150.
Proof. by vm_compute. Qed.

(** C5. With horizontal subsampling the lane of [GetAverageLuma] for chroma
    column [x] is the rounded mean [(luma[2x] + luma[2x+1] + 1) >> 1] of the
    two co-located luma samples; without it, it is [luma[x]].  The kernels
    call it on [&in_y_row[x << subsampling_x]], one block of eight columns
    at a time; [i] is the lane. *)
Theorem C5_GetAverageLuma_lanes P luma in_y_row subsampling_x x i :
  Forall (Spec.typed_pixel P) luma → 0 <= i < 8 →
  subsampling_x = 0 ∨ subsampling_x = 1 →
  GetAverageLuma P luma (in_y_row + x ≪ subsampling_x) subsampling_x
    !! Z.to_nat i
  = Some (if decide (subsampling_x = 1)
          then (rd luma (in_y_row + 2 * (x + i))
                + rd luma (in_y_row + (2 * (x + i) + 1)) + 1) ≫ 1
          else rd luma (in_y_row + (x + i))).
Proof.
  intros Ht Hi Hs. rewrite GetAverageLuma_lanes, lookup_tab by done.
  unfold average_luma_lane. f_equal. destruct Hs as [-> | ->].
  - rewrite decide_False by (intros ?; done). rewrite decide_False by done.
    rewrite Z.shiftl_0_r, pixel_lane_typed by (by apply typed_pixel_rd).
    f_equal. lia.
  - rewrite decide_True by done. rewrite decide_True by done.
    rewrite average_lane_typed by (by apply typed_pixel_rd).
    rewrite Z.shiftl_mul_pow2 by lia. change (2 ^ 1) with 2.
    replace (in_y_row + x * 2 + 2 * i) with (in_y_row + 2 * (x + i)) by lia.
    replace (in_y_row + x * 2 + (2 * i + 1))
      with (in_y_row + (2 * (x + i) + 1)) by lia.
    reflexivity.
Qed.

Lemma C5_GetAverageLuma_lanes_witness :
  GetAverageLuma uint8_t (seqZ 0 64) (32 + 8 ≪ 1) 1 !! Z.to_nat 3
  = Some (if decide (1 = 1)
          then (rd (seqZ 0 64) (32 + 2 * (8 + 3))
                + rd (seqZ 0 64) (32 + (2 * (8 + 3) + 1)) + 1) ≫ 1
          else rd (seqZ 0 64) (32 + (8 + 3))).
Proof.
  apply (C5_GetAverageLuma_lanes uint8_t (seqZ 0 64) 32 1 8 3).
  - apply Forall_forall. intros z Hz. apply elem_of_seqZ in Hz.
    unfold Spec.typed_pixel, is_u8. lia.
  - lia.
  - by right.
Defined.

(** The 16-bit instantiation on a row of 10-bit samples, without
    subsampling and with it. *)
Example GetAverageLuma_10bit :
  GetAverageLuma uint16_t [1023; 1022; 0; 1; 512; 513; 700; 3; 9; 9; 9; 9; 9; 9; 9; 10] 0 0
  = [1023; 1022; 0; 1; 512; 513; 700; 3] ∧
  GetAverageLuma uint16_t [1023; 1022; 0; 1; 512; 513; 700; 3; 9; 9; 9; 9; 9; 9; 9; 10] 0 1
  = [1023; 1; 513; 352; 9; 9; 9; 10].
Proof. by vm_compute. Qed.

(** C6. Every sample a kernel stores lies in the pixel range: inside the
    block that the call fills, and at every other cell of the destination
    that the call changed.  For the 8-bit kernels the range is within
    [0, 255]; for the film-grain kernels it is the [min, max] of the call. *)
Theorem C6_stored_samples_in_range (k : kernel_call) :
  well_formed k →
  ∃ dest',
    run k = Some dest' ∧
    length dest' = length (destination k) ∧
    (∀ x y, 0 <= x < (block k).1.1 → 0 <= y < (block k).1.2 →
       in_pixel_range k (rd dest' (y * (block k).2 + x))) ∧
    (∀ q, rd dest' q = rd (destination k) q ∨ in_pixel_range k (rd dest' q)).
Proof.
  intros Hwf. unfold in_pixel_range.
  destruct k as
    [p0 s0 p1 s1 w0 w1 width height dest ds
    |bitdepth G P noise mn mx shift width height sh lut src ss dest ds
    |bitdepth G P plane params noise mn mx width height sh ssx ssy lut
       src_y ss_y src_uv ss_uv dest ds
    |plane params noise mn mx width height sh ssx ssy lut
       src_y ss_y src_uv ss_uv dest ds stack];
    unfold well_formed in Hwf;
    cbn [block pixel_range bit_depth destination] in *;
    destruct Hwf as (Hw & Hh & Hlen & Hmm & Hmx & Hk); cbn [run fst snd].
  - destruct Hk as (Hsup & Hp0 & Hp1 & Hw0 & Hw1).
    destruct (DistanceWeightedBlend_NEON_rows p0 s0 p1 s1 w0 w1 width height
                dest ds) as (dest' & -> & Hrows); try done; try lia.
    exists dest'. split; [done|].
    apply (rows_done_in_range _ _ _ _ _
             (λ v, 0 <= v <= 255 ∧ 0 <= v <= 2 ^ 8 - 1) _ _ _ Hrows);
      [|apply blend_val_u8].
    intros v Hv. unfold is_u8 in Hv. change (2 ^ 8) with 256. lia.
  - unfold BlendNoiseWithImageLuma_SSE4_1.
    destruct (BlendNoiseWithImageLuma_rows bitdepth G P noise mn mx shift
                width height sh lut src (stride_in_pixels P ss)
                (stride_in_pixels P ds) dest width)
      as (dest' & -> & Hrows); try done; try lia.
    { pose proof (row_span_ge width). lia. }
    exists dest'. split; [done|].
    apply (rows_done_in_range _ _ _ _ _
             (λ v, mn <= v <= mx ∧ 0 <= v <= 2 ^ bitdepth - 1) _ _ _ Hrows);
      [|intros; apply luma_val_stored].
    intros v. apply stored_in_range; try done. by eapply instantiated_pixel.
  - unfold BlendNoiseWithImageChromaWithCfl_SSE4_1.
    destruct (BlendChromaPlaneWithCfl_rows bitdepth G P (noise plane)
                mn mx width height sh ssx ssy (chroma_scaling params) lut
                src_y (stride_in_pixels P ss_y) src_uv (stride_in_pixels P ss_uv)
                (stride_in_pixels P ds) dest (chroma_width width ssx))
      as (dest' & -> & Hrows); try done;
      try (unfold chroma_width, chroma_height; lia).
    { pose proof (row_span_ge (chroma_width width ssx)).
      unfold chroma_width in *. lia. }
    exists dest'. split; [done|].
    apply (rows_done_in_range _ _ _ _ _
             (λ v, mn <= v <= mx ∧ 0 <= v <= 2 ^ bitdepth - 1) _ _ _ Hrows);
      [|intros; apply cfl_val_stored].
    intros v. apply stored_in_range; try done. by eapply instantiated_pixel.
  - unfold BlendNoiseWithImageChroma8bpp_SSE4_1.
    match goal with
    | |- ∃ _, BlendChromaPlane8bpp_SSE4_1 _ _ _ _ _ _ _ _ _ ?off ?cm ?lm
                _ _ _ _ _ _ _ _ = _ ∧ _ =>
        destruct (BlendChromaPlane8bpp_rows (noise plane) mn mx width height
                    sh ssx ssy (chroma_scaling params) off cm lm lut
                    src_y ss_y src_uv ss_uv ds stack dest
                    (chroma_width width ssx))
          as (dest' & -> & Hrows)
    end; try done; try (unfold chroma_width, chroma_height; lia).
    { pose proof (row_span_ge (chroma_width width ssx)).
      unfold chroma_width in *. lia. }
    exists dest'. split; [done|].
    apply (rows_done_in_range _ _ _ _ _
             (λ v, mn <= v <= mx ∧ 0 <= v <= 2 ^ 8 - 1) _ _ _ Hrows);
      [|intros; apply nocfl_val_stored].
    intros v. apply (stored_in_range uint8_t 8); try done. by left.
Qed.

Lemma C6_stored_samples_in_range_witness :
  ∃ dest',
    run C6_call = Some dest' ∧
    length dest' = length (destination C6_call) ∧
    (∀ x y, 0 <= x < (block C6_call).1.1 → 0 <= y < (block C6_call).1.2 →
       in_pixel_range C6_call (rd dest' (y * (block C6_call).2 + x))) ∧
    (∀ q, rd dest' q = rd (destination C6_call) q
          ∨ in_pixel_range C6_call (rd dest' q)).
Proof.
  apply (C6_stored_samples_in_range C6_call).
  unfold well_formed, C6_call. cbn [block pixel_range bit_depth destination].
  repeat split; try (by vm_compute). right. repeat split.
Defined.

(** The call above: the extreme grain on the extreme samples is clipped to
    [64, 940], and so are the four lanes written past the width. *)
Example Luma_10bit_clipped :
  run C6_call
  = Some [940; 64; 363; 641; 64; 64; 64; 64; 64; 940; 513; 512; 64; 64; 64; 64].
Proof. by vm_compute. Qed.

(** Where the padded right-edge block does run, that is, when the width of
    the plane being written (the chroma width for a chroma kernel) is not
    a multiple of 8, a film-grain kernel leaves at every valid column
    exactly what the per-sample scalar loop over the valid columns leaves
    there.  ([scalar_reference] is that loop; for a chroma kernel it reads
    the luma row at its valid columns only.) *)
Lemma edge_path_matches_scalar (k : kernel_call) :
  valid_inputs k →
  (block k).1.1 `mod` 8 ≠ 0 →
  ∃ dest',
    run k = Some dest' ∧
    ∀ x y, 0 <= x < (block k).1.1 → 0 <= y < (block k).1.2 →
      rd dest' (y * (block k).2 + x)
      = rd (scalar_reference k) (y * (block k).2 + x).
Proof.
  intros [Hwf Hin] Hedge.
  destruct k as
    [p0 s0 p1 s1 w0 w1 width height dest ds
    |bitdepth G P noise mn mx shift width height sh lut src ss dest ds
    |bitdepth G P plane params noise mn mx width height sh ssx ssy lut
       src_y ss_y src_uv ss_uv dest ds
    |plane params noise mn mx width height sh ssx ssy lut
       src_y ss_y src_uv ss_uv dest ds stack];
    unfold well_formed in Hwf;
    cbn [block pixel_range bit_depth destination fst snd] in *;
    destruct Hwf as (Hw & Hh & Hlen & Hmm & Hmx & Hk);
    cbn [run scalar_reference].
  - destruct Hk as (Hsup & Hp0 & Hp1 & Hw0 & Hw1).
    destruct (DistanceWeightedBlend_NEON_rows p0 s0 p1 s1 w0 w1 width height
                dest ds) as (dest' & -> & Hrows); try done; try lia.
    destruct Hrows as (_ & Hval & _).
    exists dest'. split; [done|]. intros x y Hx Hy.
    rewrite Hval by done.
    destruct (scalar_rows_done width height ds
                (λ y x, blend_sample (rd p0 (y * s0 + x)) (rd p1 (y * s1 + x))
                                     w0 w1) dest) as (_ & Hs & _);
      [lia|lia|lia|]. by rewrite Hs.
  - destruct Hin as (Hlut & Hsh & Hsrc & Hnoise).
    destruct (Luma_samples bitdepth G P noise mn mx shift width height sh lut
                src ss dest ds) as (dest' & -> & Hval); try done.
    exists dest'. split; [done|]. intros x y Hx Hy.
    rewrite Hval by done. unfold Spec.BlendGrainLuma_scalar.
    destruct (scalar_rows_done width height (stride_in_pixels P ds)
                (λ y x,
                   Spec.grain_sample bitdepth lut shift mn mx
                     (rd src (y * (stride_in_pixels P ss) + x))
                     (rd src (y * (stride_in_pixels P ss) + x))
                     (rd (data (noise kPlaneY))
                         (row_of (noise kPlaneY) (y + sh) + x))) dest)
      as (_ & Hs & _); [lia|lia|lia|]. by rewrite Hs.
  - destruct Hin as (Hlut & Hsh & Hs & Hsy & Hsuv & Hnoise).
    unfold BlendNoiseWithImageChromaWithCfl_SSE4_1.
    destruct (ChromaWithCfl_samples bitdepth G P (noise plane) mn mx width
                height sh ssx ssy (chroma_scaling params) lut
                src_y (stride_in_pixels P ss_y) src_uv (stride_in_pixels P ss_uv)
                (stride_in_pixels P ds) dest) as (dest' & -> & Hval); try done.
    { right. by right. }
    exists dest'. split; [done|]. intros x y Hx Hy.
    rewrite Hval by done. unfold Spec.BlendGrainChromaCfl_scalar.
    match goal with
    | |- _ = rd (Spec.scalar_rows ?w ?h ?d ?f dest) _ =>
        destruct (scalar_rows_done w h d f dest) as (_ & Hsc & _);
          [lia|lia|lia|]
    end.
    by rewrite Hsc.
  - destruct Hin as (Hlut & Hsh & Hs & Hsy & Hsuv & Hnoise & Hlm & Hm & Hoff).
    rewrite Chroma8bpp_plane.
    destruct (Chroma8bpp_samples (noise plane) mn mx width height sh ssx ssy
                (chroma_scaling params)
                (Spec.chroma_triple plane params).1.1
                (Spec.chroma_triple plane params).2
                (Spec.chroma_triple plane params).1.2
                lut src_y ss_y src_uv ss_uv ds stack dest)
      as (dest' & -> & Hval); try done; try (change (2 ^ 8) with 256 in Hmx; lia).
    exists dest'. split; [done|]. intros x y Hx Hy.
    rewrite Hval by done. unfold Spec.BlendGrainChroma_scalar.
    match goal with
    | |- _ = rd (Spec.scalar_rows ?w ?h ?d ?f dest) _ =>
        destruct (scalar_rows_done w h d f dest) as (_ & Hsc & _);
          [lia|lia|lia|]
    end.
    rewrite Hsc by done. cbv zeta.
    rewrite (kernel_average_luma_spec uint8_t); try done.
    right. by right.
Qed.

Lemma edge_path_matches_scalar_witness :
  ∃ dest',
    run C8_call = Some dest' ∧
    ∀ x y, 0 <= x < (block C8_call).1.1 → 0 <= y < (block C8_call).1.2 →
      rd dest' (y * (block C8_call).2 + x)
      = rd (scalar_reference C8_call) (y * (block C8_call).2 + x).
Proof.
  apply (edge_path_matches_scalar C8_call).
  - split.
    + unfold well_formed, C8_call.
      cbn [block pixel_range bit_depth destination].
      repeat split; by vm_compute.
    + unfold C8_call. split_and!; try (by vm_compute).
      * apply Forall_forall. intros z Hz. apply elem_of_seqZ in Hz.
        unfold is_u8. lia.
      * by right.
      * repeat constructor; unfold is_u8; lia.
      * repeat constructor; unfold is_u8; lia.
      * repeat constructor; unfold is_s8; simpl; lia.
  - by vm_compute.
Defined.

(** The call above, and what the scalar loop leaves: the six valid columns
    agree; the two columns after them are the scalar loop's only where it
    did not write. *)
Example Chroma8bpp_edge_and_scalar :
  run C8_call = Some [163; 120; 50; 25; 240; 16; 16; 16] ∧
  scalar_reference C8_call = [163; 120; 50; 25; 240; 16; 7; 7].
Proof. by vm_compute. Qed.

(** C8 fails on the code.  The luma width 15 is not a multiple of 8, nor
    of [8 << subsampling_x], which the comment in the kernel gives as the
    condition of the right-edge block; the inputs are valid.  But the
    chroma width is 8, [x < chroma_width] is false after the one full
    block, and no padded block runs: lane 7 of the full block averages
    [luma[14]] with the element after the row, and the kernel stores 88 at
    the valid chroma column 7, where the per-sample scalar loop over the
    valid columns stores 83. *)
Theorem C8_odd_width_differs_from_scalar :
  valid_inputs (odd_width_call 0) ∧
  15 `mod` 8 ≠ 0 ∧ 15 `mod` (8 ≪ 1) ≠ 0 ∧
  (block (odd_width_call 0)).1.1 = 8 ∧
  ∃ dest',
    run (odd_width_call 0) = Some dest' ∧
    rd dest' 7 = 88 ∧
    rd (scalar_reference (odd_width_call 0)) 7 = 83.
Proof.
  split_and!; try (by vm_compute).
  - split.
    + unfold well_formed, odd_width_call.
      cbn [block pixel_range bit_depth destination].
      repeat split; by vm_compute.
    + unfold odd_width_call. split_and!; try (by vm_compute).
      * apply Forall_forall. intros z Hz. apply elem_of_seqZ in Hz.
        unfold is_u8. lia.
      * by right.
      * repeat constructor; unfold is_u8; lia.
      * repeat constructor; unfold is_u8; lia.
      * repeat constructor; unfold is_s8; simpl; lia.
  - eexists. split_and!; by vm_compute.
Qed.

(** The same call with two contents of the element after the row: the
    stored sample follows that element, which the scalar loop does not
    read. *)
Example Chroma8bpp_full_block_reads_element_after_row :
  (block (odd_width_call 0)).1.1 = 8 ∧
  run (odd_width_call 150) = Some [200; 100; 50; 25; 255; 0; 0; 83] ∧
  run (odd_width_call 0) = Some [200; 100; 50; 25; 255; 0; 0; 88] ∧
  scalar_reference (odd_width_call 0) = [200; 100; 50; 25; 255; 0; 0; 83].
Proof. by vm_compute. Qed.

Lemma rd_memset0 n i : rd (memset0 n) i = 0.
Proof.
  apply (Forall_rd (λ v, v = 0)); [done|].
  unfold memset0. by apply Forall_replicate.
Qed.

Lemma row_span_edge W : W `mod` 8 ≠ 0 → row_span W = 8 * (W `div` 8) + 8.
Proof. intros H. unfold row_span. by rewrite decide_False. Qed.

(** C9, as stated, fails: a luma row of width 3 in a destination row of 8
    samples.  The edge block stores all eight lanes, so the columns 3 to 7,
    which held 7, hold the blended source samples afterwards. *)
Lemma C9_columns_beyond_width_overwritten :
  ∃ dest',
    run C9_call = Some dest' ∧
    dest' = [100; 110; 120; 130; 140; 150; 160; 170] ∧
    ¬ keeps_columns_beyond_width C9_call dest'.
Proof.
  eexists. split; [by vm_compute|]. split; [done|].
  intros H. specialize (H 5 0 ltac:(by vm_compute) ltac:(by vm_compute)).
  vm_compute in H. discriminate H.
Qed.

(** C9, amended.  At the right edge of a luma row ([x] is the start of the
    last block, [valid_range] the number of valid columns left) the scratch
    buffer holds the [valid_range] trailing samples, then the last valid
    sample once, then zeros; the scaling factors are taken from it, the
    pixels from the source row, and all eight lanes are stored: the columns
    from the width up to the end of the block are overwritten too, so the
    destination rows have room for the whole block.  Outside the blocks of
    the rows the destination is unchanged. *)
Theorem C9_right_edge_full_lane_store
    bitdepth G P noise_image min_value max_luma scaling_shift
    width height start_height scaling_lut_y
    source_plane_y source_stride_y dest_plane_y dest_stride_y :
  0 <= width → width `mod` 8 ≠ 0 → 1 <= height →
  row_span width <= stride_in_pixels P dest_stride_y →
  (height - 1) * (stride_in_pixels P dest_stride_y) + row_span width
    <= Z.of_nat (length dest_plane_y) →
  ∃ dest',
    BlendNoiseWithImageLuma_SSE4_1 bitdepth G P noise_image
      min_value max_luma scaling_shift width height start_height scaling_lut_y
      source_plane_y source_stride_y dest_plane_y dest_stride_y = Some dest' ∧
    (∀ y, 0 <= y < height →
       let x := 8 * (width `div` 8) in
       let valid_range := width - x in
       let in_y_row := y * (stride_in_pixels P source_stride_y) in
       let out_y_row := y * (stride_in_pixels P dest_stride_y) in
       let luma_buffer :=
         luma_edge_buffer width source_plane_y
                          (stride_in_pixels P source_stride_y) y in
       (∀ i, 0 <= i < valid_range →
          rd luma_buffer i = rd source_plane_y (in_y_row + x + i)) ∧
       rd luma_buffer valid_range = rd source_plane_y (in_y_row + (width - 1)) ∧
       (∀ i, valid_range < i < 8 → rd luma_buffer i = 0) ∧
       (∀ i, 0 <= i < 8 →
          rd dest' (out_y_row + x + i)
          = blend_lane bitdepth G P scaling_lut_y min_value max_luma
              scaling_shift
              (rd source_plane_y (in_y_row + x + i))
              (rd luma_buffer i)
              (rd (data (noise_image kPlaneY))
                  (row_of (noise_image kPlaneY) (y + start_height) + x + i)))) ∧
    (∀ q,
       (∀ y, 0 <= y < height →
          ¬ (y * (stride_in_pixels P dest_stride_y) <= q
             < y * (stride_in_pixels P dest_stride_y) + row_span width)) →
       rd dest' q = rd dest_plane_y q).
Proof.
  intros Hw Hedge Hh Hds Hlen.
  unfold BlendNoiseWithImageLuma_SSE4_1.
  destruct (BlendNoiseWithImageLuma_rows bitdepth G P noise_image min_value
              max_luma scaling_shift width height start_height scaling_lut_y
              source_plane_y (stride_in_pixels P source_stride_y)
              (stride_in_pixels P dest_stride_y) dest_plane_y (row_span width))
    as (dest' & -> & Hrows); try done.
  { pose proof (row_span_ge width). lia. }
  destruct Hrows as (_ & Hval & Hframe & _).
  exists dest'. split; [done|]. split; [|exact Hframe].
  intros y Hy. cbv zeta.
  pose proof (edge_extent width) as Hext.
  pose proof (Z.div_mod width 8 ltac:(lia)) as Hdm.
  unfold luma_edge_buffer, luma_edge_x. split_and!.
  - intros i Hi.
    rewrite <- (Z.add_0_l i) at 1.
    by rewrite scratch_valid by (simpl; lia).
  - by rewrite scratch_last by (simpl; lia).
  - intros i Hi. rewrite scratch_rest by lia. apply rd_memset0.
  - intros i Hi.
    replace (y * (stride_in_pixels P dest_stride_y) + 8 * (width `div` 8) + i)
      with (y * (stride_in_pixels P dest_stride_y) + (8 * (width `div` 8) + i))
      by lia.
    rewrite Hval by (rewrite ?row_span_edge by done; lia).
    unfold luma_val, block_val. rewrite decide_False by lia.
    unfold luma_edge, luma_edge_buffer, luma_edge_x, luma_noise_row.
    replace (8 * (width `div` 8) + i - 8 * (width `div` 8)) with i by lia.
    rewrite Z.add_0_l. reflexivity.
Qed.

Lemma C9_right_edge_full_lane_store_witness :
  ∃ dest',
    BlendNoiseWithImageLuma_SSE4_1 8 int8_t uint8_t C2_noise
      16 235 8 11 2 0 (replicate 256 200)
      [0; 255; 16; 240; 128; 1; 2; 3; 250; 251; 252; 9; 9; 9; 9; 9] 16
      (replicate 32 7) 16 = Some dest' ∧
    (∀ y, 0 <= y < 2 →
       let x := 8 * (11 `div` 8) in
       let valid_range := 11 - x in
       let in_y_row := y * (stride_in_pixels uint8_t 16) in
       let out_y_row := y * (stride_in_pixels uint8_t 16) in
       let luma_buffer :=
         luma_edge_buffer 11
           [0; 255; 16; 240; 128; 1; 2; 3; 250; 251; 252; 9; 9; 9; 9; 9]
           (stride_in_pixels uint8_t 16) y in
       (∀ i, 0 <= i < valid_range →
          rd luma_buffer i
          = rd [0; 255; 16; 240; 128; 1; 2; 3; 250; 251; 252; 9; 9; 9; 9; 9]
               (in_y_row + x + i)) ∧
       rd luma_buffer valid_range
       = rd [0; 255; 16; 240; 128; 1; 2; 3; 250; 251; 252; 9; 9; 9; 9; 9]
            (in_y_row + (11 - 1)) ∧
       (∀ i, valid_range < i < 8 → rd luma_buffer i = 0) ∧
       (∀ i, 0 <= i < 8 →
          rd dest' (out_y_row + x + i)
          = blend_lane 8 int8_t uint8_t (replicate 256 200) 16 235 8
              (rd [0; 255; 16; 240; 128; 1; 2; 3; 250; 251; 252; 9; 9; 9; 9; 9]
                  (in_y_row + x + i))
              (rd luma_buffer i)
              (rd (data (C2_noise kPlaneY))
                  (row_of (C2_noise kPlaneY) (y + 0) + x + i)))) ∧
    (∀ q,
       (∀ y, 0 <= y < 2 →
          ¬ (y * (stride_in_pixels uint8_t 16) <= q
             < y * (stride_in_pixels uint8_t 16) + row_span 11)) →
       rd dest' q = rd (replicate 32 7) q).
Proof.
  apply (C9_right_edge_full_lane_store 8 int8_t uint8_t C2_noise
           16 235 8 11 2 0 (replicate 256 200)
           [0; 255; 16; 240; 128; 1; 2; 3; 250; 251; 252; 9; 9; 9; 9; 9] 16
           (replicate 32 7) 16).
  - lia.
  - by vm_compute.
  - lia.
  - by vm_compute.
  - by vm_compute.
Defined.

(** The right edge of the chroma-from-luma kernel does the same with the
    luma samples it averages: the scratch copy of the luma row holds the
    valid samples, the last one once and zeros, and the eight lanes of the
    block are all stored. *)
Lemma ChromaWithCfl_right_edge_store
    bitdepth G P noise_image min_value max_chroma width height start_height
    subsampling_x subsampling_y scaling_shift scaling_lut
    in_y source_stride_y in_chroma source_stride_chroma dest_stride dest :
  subsampling_x = 0 ∨ subsampling_x = 1 →
  0 <= width →
  chroma_width width subsampling_x `mod` 8 ≠ 0 →
  1 <= chroma_height height subsampling_y →
  row_span (chroma_width width subsampling_x) <= dest_stride →
  (chroma_height height subsampling_y - 1) * dest_stride
    + row_span (chroma_width width subsampling_x) <= Z.of_nat (length dest) →
  ∃ dest',
    BlendChromaPlaneWithCfl_SSE4_1 bitdepth G P noise_image min_value
      max_chroma width height start_height subsampling_x subsampling_y
      scaling_shift scaling_lut in_y source_stride_y in_chroma
      source_stride_chroma dest_stride dest = Some dest' ∧
    (∀ y, 0 <= y < chroma_height height subsampling_y →
       let x := 8 * (chroma_width width subsampling_x `div` 8) in
       let luma_x := x ≪ subsampling_x in
       let valid_range := width - luma_x in
       let in_y_row := y * (source_stride_y ≪ subsampling_y) in
       let luma_buffer :=
         edge_luma_buffer width subsampling_x subsampling_y in_y
                          source_stride_y y in
       (∀ i, 0 <= i < valid_range →
          rd luma_buffer i = rd in_y (in_y_row + luma_x + i)) ∧
       rd luma_buffer valid_range = rd in_y (in_y_row + (width - 1)) ∧
       (∀ i, valid_range < i < 16 → rd luma_buffer i = 0) ∧
       (∀ i, 0 <= i < 8 →
          rd dest' (y * dest_stride + x + i)
          = blend_lane bitdepth G P scaling_lut min_value max_chroma
              scaling_shift
              (rd in_chroma (y * source_stride_chroma + x + i))
              (store_lane P (average_luma_lane P luma_buffer 0 subsampling_x i))
              (rd (data noise_image)
                  (row_of noise_image (y + start_height ≫ subsampling_y)
                   + x + i)))) ∧
    (∀ q,
       (∀ y, 0 <= y < chroma_height height subsampling_y →
          ¬ (y * dest_stride <= q
             < y * dest_stride + row_span (chroma_width width subsampling_x))) →
       rd dest' q = rd dest q).
Proof.
  intros Hs Hw Hedge Hh Hds Hlen.
  assert (0 <= chroma_width width subsampling_x) as Hcw.
  { unfold chroma_width. apply Z.shiftr_nonneg. lia. }
  destruct (BlendChromaPlaneWithCfl_rows bitdepth G P noise_image min_value
              max_chroma width height start_height subsampling_x subsampling_y
              scaling_shift scaling_lut in_y source_stride_y in_chroma
              source_stride_chroma dest_stride dest
              (row_span (chroma_width width subsampling_x)))
    as (dest' & -> & Hrows); try done.
  { pose proof (row_span_ge (chroma_width width subsampling_x)). lia. }
  destruct Hrows as (_ & Hval & Hframe & _).
  exists dest'. split; [done|]. split; [|exact Hframe].
  intros y Hy. cbv zeta.
  pose proof (edge_extent (chroma_width width subsampling_x)) as Hext.
  pose proof (Z.div_mod (chroma_width width subsampling_x) 8 ltac:(lia)) as Hdm.
  assert (0 < width - (8 * (chroma_width width subsampling_x `div` 8)) ≪ subsampling_x < 16)
    as Hvr.
  { unfold chroma_width in *. destruct Hs as [-> | ->].
    - rewrite Z.add_0_r, Z.shiftr_0_r, Z.shiftl_0_r in *. lia.
    - rewrite Z.shiftl_mul_pow2 by lia.
      rewrite Z.shiftr_div_pow2 in * by lia. change (2 ^ 1) with 2 in *.
      pose proof (Z.div_mod (width + 1) 2 ltac:(lia)).
      pose proof (Z.mod_pos_bound (width + 1) 2 ltac:(lia)). lia. }
  unfold edge_luma_buffer, edge_x, luma_row. split_and!.
  - intros i Hi.
    rewrite <- (Z.add_0_l i) at 1.
    by rewrite scratch_valid by (simpl; lia).
  - by rewrite scratch_last by (simpl; lia).
  - intros i Hi. rewrite scratch_rest by lia. apply rd_memset0.
  - intros i Hi.
    replace (y * dest_stride + 8 * (chroma_width width subsampling_x `div` 8) + i)
      with (y * dest_stride + (8 * (chroma_width width subsampling_x `div` 8) + i))
      by lia.
    rewrite Hval by (rewrite ?row_span_edge by done; lia).
    unfold cfl_val, block_val. rewrite decide_False by lia.
    unfold cfl_edge, edge_luma_buffer, edge_x, luma_row, noise_row.
    replace (8 * (chroma_width width subsampling_x `div` 8) + i
             - 8 * (chroma_width width subsampling_x `div` 8)) with i by lia.
    reflexivity.
Qed.

(** C10. After [FilmGrainInit_SSE4_1], built for bit depth 10, the 10-bit
    table holds the luma blend and, in [blend_noise_chroma[1]], the
    chroma-from-luma blend, both in their 10-bit instantiation;
    [blend_noise_chroma[0]] of bit depth 10 and the other entry of that
    table hold what they held before.  The multiplier-mode slot is written
    in the 8-bit table, by [Init8bpp], which leaves the 10-bit table alone;
    [Init10bpp] writes the two 10-bit entries and nothing else. *)
Theorem C10_Init10bpp_registrations
    (LIBGAV1_MAX_BITDEPTH : Z) (t : Dispatch.DspTables) :
  10 <= LIBGAV1_MAX_BITDEPTH →
  Dispatch.film_grain
    (Dispatch.table10 (Dispatch.FilmGrainInit_SSE4_1 LIBGAV1_MAX_BITDEPTH t))
  = {| Dispatch.blend_noise_luma :=
         Some (Dispatch.BlendNoiseWithImageLuma_SSE4_1_fn 10 int16_t uint16_t);
       Dispatch.blend_noise_chroma :=
         ((Dispatch.blend_noise_chroma
             (Dispatch.film_grain (Dispatch.table10 t))).1,
          Some (Dispatch.BlendNoiseWithImageChromaWithCfl_SSE4_1_fn
                  10 int16_t uint16_t)) |} ∧
  Dispatch.distance_weighted_blend
    (Dispatch.table10 (Dispatch.FilmGrainInit_SSE4_1 LIBGAV1_MAX_BITDEPTH t))
  = Dispatch.distance_weighted_blend (Dispatch.table10 t) ∧
  (Dispatch.blend_noise_chroma
     (Dispatch.film_grain
        (Dispatch.table8
           (Dispatch.FilmGrainInit_SSE4_1 LIBGAV1_MAX_BITDEPTH t)))).1
  = Some Dispatch.BlendNoiseWithImageChroma8bpp_SSE4_1_fn ∧
  (Dispatch.blend_noise_chroma
     (Dispatch.film_grain
        (Dispatch.table8 (Dispatch.low_bitdepth.Init8bpp t)))).1
  = Some Dispatch.BlendNoiseWithImageChroma8bpp_SSE4_1_fn ∧
  Dispatch.table10 (Dispatch.low_bitdepth.Init8bpp t) = Dispatch.table10 t ∧
  Dispatch.film_grain
    (Dispatch.table10 (Dispatch.high_bitdepth.Init10bpp t))
  = {| Dispatch.blend_noise_luma :=
         Some (Dispatch.BlendNoiseWithImageLuma_SSE4_1_fn 10 int16_t uint16_t);
       Dispatch.blend_noise_chroma :=
         ((Dispatch.blend_noise_chroma
             (Dispatch.film_grain (Dispatch.table10 t))).1,
          Some (Dispatch.BlendNoiseWithImageChromaWithCfl_SSE4_1_fn
                  10 int16_t uint16_t)) |} ∧
  Dispatch.distance_weighted_blend
    (Dispatch.table10 (Dispatch.high_bitdepth.Init10bpp t))
  = Dispatch.distance_weighted_blend (Dispatch.table10 t) ∧
  Dispatch.table8 (Dispatch.high_bitdepth.Init10bpp t) = Dispatch.table8 t.
Proof.
  intros Hmax. unfold Dispatch.FilmGrainInit_SSE4_1.
  rewrite decide_True by done.
  destruct t as [t8 t10]. repeat split.
Qed.

Lemma C10_Init10bpp_registrations_witness :
  let empty := {| Dispatch.distance_weighted_blend := None;
                  Dispatch.film_grain :=
                    {| Dispatch.blend_noise_luma := None;
                       Dispatch.blend_noise_chroma :=
                         (Some (Dispatch.registered_elsewhere 7), None) |} |} in
  let t := {| Dispatch.table8 := empty; Dispatch.table10 := empty |} in
  Dispatch.film_grain (Dispatch.table10 (Dispatch.FilmGrainInit_SSE4_1 10 t))
  = {| Dispatch.blend_noise_luma :=
         Some (Dispatch.BlendNoiseWithImageLuma_SSE4_1_fn 10 int16_t uint16_t);
       Dispatch.blend_noise_chroma :=
         (Some (Dispatch.registered_elsewhere 7),
          Some (Dispatch.BlendNoiseWithImageChromaWithCfl_SSE4_1_fn
                  10 int16_t uint16_t)) |} ∧
  (Dispatch.blend_noise_chroma
     (Dispatch.film_grain
        (Dispatch.table8 (Dispatch.FilmGrainInit_SSE4_1 10 t)))).1
  = Some Dispatch.BlendNoiseWithImageChroma8bpp_SSE4_1_fn.
Proof.
  intros empty t.
  destruct (C10_Init10bpp_registrations 10 t ltac:(lia))
    as (H10 & _ & H8 & _).
  split; [exact H10 | exact H8].
Defined.

(** Built for bit depth 8 only, the initializer leaves the 10-bit table as
    it was. *)
Lemma FilmGrainInit_without_10bpp
    (LIBGAV1_MAX_BITDEPTH : Z) (t : Dispatch.DspTables) :
  LIBGAV1_MAX_BITDEPTH < 10 →
  Dispatch.table10 (Dispatch.FilmGrainInit_SSE4_1 LIBGAV1_MAX_BITDEPTH t)
  = Dispatch.table10 t.
Proof.
  intros Hmax. unfold Dispatch.FilmGrainInit_SSE4_1.
  rewrite decide_False by lia. by destruct t.
Qed.

(** A table whose 10-bit multiplier-mode slot is empty has it empty after
    the initializer, whereas the 8-bit slot is filled. *)
Example Init_chroma_slot_0 :
  let empty := {| Dispatch.distance_weighted_blend := None;
                  Dispatch.film_grain :=
                    {| Dispatch.blend_noise_luma := None;
                       Dispatch.blend_noise_chroma := (None, None) |} |} in
  let t := Dispatch.FilmGrainInit_SSE4_1 10
             {| Dispatch.table8 := empty; Dispatch.table10 := empty |} in
  (Dispatch.blend_noise_chroma (Dispatch.film_grain (Dispatch.table10 t))).1 = None ∧
  (Dispatch.blend_noise_chroma (Dispatch.film_grain (Dispatch.table8 t))).1
  = Some Dispatch.BlendNoiseWithImageChroma8bpp_SSE4_1_fn.
Proof. by vm_compute. Qed.

End Claims.

(** * Further properties of the two files *)

Module Extras.
Import NEON DistanceWeightedBlend BlendValues BlendFacts BlendKernelFacts.
Import SSE FilmGrain Lanes LaneFacts ScalarFacts.
Import GrainValues GrainKernelFacts GrainValueFacts.
Import ScalarRowFacts KernelFacts Calls.

(** ** The initializers *)

(** X1. [Init8bpp] of the film-grain file fills the three film-grain
    entries of the 8-bit table (luma, multiplier-mode chroma in slot 0,
    chroma-from-luma in slot 1) and touches nothing else: the blend entry of
    that table and the whole 10-bit table keep what they held. *)
Theorem Init8bpp_film_grain_registrations (t : Dispatch.DspTables) :
  Dispatch.film_grain (Dispatch.table8 (Dispatch.low_bitdepth.Init8bpp t))
  = {| Dispatch.blend_noise_luma :=
         Some (Dispatch.BlendNoiseWithImageLuma_SSE4_1_fn 8 int8_t uint8_t);
       Dispatch.blend_noise_chroma :=
         (Some Dispatch.BlendNoiseWithImageChroma8bpp_SSE4_1_fn,
          Some (Dispatch.BlendNoiseWithImageChromaWithCfl_SSE4_1_fn
                  8 int8_t uint8_t)) |} ∧
  Dispatch.distance_weighted_blend
    (Dispatch.table8 (Dispatch.low_bitdepth.Init8bpp t))
  = Dispatch.distance_weighted_blend (Dispatch.table8 t) ∧
  Dispatch.table10 (Dispatch.low_bitdepth.Init8bpp t) = Dispatch.table10 t.
Proof. destruct t as [t8 t10]. repeat split. Qed.

(** X2. [DistanceWeightedBlendInit_NEON] registers the blend for bit depth 8
    only: the film-grain entries of the 8-bit table and the whole 10-bit
    table are unchanged, so 10-bit blends never reach this kernel. *)
Theorem DistanceWeightedBlendInit_registration (t : Dispatch.DspTables) :
  Dispatch.distance_weighted_blend
    (Dispatch.table8 (Dispatch.DistanceWeightedBlendInit_NEON t))
  = Some Dispatch.DistanceWeightedBlend_NEON_fn ∧
  Dispatch.film_grain (Dispatch.table8 (Dispatch.DistanceWeightedBlendInit_NEON t))
  = Dispatch.film_grain (Dispatch.table8 t) ∧
  Dispatch.table10 (Dispatch.DistanceWeightedBlendInit_NEON t)
  = Dispatch.table10 t.
Proof. destruct t as [t8 t10]. repeat split. Qed.

(** X3. The two initializers write disjoint entries: running them in either
    order gives the same tables, and running one twice changes nothing
    more. *)
Theorem initializers_commute (max_bitdepth : Z) (t : Dispatch.DspTables) :
  Dispatch.DistanceWeightedBlendInit_NEON
    (Dispatch.FilmGrainInit_SSE4_1 max_bitdepth t)
  = Dispatch.FilmGrainInit_SSE4_1 max_bitdepth
      (Dispatch.DistanceWeightedBlendInit_NEON t) ∧
  Dispatch.FilmGrainInit_SSE4_1 max_bitdepth
    (Dispatch.FilmGrainInit_SSE4_1 max_bitdepth t)
  = Dispatch.FilmGrainInit_SSE4_1 max_bitdepth t ∧
  Dispatch.DistanceWeightedBlendInit_NEON
    (Dispatch.DistanceWeightedBlendInit_NEON t)
  = Dispatch.DistanceWeightedBlendInit_NEON t.
Proof.
  destruct t as [[b8 f8] [b10 f10]].
  unfold Dispatch.FilmGrainInit_SSE4_1. case_decide; repeat split.
Qed.

(** ** The distance-weighted blend *)

(** Two buffers of one length that read the same everywhere are equal. *)
Lemma list_eq_rd (l1 l2 : list Z) :
  length l1 = length l2 → (∀ q, rd l1 q = rd l2 q) → l1 = l2.
Proof.
  intros Hlen Hrd. apply list_eq_same_length with (n := length l1); [done..|].
  intros i x y Hi Hx Hy. specialize (Hrd (Z.of_nat i)).
  unfold rd in Hrd. rewrite !decide_True in Hrd by lia.
  rewrite Nat2Z.id, Hx, Hy in Hrd. exact Hrd.
Qed.

(** A cell of the block, or a cell outside every row of it. *)
Lemma in_block_dec (ds W h q : Z) :
  0 < ds → 0 <= W <= ds → 0 <= h →
  (∃ r c, 0 <= r < h ∧ 0 <= c < W ∧ q = r * ds + c) ∨
  (∀ r, 0 <= r < h → ¬ (r * ds <= q < r * ds + W)).
Proof.
  intros Hds HW Hh.
  destruct (decide (0 <= q `div` ds < h ∧ q `mod` ds < W)) as [[Hr Hc]|Hn].
  - left. exists (q `div` ds), (q `mod` ds).
    pose proof (Z.mod_pos_bound q ds Hds). pose proof (Z.div_mod q ds).
    split; [done|]. split; lia.
  - right. intros r Hr Hq. apply Hn.
    assert (q `div` ds = r) as Hd.
    { symmetry. apply (Z.div_unique_pos q ds r (q - r * ds)); lia. }
    assert (q `mod` ds = q - r * ds) as Hm.
    { symmetry. apply (Z.mod_unique_pos q ds r (q - r * ds)); lia. }
    lia.
Qed.

Lemma weighted_average_lane a b w0 w1 :
  is_s16 a → is_s16 b → is_u8 w0 → is_u8 w1 → w0 + w1 = 16 →
  sat_s16 ((wrap32 (wrap32 (wrap16 w0 * a) + wrap16 w1 * b)
            + 2 ^ (kInterPostRoundBit + 4 - 1))
           ≫ (kInterPostRoundBit + 4))
  = RightShiftWithRounding (a * w0 + b * w1) 8 ∧
  -2048 <= RightShiftWithRounding (a * w0 + b * w1) 8 <= 2048.
Proof.
  unfold is_s16, is_u8. intros Ha Hb H0 H1 Hsum.
  rewrite !wrap16_small by (unfold is_s16; lia).
  rewrite (wrap32_small (w0 * a)) by nia.
  rewrite wrap32_small by nia.
  rewrite RightShiftWithRounding_div by done.
  rewrite Z.shiftr_div_pow2 by done.
  change (kInterPostRoundBit + 4) with 8.
  change (2 ^ (8 - 1)) with 128. change (2 ^ 8) with 256.
  replace (w0 * a + w1 * b) with (a * w0 + b * w1) by lia.
  assert (-2048 <= (a * w0 + b * w1 + 128) `div` 256 <= 2048) as Hr.
  { split; [apply Z.div_le_lower_bound; nia|].
    apply Z.lt_succ_r, Z.div_lt_upper_bound; nia. }
  split; [|done]. unfold sat_s16. lia.
Qed.

(** X19. The arithmetic of [ComputeWeightedAverage8] is exact: for 16-bit
    predictors and weights that sum to 16 the 32-bit accumulator does not
    wrap and the saturating narrowing to 16 bits never saturates; every
    lane is the rounding shift of the exact sum and lies in
    [-2048, 2048]. *)
Theorem ComputeWeightedAverage8_exact pred0 pred1 w0 w1 :
  length pred0 = 8%nat → length pred1 = 8%nat →
  Forall is_s16 pred0 → Forall is_s16 pred1 →
  is_u8 w0 → is_u8 w1 → w0 + w1 = 16 →
  ComputeWeightedAverage8 pred0 pred1 (vdup_n_s16 w0, vdup_n_s16 w1)
  = zip_with (λ a b, RightShiftWithRounding (a * w0 + b * w1) 8) pred0 pred1 ∧
  Forall (λ v, -2048 <= v <= 2048)
         (ComputeWeightedAverage8 pred0 pred1 (vdup_n_s16 w0, vdup_n_s16 w1)).
Proof.
  intros L0 L1 F0 F1 H0 H1 Hsum.
  do 9 (destruct pred0 as [|? pred0]; try discriminate L0).
  do 9 (destruct pred1 as [|? pred1]; try discriminate L1).
  repeat match goal with H : Forall _ (_ :: _) |- _ =>
    apply Forall_cons in H; destruct H end.
  unfold ComputeWeightedAverage8, vqrshrn_n_s32, vmlal_s16,
    vmull_s16, vcombine_s16, vget_low_s16, vget_high_s16, vdup_n_s16.
  cbn [take drop replicate zip_with fmap list_fmap app fst snd].
  repeat match goal with
  | |- context [sat_s16 ((wrap32 (wrap32 (wrap16 w0 * ?a) + wrap16 w1 * ?b)
                          + _) ≫ _)] =>
      let E := fresh "E" in let B := fresh "B" in
      destruct (weighted_average_lane a b w0 w1) as [E B]; try done;
      rewrite E; clear E
  end.
  split; [done|]. repeat (apply Forall_cons; split; [done|]). apply Forall_nil_2.
Qed.

Lemma ComputeWeightedAverage8_exact_witness :
  ComputeWeightedAverage8
    [32767; -32768; 0; 1; -1; 255; 4080; -4080]
    [32767; -32768; 16; -8; 8; 0; 0; 4080]
    (vdup_n_s16 5, vdup_n_s16 11)
  = zip_with (λ a b, RightShiftWithRounding (a * 5 + b * 11) 8)
      [32767; -32768; 0; 1; -1; 255; 4080; -4080]
      [32767; -32768; 16; -8; 8; 0; 0; 4080] ∧
  Forall (λ v, -2048 <= v <= 2048)
    (ComputeWeightedAverage8
       [32767; -32768; 0; 1; -1; 255; 4080; -4080]
       [32767; -32768; 16; -8; 8; 0; 0; 4080]
       (vdup_n_s16 5, vdup_n_s16 11)).
Proof.
  apply (ComputeWeightedAverage8_exact
           [32767; -32768; 0; 1; -1; 255; 4080; -4080]
           [32767; -32768; 16; -8; 8; 0; 0; 4080] 5 11).
  - reflexivity.
  - reflexivity.
  - repeat constructor; unfold is_s16; lia.
  - repeat constructor; unfold is_s16; lia.
  - unfold is_u8. lia.
  - unfold is_u8. lia.
  - reflexivity.
Defined.

(** X4. The blend writes the block and nothing else: the destination keeps
    its length, and every sample outside the [width] columns of the
    [height] rows is what it was before the call. *)
Theorem blend_writes_only_the_block
    pred_0 s0 pred_1 s1 w0 w1 width height dest0 ds :
  supported width height →
  Forall is_s16 pred_0 → Forall is_s16 pred_1 → is_u8 w0 → is_u8 w1 →
  width <= ds → (height - 1) * ds + width <= Z.of_nat (length dest0) →
  ∃ dest',
    DistanceWeightedBlend_NEON pred_0 s0 pred_1 s1 w0 w1 width height dest0 ds
      = Some dest' ∧
    length dest' = length dest0 ∧
    ∀ q, (∀ y, 0 <= y < height → ¬ (y * ds <= q < y * ds + width)) →
      rd dest' q = rd dest0 q.
Proof.
  intros Hs Hp0 Hp1 Hw0 Hw1 Hds Hlen.
  destruct (DistanceWeightedBlend_NEON_rows pred_0 s0 pred_1 s1 w0 w1
              width height dest0 ds) as (dest' & -> & Hl & _ & Hframe & _);
    try done.
  by exists dest'.
Qed.

Lemma blend_writes_only_the_block_witness :
  ∃ dest',
    DistanceWeightedBlend_NEON (seqZ 0 64) 4 (seqZ 64 64) 4 3 13 4 8
                               (replicate 60 9) 8 = Some dest' ∧
    length dest' = length (replicate 60 9) ∧
    ∀ q, (∀ y, 0 <= y < 8 → ¬ (y * 8 <= q < y * 8 + 4)) →
      rd dest' q = rd (replicate 60 9) q.
Proof.
  apply (blend_writes_only_the_block (seqZ 0 64) 4 (seqZ 64 64) 4 3 13 4 8
           (replicate 60 9) 8).
  - left. split; [reflexivity|]. right. left. reflexivity.
  - apply Forall_forall. intros z Hz. apply elem_of_seqZ in Hz.
    unfold is_s16. lia.
  - apply Forall_forall. intros z Hz. apply elem_of_seqZ in Hz.
    unfold is_s16. lia.
  - unfold is_u8. lia.
  - unfold is_u8. lia.
  - lia.
  - by vm_compute.
Defined.

(** The rounding shift is monotone. *)
Lemma RightShiftWithRounding_mono a b bits :
  0 < bits → a <= b →
  RightShiftWithRounding a bits <= RightShiftWithRounding b bits.
Proof.
  intros Hb Hab. rewrite !RightShiftWithRounding_div by done.
  apply Z.div_le_mono; [|lia]. apply Z.pow_pos_nonneg; lia.
Qed.

Lemma sat_u8_mono a b : a <= b → sat_u8 a <= sat_u8 b.
Proof. unfold sat_u8. lia. Qed.

Lemma narrow_16 a :
  RightShiftWithRounding (a * 16) 8 = RightShiftWithRounding a 4.
Proof.
  rewrite !RightShiftWithRounding_div by done.
  change (2 ^ (8 - 1)) with (8 * 16). change (2 ^ 8) with (16 * 16).
  change (2 ^ (4 - 1)) with 8. change (2 ^ 4) with 16.
  replace (a * 16 + 8 * 16) with ((a + 8) * 16) by lia.
  by rewrite Z.div_mul_cancel_r by lia.
Qed.

(** One sample of the blend lies between the two narrowed predictors. *)
Lemma blend_sample_between a b w0 w1 :
  0 <= w0 → 0 <= w1 → w0 + w1 = 16 →
  Z.min (sat_u8 (RightShiftWithRounding a kInterPostRoundBit))
        (sat_u8 (RightShiftWithRounding b kInterPostRoundBit))
  <= blend_sample a b w0 w1
  <= Z.max (sat_u8 (RightShiftWithRounding a kInterPostRoundBit))
           (sat_u8 (RightShiftWithRounding b kInterPostRoundBit)).
Proof.
  intros H0 H1 Hsum. unfold blend_sample.
  change (kInterPostRoundBit + 4) with 8. change kInterPostRoundBit with 4.
  rewrite <-(narrow_16 a), <-(narrow_16 b).
  assert (Z.min a b * 16 <= a * w0 + b * w1 <= Z.max a b * 16) as [Hlo Hhi]
    by nia.
  apply (RightShiftWithRounding_mono _ _ 8 ltac:(lia)) in Hlo, Hhi.
  apply sat_u8_mono in Hlo, Hhi.
  destruct (Z.le_ge_cases a b).
  - rewrite Z.min_l, Z.max_r in *;
      try (apply sat_u8_mono, RightShiftWithRounding_mono; lia); try lia.
  - rewrite Z.min_r, Z.max_l in *;
      try (apply sat_u8_mono, RightShiftWithRounding_mono; lia); try lia.
Qed.

(** X5. With weights that sum to 16 the blend is a convex combination:
    every stored sample lies between the two predictors narrowed on their
    own (rounding-right-shifted by [kInterPostRoundBit] and saturated).  In
    particular two equal predictors give that predictor, whatever the
    weights. *)
Theorem blend_between_predictors
    pred_0 s0 pred_1 s1 w0 w1 width height dest0 ds :
  supported width height →
  Forall is_s16 pred_0 → Forall is_s16 pred_1 →
  is_u8 w0 → is_u8 w1 → w0 + w1 = 16 →
  width <= ds → (height - 1) * ds + width <= Z.of_nat (length dest0) →
  ∃ dest',
    DistanceWeightedBlend_NEON pred_0 s0 pred_1 s1 w0 w1 width height dest0 ds
      = Some dest' ∧
    ∀ x y, 0 <= x < width → 0 <= y < height →
      let r0 := sat_u8 (RightShiftWithRounding (rd pred_0 (y * s0 + x))
                                               kInterPostRoundBit) in
      let r1 := sat_u8 (RightShiftWithRounding (rd pred_1 (y * s1 + x))
                                               kInterPostRoundBit) in
      Z.min r0 r1 <= rd dest' (y * ds + x) <= Z.max r0 r1.
Proof.
  intros Hs Hp0 Hp1 Hw0 Hw1 Hsum Hds Hlen.
  destruct (DistanceWeightedBlend_NEON_rows pred_0 s0 pred_1 s1 w0 w1
              width height dest0 ds) as (dest' & -> & _ & Hval & _); try done.
  exists dest'. split; [done|]. intros x y Hx Hy. cbv zeta.
  rewrite Hval by done. unfold blend_val.
  unfold is_u8 in *. apply blend_sample_between; lia.
Qed.

Lemma blend_between_predictors_witness :
  ∃ dest',
    DistanceWeightedBlend_NEON (seqZ (-40) 128) 8 (seqZ 4000 128) 8 11 5 8 16
                               (replicate 128 0) 8 = Some dest' ∧
    ∀ x y, 0 <= x < 8 → 0 <= y < 16 →
      let r0 := sat_u8 (RightShiftWithRounding (rd (seqZ (-40) 128) (y * 8 + x))
                                               kInterPostRoundBit) in
      let r1 := sat_u8 (RightShiftWithRounding (rd (seqZ 4000 128) (y * 8 + x))
                                               kInterPostRoundBit) in
      Z.min r0 r1 <= rd dest' (y * 8 + x) <= Z.max r0 r1.
Proof.
  apply (blend_between_predictors (seqZ (-40) 128) 8 (seqZ 4000 128) 8 11 5
           8 16 (replicate 128 0) 8).
  - right. left. split; [reflexivity|]. right. right. left. reflexivity.
  - apply Forall_forall. intros z Hz. apply elem_of_seqZ in Hz.
    unfold is_s16. lia.
  - apply Forall_forall. intros z Hz. apply elem_of_seqZ in Hz.
    unfold is_s16. lia.
  - unfold is_u8. lia.
  - unfold is_u8. lia.
  - reflexivity.
  - lia.
  - by vm_compute.
Defined.

(** X6. The blend is symmetric: exchanging the two predictors together
    with their strides and weights gives the same destination buffer. *)
Theorem blend_symmetric
    pred_0 s0 pred_1 s1 w0 w1 width height dest0 ds :
  supported width height →
  Forall is_s16 pred_0 → Forall is_s16 pred_1 → is_u8 w0 → is_u8 w1 →
  width <= ds → (height - 1) * ds + width <= Z.of_nat (length dest0) →
  DistanceWeightedBlend_NEON pred_0 s0 pred_1 s1 w0 w1 width height dest0 ds
  = DistanceWeightedBlend_NEON pred_1 s1 pred_0 s0 w1 w0 width height dest0 ds.
Proof.
  intros Hs Hp0 Hp1 Hw0 Hw1 Hds Hlen.
  destruct (DistanceWeightedBlend_NEON_rows pred_0 s0 pred_1 s1 w0 w1
              width height dest0 ds) as (d1 & -> & Hl1 & Hv1 & Hf1 & _);
    try done.
  destruct (DistanceWeightedBlend_NEON_rows pred_1 s1 pred_0 s0 w1 w0
              width height dest0 ds) as (d2 & -> & Hl2 & Hv2 & Hf2 & _);
    try done.
  f_equal. apply list_eq_rd; [congruence|]. intros q.
  assert (0 < width ∧ 1 <= height) as [Hw Hh].
  { destruct Hs as [[-> ?]|[[-> ?]|(? & ? & ?)]]; lia. }
  destruct (in_block_dec ds width height q) as [(r & c & Hr & Hc & ->)|Hout];
    try lia.
  - rewrite Hv1, Hv2 by done. unfold blend_val, blend_sample.
    do 2 f_equal. lia.
  - by rewrite Hf1, Hf2.
Qed.

Lemma blend_symmetric_witness :
  DistanceWeightedBlend_NEON (seqZ 0 64) 16 (seqZ 500 64) 16 6 10 16 4
                             (replicate 64 1) 16
  = DistanceWeightedBlend_NEON (seqZ 500 64) 16 (seqZ 0 64) 16 10 6 16 4
                               (replicate 64 1) 16.
Proof.
  apply (blend_symmetric (seqZ 0 64) 16 (seqZ 500 64) 16 6 10 16 4
           (replicate 64 1) 16).
  - right. right. split; [lia|]. split; [reflexivity|lia].
  - apply Forall_forall. intros z Hz. apply elem_of_seqZ in Hz.
    unfold is_s16. lia.
  - apply Forall_forall. intros z Hz. apply elem_of_seqZ in Hz.
    unfold is_s16. lia.
  - unfold is_u8. lia.
  - unfold is_u8. lia.
  - lia.
  - by vm_compute.
Defined.

(** ** The film-grain kernels *)

(** X7. In chroma-from-luma mode every chroma sample stored by
    [BlendNoiseWithImageChromaWithCfl_SSE4_1] is
    [clip(chroma + round_multiply(noise, LUT(avg_luma) << (15 -
    chroma_scaling)), min, max)]: the LUT is indexed by the average of the
    co-located luma samples, never by the chroma sample, and past the last
    luma column the last valid luma sample stands in. *)
Theorem ChromaWithCfl_blend_formula
    bitdepth G P plane params noise_image min_value max_chroma
    width height start_height subsampling_x subsampling_y scaling_lut
    source_plane_y source_stride_y source_plane_uv source_stride_uv
    dest_plane_uv dest_stride_uv :
  Spec.instantiated bitdepth G P →
  subsampling_x = 0 ∨ subsampling_x = 1 →
  subsampling_x = 0 ∨ width `mod` 2 = 0
    ∨ chroma_width width subsampling_x `mod` 8 ≠ 0 →
  Forall is_u8 scaling_lut →
  Forall (Spec.valid_pixel bitdepth) source_plane_y →
  Forall (Spec.valid_pixel bitdepth) source_plane_uv →
  Forall (Spec.valid_grain bitdepth) (data (noise_image plane)) →
  8 <= chroma_scaling params <= 11 →
  0 <= min_value <= max_chroma → max_chroma < 2 ^ bitdepth →
  0 <= chroma_width width subsampling_x <= stride_in_pixels P dest_stride_uv →
  1 <= chroma_height height subsampling_y →
  (chroma_height height subsampling_y - 1) * (stride_in_pixels P dest_stride_uv)
    + chroma_width width subsampling_x <= Z.of_nat (length dest_plane_uv) →
  ∃ dest',
    BlendNoiseWithImageChromaWithCfl_SSE4_1 bitdepth G P plane params
      noise_image min_value max_chroma width height start_height
      subsampling_x subsampling_y scaling_lut
      source_plane_y source_stride_y source_plane_uv source_stride_uv
      dest_plane_uv dest_stride_uv = Some dest' ∧
    ∀ x y, 0 <= x < chroma_width width subsampling_x →
           0 <= y < chroma_height height subsampling_y →
      let chroma :=
        rd source_plane_uv (y * (stride_in_pixels P source_stride_uv) + x) in
      let luma k :=
        rd source_plane_y
           (y * ((stride_in_pixels P source_stride_y) ≪ subsampling_y)
            + Z.min k (width - 1)) in
      let avg_luma :=
        if decide (subsampling_x ≠ 0)
        then (luma (2 * x) + luma (2 * x + 1) + 1) ≫ 1 else luma x in
      let noise :=
        rd (data (noise_image plane))
           (row_of (noise_image plane) (y + start_height ≫ subsampling_y) + x) in
      rd dest' (y * (stride_in_pixels P dest_stride_uv) + x)
      = Clip3_scalar
          (chroma
           + Spec.round_multiply noise
               (Spec.LUT bitdepth scaling_lut avg_luma
                ≪ (15 - chroma_scaling params)))
          min_value max_chroma.
Proof.
  intros Hi Hs Hodd Hlut Hy Huv Hn Hsh Hmm Hmax Hw Hh Hlen.
  unfold BlendNoiseWithImageChromaWithCfl_SSE4_1.
  destruct (ChromaWithCfl_samples bitdepth G P (noise_image plane) min_value
              max_chroma width height start_height subsampling_x subsampling_y
              (chroma_scaling params) scaling_lut
              source_plane_y (stride_in_pixels P source_stride_y)
              source_plane_uv (stride_in_pixels P source_stride_uv)
              (stride_in_pixels P dest_stride_uv) dest_plane_uv)
    as (dest' & -> & Hval); try done.
  exists dest'. split; [done|]. intros x y Hx Hy'. by apply Hval.
Qed.

Lemma ChromaWithCfl_blend_formula_witness :
  ∃ dest',
    BlendNoiseWithImageChromaWithCfl_SSE4_1 10 int16_t uint16_t kPlaneV
      Inputs.C3_params
      (λ _, {| columns := 8; data := [511; -512; 7; 0; 0; 0; 0; 0] |})
      64 960 6 2 0 1 1 (replicate 257 100)
      [64; 1023; 500; 501; 0; 940; 0; 0; 1; 2; 3; 4; 5; 6; 0; 0] 16
      [512; 64; 960; 0; 0; 0; 0; 0] 16 (replicate 8 0) 16 = Some dest' ∧
    ∀ x y, 0 <= x < chroma_width 6 1 → 0 <= y < chroma_height 2 1 →
      let chroma :=
        rd [512; 64; 960; 0; 0; 0; 0; 0] (y * (stride_in_pixels uint16_t 16) + x) in
      let luma k :=
        rd [64; 1023; 500; 501; 0; 940; 0; 0; 1; 2; 3; 4; 5; 6; 0; 0]
           (y * ((stride_in_pixels uint16_t 16) ≪ 1) + Z.min k (6 - 1)) in
      let avg_luma :=
        if decide (1 ≠ 0)
        then (luma (2 * x) + luma (2 * x + 1) + 1) ≫ 1 else luma x in
      let noise :=
        rd (data {| columns := 8; data := [511; -512; 7; 0; 0; 0; 0; 0] |})
           (row_of {| columns := 8; data := [511; -512; 7; 0; 0; 0; 0; 0] |}
                   (y + 0 ≫ 1) + x) in
      rd dest' (y * (stride_in_pixels uint16_t 16) + x)
      = Clip3_scalar
          (chroma
           + Spec.round_multiply noise
               (Spec.LUT 10 (replicate 257 100) avg_luma
                ≪ (15 - chroma_scaling Inputs.C3_params)))
          64 960.
Proof.
  apply (ChromaWithCfl_blend_formula 10 int16_t uint16_t kPlaneV
           Inputs.C3_params
           (λ _, {| columns := 8; data := [511; -512; 7; 0; 0; 0; 0; 0] |})
           64 960 6 2 0 1 1 (replicate 257 100)
           [64; 1023; 500; 501; 0; 940; 0; 0; 1; 2; 3; 4; 5; 6; 0; 0] 16
           [512; 64; 960; 0; 0; 0; 0; 0] 16 (replicate 8 0) 16).
  - right. repeat split.
  - by right.
  - right. by left.
  - apply Forall_replicate. unfold is_u8. lia.
  - repeat constructor; unfold Spec.valid_pixel; simpl; lia.
  - repeat constructor; unfold Spec.valid_pixel; simpl; lia.
  - repeat constructor; unfold Spec.valid_grain; simpl; lia.
  - by vm_compute.
  - lia.
  - by vm_compute.
  - by vm_compute.
  - by vm_compute.
  - by vm_compute.
Defined.

(** X8. The multiplier-mode kernel copies the right edge of the chroma row
    into an eight-byte stack buffer that it does not initialise.  Whatever
    that buffer held, the valid columns of the result are the same: the
    uninitialised bytes only reach the lanes stored past the chroma
    width. *)
Theorem Chroma8bpp_valid_columns_ignore_stack
    plane params noise_image min_value max_chroma width height start_height
    subsampling_x subsampling_y scaling_lut source_plane_y source_stride_y
    source_plane_uv source_stride_uv dest_plane_uv dest_stride_uv
    (stack1 stack2 : Z → list Z) :
  0 <= chroma_width width subsampling_x <= dest_stride_uv →
  1 <= chroma_height height subsampling_y →
  (chroma_height height subsampling_y - 1) * dest_stride_uv
    + chroma_width width subsampling_x <= Z.of_nat (length dest_plane_uv) →
  ∃ dest1 dest2,
    BlendNoiseWithImageChroma8bpp_SSE4_1 plane params noise_image
      min_value max_chroma width height start_height subsampling_x subsampling_y
      scaling_lut source_plane_y source_stride_y source_plane_uv source_stride_uv
      dest_plane_uv dest_stride_uv stack1 = Some dest1 ∧
    BlendNoiseWithImageChroma8bpp_SSE4_1 plane params noise_image
      min_value max_chroma width height start_height subsampling_x subsampling_y
      scaling_lut source_plane_y source_stride_y source_plane_uv source_stride_uv
      dest_plane_uv dest_stride_uv stack2 = Some dest2 ∧
    ∀ x y, 0 <= x < chroma_width width subsampling_x →
           0 <= y < chroma_height height subsampling_y →
      rd dest1 (y * dest_stride_uv + x) = rd dest2 (y * dest_stride_uv + x).
Proof.
  intros Hw Hh Hlen. rewrite !Chroma8bpp_plane.
  pose proof (row_span_ge (chroma_width width subsampling_x)) as Hspan.
  destruct (BlendChromaPlane8bpp_rows (noise_image plane) min_value max_chroma
              width height start_height subsampling_x subsampling_y
              (chroma_scaling params)
              (Spec.chroma_triple plane params).1.1
              (Spec.chroma_triple plane params).2
              (Spec.chroma_triple plane params).1.2
              scaling_lut source_plane_y source_stride_y source_plane_uv
              source_stride_uv dest_stride_uv stack1 dest_plane_uv
              (chroma_width width subsampling_x))
    as (d1 & -> & _ & Hv1 & _); try done; try lia.
  destruct (BlendChromaPlane8bpp_rows (noise_image plane) min_value max_chroma
              width height start_height subsampling_x subsampling_y
              (chroma_scaling params)
              (Spec.chroma_triple plane params).1.1
              (Spec.chroma_triple plane params).2
              (Spec.chroma_triple plane params).1.2
              scaling_lut source_plane_y source_stride_y source_plane_uv
              source_stride_uv dest_stride_uv stack2 dest_plane_uv
              (chroma_width width subsampling_x))
    as (d2 & -> & _ & Hv2 & _); try done; try lia.
  exists d1, d2. split; [done|]. split; [done|]. intros x y Hx Hy.
  rewrite Hv1, Hv2 by done. by rewrite !nocfl_val_valid by done.
Qed.

Lemma Chroma8bpp_valid_columns_ignore_stack_witness :
  ∃ dest1 dest2,
    BlendNoiseWithImageChroma8bpp_SSE4_1 kPlaneU Inputs.C3_params
      Inputs.C3_noise 16 240 11 2 0 1 1 (seqZ 0 256) Inputs.C3_luma 16
      Inputs.C3_chroma 8 (replicate 8 7) 8 (λ _, []) = Some dest1 ∧
    BlendNoiseWithImageChroma8bpp_SSE4_1 kPlaneU Inputs.C3_params
      Inputs.C3_noise 16 240 11 2 0 1 1 (seqZ 0 256) Inputs.C3_luma 16
      Inputs.C3_chroma 8 (replicate 8 7) 8 (λ y, replicate 8 (200 + y))
      = Some dest2 ∧
    ∀ x y, 0 <= x < chroma_width 11 1 → 0 <= y < chroma_height 2 1 →
      rd dest1 (y * 8 + x) = rd dest2 (y * 8 + x).
Proof.
  apply (Chroma8bpp_valid_columns_ignore_stack kPlaneU Inputs.C3_params
           Inputs.C3_noise 16 240 11 2 0 1 1 (seqZ 0 256) Inputs.C3_luma 16
           Inputs.C3_chroma 8 (replicate 8 7) 8
           (λ _, []) (λ y, replicate 8 (200 + y))).
  - by vm_compute.
  - by vm_compute.
  - by vm_compute.
Defined.

(** The stack buffer does reach the result: the lanes past the chroma
    width differ with it. *)
Example Chroma8bpp_stack_reaches_padding :
  BlendNoiseWithImageChroma8bpp_SSE4_1 kPlaneU Inputs.C3_params
    Inputs.C3_noise 16 240 11 2 0 1 1 (seqZ 0 256) Inputs.C3_luma 16
    Inputs.C3_chroma 8 (replicate 8 7) 8 (λ _, [])
  ≠ BlendNoiseWithImageChroma8bpp_SSE4_1 kPlaneU Inputs.C3_params
      Inputs.C3_noise 16 240 11 2 0 1 1 (seqZ 0 256) Inputs.C3_luma 16
      Inputs.C3_chroma 8 (replicate 8 7) 8 (λ y, replicate 8 (200 + y)).
Proof. by vm_compute. Qed.

(** X9. With horizontal subsampling and a luma width of [16k + 15] the
    chroma width is a multiple of 8, so the multiplier-mode kernel runs no
    right-edge block: the last chroma column of every row is computed from
    the average of the last luma sample and the element that follows it in
    the luma buffer, [in_y_row[width]], which lies outside the row. *)
Theorem Chroma8bpp_last_column_reads_past_luma_row
    plane params noise_image min_value max_chroma width height start_height
    subsampling_y scaling_lut source_plane_y source_stride_y
    source_plane_uv source_stride_uv dest_plane_uv dest_stride_uv stack :
  valid_inputs
    (CallChroma8bpp plane params noise_image min_value max_chroma width height
       start_height 1 subsampling_y scaling_lut source_plane_y source_stride_y
       source_plane_uv source_stride_uv dest_plane_uv dest_stride_uv stack) →
  0 < width → width `mod` 16 = 15 →
  ∃ dest',
    BlendNoiseWithImageChroma8bpp_SSE4_1 plane params noise_image
      min_value max_chroma width height start_height 1 subsampling_y
      scaling_lut source_plane_y source_stride_y source_plane_uv source_stride_uv
      dest_plane_uv dest_stride_uv stack = Some dest' ∧
    ∀ y, 0 <= y < chroma_height height subsampling_y →
      let x := chroma_width width 1 - 1 in
      let in_y_row := y * (source_stride_y ≪ subsampling_y) in
      let avg_luma :=
        (rd source_plane_y (in_y_row + (width - 1))
         + rd source_plane_y (in_y_row + width) + 1) ≫ 1 in
      let chroma := rd source_plane_uv (y * source_stride_uv + x) in
      let noise :=
        rd (data (noise_image plane))
           (row_of (noise_image plane) (y + start_height ≫ subsampling_y) + x) in
      rd dest' (y * dest_stride_uv + x)
      = Spec.grain_sample 8 scaling_lut (chroma_scaling params)
          min_value max_chroma chroma
          (Spec.merged avg_luma chroma
             (Spec.chroma_triple plane params).1.2
             (Spec.chroma_triple plane params).2
             (Spec.chroma_triple plane params).1.1)
          noise.
Proof.
  intros [Hwf Hin] Hpos Hmod.
  unfold well_formed in Hwf. cbn [block pixel_range bit_depth destination] in Hwf.
  destruct Hwf as (Hw & Hh & Hlen & Hmm & Hmx & _).
  destruct Hin as (Hlut & Hsh & _ & Hsy & Hsuv & Hnoise & Hlm & Hm & Hoff).
  rewrite Chroma8bpp_plane.
  destruct (Chroma8bpp_samples (noise_image plane) min_value max_chroma width
              height start_height 1 subsampling_y (chroma_scaling params)
              (Spec.chroma_triple plane params).1.1
              (Spec.chroma_triple plane params).2
              (Spec.chroma_triple plane params).1.2
              scaling_lut source_plane_y source_stride_y source_plane_uv
              source_stride_uv dest_stride_uv stack dest_plane_uv)
    as (dest' & -> & Hval); try done;
    try (change (2 ^ 8) with 256 in Hmx; lia).
  exists dest'. split; [done|]. intros y Hy. cbv zeta.
  assert (chroma_width width 1 = (width + 1) `div` 2) as Hcw.
  { unfold chroma_width. by rewrite Z.shiftr_div_pow2 by lia. }
  pose proof (Z.div_mod width 16 ltac:(lia)) as Hdm.
  assert ((width + 1) `div` 2 = 8 * (width `div` 16) + 8) as Hhalf.
  { symmetry. apply (Z.div_unique_pos _ 2 _ 0); lia. }
  rewrite Hval by (rewrite ?Hcw, ?Hhalf; lia).
  f_equal. f_equal.
  unfold kernel_average_luma, block_val. rewrite Hcw, Hhalf.
  set (k := width `div` 16) in *.
  assert ((8 * k + 8) `div` 8 = k + 1) as ->.
  { symmetry. apply (Z.div_unique_pos _ 8 _ 0); lia. }
  assert ((8 * k + 8 - 1) `div` 8 = k) as Hq.
  { symmetry. apply (Z.div_unique_pos _ 8 _ 7); lia. }
  assert ((8 * k + 8 - 1) `mod` 8 = 7) as Hr.
  { symmetry. apply (Z.mod_unique_pos _ 8 k 7); lia. }
  rewrite decide_True by lia. rewrite Hq, Hr.
  unfold average_luma_lane. rewrite decide_True by done.
  rewrite average_lane_typed by (by apply (typed_pixel_rd uint8_t)).
  unfold luma_row. rewrite (Z.shiftl_mul_pow2 _ 1) by lia. change (2 ^ 1) with 2.
  set (row := y * source_stride_y ≪ subsampling_y).
  replace (row + 8 * k * 2 + 2 * 7) with (row + (width - 1)) by lia.
  replace (row + 8 * k * 2 + (2 * 7 + 1)) with (row + width) by lia.
  reflexivity.
Qed.

Lemma Chroma8bpp_last_column_reads_past_luma_row_witness :
  ∃ dest',
    BlendNoiseWithImageChroma8bpp_SSE4_1 kPlaneU Inputs.C3_params
      (λ _, {| columns := 8; data := [0; 0; 0; 0; 0; 0; 0; 100] |})
      0 255 15 1 0 1 0 (seqZ 0 256)
      ([10; 20; 30; 40; 50; 60; 70; 80; 90; 100; 110; 120; 130; 140; 150]
         ++ [0])
      16 [200; 100; 50; 25; 255; 0; 0; 77] 8 (replicate 8 7) 8 (λ _, [])
    = Some dest' ∧
    ∀ y, 0 <= y < chroma_height 1 0 →
      let x := chroma_width 15 1 - 1 in
      let in_y_row := y * (16 ≪ 0) in
      let avg_luma :=
        (rd ([10; 20; 30; 40; 50; 60; 70; 80; 90; 100; 110; 120; 130; 140; 150]
               ++ [0]) (in_y_row + (15 - 1))
         + rd ([10; 20; 30; 40; 50; 60; 70; 80; 90; 100; 110; 120; 130; 140; 150]
                 ++ [0]) (in_y_row + 15) + 1) ≫ 1 in
      let chroma := rd [200; 100; 50; 25; 255; 0; 0; 77] (y * 8 + x) in
      let noise :=
        rd (data {| columns := 8; data := [0; 0; 0; 0; 0; 0; 0; 100] |})
           (row_of {| columns := 8; data := [0; 0; 0; 0; 0; 0; 0; 100] |}
                   (y + 0 ≫ 0) + x) in
      rd dest' (y * 8 + x)
      = Spec.grain_sample 8 (seqZ 0 256) (chroma_scaling Inputs.C3_params)
          0 255 chroma
          (Spec.merged avg_luma chroma
             (Spec.chroma_triple kPlaneU Inputs.C3_params).1.2
             (Spec.chroma_triple kPlaneU Inputs.C3_params).2
             (Spec.chroma_triple kPlaneU Inputs.C3_params).1.1)
          noise.
Proof.
  apply (Chroma8bpp_last_column_reads_past_luma_row kPlaneU Inputs.C3_params
           (λ _, {| columns := 8; data := [0; 0; 0; 0; 0; 0; 0; 100] |})
           0 255 15 1 0 0 (seqZ 0 256)
           ([10; 20; 30; 40; 50; 60; 70; 80; 90; 100; 110; 120; 130; 140; 150]
              ++ [0])
           16 [200; 100; 50; 25; 255; 0; 0; 77] 8 (replicate 8 7) 8 (λ _, [])).
  - split.
    + unfold well_formed.
      cbn [block pixel_range bit_depth destination].
      repeat split; by vm_compute.
    + split_and!; try (by vm_compute).
      * apply Forall_forall. intros z Hz. apply elem_of_seqZ in Hz.
        unfold is_u8. lia.
      * by right.
      * repeat constructor; unfold is_u8; lia.
      * repeat constructor; unfold is_u8; lia.
      * repeat constructor; unfold is_s8; simpl; lia.
  - lia.
  - by vm_compute.
Defined.

Lemma round_multiply_0_l s : Spec.round_multiply 0 s = 0.
Proof. reflexivity. Qed.

Lemma round_multiply_0_r n : Spec.round_multiply n 0 = 0.
Proof. unfold Spec.round_multiply. by rewrite Z.mul_0_r. Qed.

Lemma rd_all_zero l p : Forall (λ v, v = 0) l → rd l p = 0.
Proof. intros H. by apply (Forall_rd (λ v, v = 0)). Qed.

Lemma LUT_all_zero bitdepth lut c :
  Forall (λ v, v = 0) lut → Spec.LUT bitdepth lut c = 0.
Proof.
  intros H. unfold Spec.LUT. case_decide; rewrite ?rd_all_zero by done; done.
Qed.

(** X10. Without grain the luma kernel only clips: when every grain sample
    is zero, or every entry of the scaling table is zero, each stored
    sample is the source sample clipped to [min, max], hence the source
    sample itself when it lies in that range. *)
Theorem Luma_without_grain_is_clip
    bitdepth G P noise_image min_value max_luma scaling_shift
    width height start_height scaling_lut_y
    source_plane_y source_stride_y dest_plane_y dest_stride_y :
  Spec.instantiated bitdepth G P →
  Forall (λ n, n = 0) (data (noise_image kPlaneY))
    ∨ Forall (λ s, s = 0) scaling_lut_y →
  Forall is_u8 scaling_lut_y →
  Forall (Spec.valid_pixel bitdepth) source_plane_y →
  Forall (Spec.valid_grain bitdepth) (data (noise_image kPlaneY)) →
  8 <= scaling_shift <= 11 →
  0 <= min_value <= max_luma → max_luma < 2 ^ bitdepth →
  0 <= width <= stride_in_pixels P dest_stride_y → 1 <= height →
  (height - 1) * (stride_in_pixels P dest_stride_y) + width
    <= Z.of_nat (length dest_plane_y) →
  ∃ dest',
    BlendNoiseWithImageLuma_SSE4_1 bitdepth G P noise_image
      min_value max_luma scaling_shift width height start_height scaling_lut_y
      source_plane_y source_stride_y dest_plane_y dest_stride_y = Some dest' ∧
    ∀ x y, 0 <= x < width → 0 <= y < height →
      let sample :=
        rd source_plane_y (y * (stride_in_pixels P source_stride_y) + x) in
      rd dest' (y * (stride_in_pixels P dest_stride_y) + x)
      = Clip3_scalar sample min_value max_luma ∧
      (min_value <= sample <= max_luma →
       rd dest' (y * (stride_in_pixels P dest_stride_y) + x) = sample).
Proof.
  intros Hi Hzero Hlut Hsrc Hnoise Hsh Hmm Hmax Hw Hh Hlen.
  destruct (Luma_samples bitdepth G P noise_image min_value max_luma
              scaling_shift width height start_height scaling_lut_y
              source_plane_y source_stride_y dest_plane_y dest_stride_y)
    as (dest' & Hrun & Hval); try done.
  exists dest'. split; [done|]. intros x y Hx Hy. cbv zeta.
  rewrite Hval by done. unfold Spec.grain_sample.
  assert (∀ n c, (n = 0 ∨ Spec.LUT bitdepth scaling_lut_y c = 0) →
            Spec.round_multiply n
              (Spec.LUT bitdepth scaling_lut_y c ≪ (15 - scaling_shift)) = 0)
    as Hrm.
  { intros n c [-> | ->]; [apply round_multiply_0_l|].
    rewrite Z.shiftl_0_l. apply round_multiply_0_r. }
  rewrite Hrm, Z.add_0_r.
  - split; [done|]. intros ?. unfold Clip3_scalar.
    rewrite !decide_False by lia. done.
  - destruct Hzero as [Hz|Hz]; [left; by apply rd_all_zero|].
    right. by apply LUT_all_zero.
Qed.

Lemma Luma_without_grain_is_clip_witness :
  ∃ dest',
    BlendNoiseWithImageLuma_SSE4_1 8 int8_t uint8_t
      (λ _, {| columns := 16; data := replicate 16 0 |})
      16 235 8 11 1 0 (seqZ 0 256)
      [0; 255; 16; 240; 128; 1; 2; 3; 250; 251; 252] 16
      (replicate 16 0) 16 = Some dest' ∧
    ∀ x y, 0 <= x < 11 → 0 <= y < 1 →
      let sample :=
        rd [0; 255; 16; 240; 128; 1; 2; 3; 250; 251; 252]
           (y * (stride_in_pixels uint8_t 16) + x) in
      rd dest' (y * (stride_in_pixels uint8_t 16) + x)
      = Clip3_scalar sample 16 235 ∧
      (16 <= sample <= 235 →
       rd dest' (y * (stride_in_pixels uint8_t 16) + x) = sample).
Proof.
  apply (Luma_without_grain_is_clip 8 int8_t uint8_t
           (λ _, {| columns := 16; data := replicate 16 0 |})
           16 235 8 11 1 0 (seqZ 0 256)
           [0; 255; 16; 240; 128; 1; 2; 3; 250; 251; 252] 16
           (replicate 16 0) 16).
  - left. repeat split.
  - left. by apply Forall_replicate.
  - apply Forall_forall. intros z Hz. apply elem_of_seqZ in Hz.
    unfold is_u8. lia.
  - repeat constructor; unfold Spec.valid_pixel; simpl; lia.
  - apply Forall_replicate. unfold Spec.valid_grain. simpl. lia.
  - lia.
  - lia.
  - by vm_compute.
  - by vm_compute.
  - lia.
  - by vm_compute.
Defined.

(** A Q15 multiply by a factor of at most one never grows its operand. *)
Lemma round_multiply_le_abs n s :
  0 <= s <= 32768 → Z.abs (Spec.round_multiply n s) <= Z.abs n.
Proof.
  intros Hs. unfold Spec.round_multiply.
  rewrite RightShiftWithRounding_div by done.
  change (2 ^ (15 - 1)) with 16384. change (2 ^ 15) with 32768.
  destruct (Z.le_gt_cases 0 n) as [Hn|Hn].
  - assert (0 <= (n * s + 16384) `div` 32768 <= n).
    { split; [apply Z.div_pos; nia|].
      apply Z.lt_succ_r, Z.div_lt_upper_bound; nia. }
    lia.
  - assert (n <= (n * s + 16384) `div` 32768 <= 0).
    { split; [apply Z.div_le_lower_bound; nia|].
      apply Z.lt_succ_r, Z.div_lt_upper_bound; nia. }
    lia.
Qed.

Lemma shifted_scale_bound bitdepth lut c scaling_shift :
  Forall is_u8 lut → 8 <= scaling_shift <= 11 →
  0 <= Spec.LUT bitdepth lut c ≪ (15 - scaling_shift) <= 32768.
Proof.
  intros Hlut Hsh. pose proof (LUT_u8 bitdepth lut c Hlut) as Hu.
  unfold is_u8 in Hu. rewrite Z.shiftl_mul_pow2 by lia.
  assert (16 <= 2 ^ (15 - scaling_shift) <= 128).
  { assert (scaling_shift = 8 ∨ scaling_shift = 9 ∨ scaling_shift = 10
            ∨ scaling_shift = 11) as [->|[->|[->| ->]]] by lia; simpl; lia. }
  nia.
Qed.

(** X11. The grain moves a luma sample by no more than its own magnitude:
    for a source sample inside [min, max] the stored sample differs from it
    by at most [|noise|], whatever the scaling table holds. *)
Theorem Luma_change_bounded_by_grain
    bitdepth G P noise_image min_value max_luma scaling_shift
    width height start_height scaling_lut_y
    source_plane_y source_stride_y dest_plane_y dest_stride_y :
  Spec.instantiated bitdepth G P →
  Forall is_u8 scaling_lut_y →
  Forall (Spec.valid_pixel bitdepth) source_plane_y →
  Forall (Spec.valid_grain bitdepth) (data (noise_image kPlaneY)) →
  8 <= scaling_shift <= 11 →
  0 <= min_value <= max_luma → max_luma < 2 ^ bitdepth →
  0 <= width <= stride_in_pixels P dest_stride_y → 1 <= height →
  (height - 1) * (stride_in_pixels P dest_stride_y) + width
    <= Z.of_nat (length dest_plane_y) →
  ∃ dest',
    BlendNoiseWithImageLuma_SSE4_1 bitdepth G P noise_image
      min_value max_luma scaling_shift width height start_height scaling_lut_y
      source_plane_y source_stride_y dest_plane_y dest_stride_y = Some dest' ∧
    ∀ x y, 0 <= x < width → 0 <= y < height →
      let sample :=
        rd source_plane_y (y * (stride_in_pixels P source_stride_y) + x) in
      let noise :=
        rd (data (noise_image kPlaneY))
           (row_of (noise_image kPlaneY) (y + start_height) + x) in
      min_value <= sample <= max_luma →
      Z.abs (rd dest' (y * (stride_in_pixels P dest_stride_y) + x) - sample)
      <= Z.abs noise.
Proof.
  intros Hi Hlut Hsrc Hnoise Hsh Hmm Hmax Hw Hh Hlen.
  destruct (Luma_samples bitdepth G P noise_image min_value max_luma
              scaling_shift width height start_height scaling_lut_y
              source_plane_y source_stride_y dest_plane_y dest_stride_y)
    as (dest' & Hrun & Hval); try done.
  exists dest'. split; [done|]. intros x y Hx Hy. cbv zeta. intros Hin.
  rewrite Hval by done. unfold Spec.grain_sample.
  match goal with
  | |- context [Spec.round_multiply ?n ?s] =>
      pose proof (round_multiply_le_abs n s
                    (shifted_scale_bound bitdepth scaling_lut_y _ scaling_shift
                       Hlut Hsh)) as Hb;
      generalize dependent (Spec.round_multiply n s)
  end.
  intros r Hb. unfold Clip3_scalar. repeat case_decide; lia.
Qed.

Lemma Luma_change_bounded_by_grain_witness :
  ∃ dest',
    BlendNoiseWithImageLuma_SSE4_1 8 int8_t uint8_t Inputs.C2_noise
      16 235 8 11 1 0 (replicate 256 200)
      [0; 255; 16; 240; 128; 1; 2; 3; 250; 251; 252] 16
      (replicate 16 0) 16 = Some dest' ∧
    ∀ x y, 0 <= x < 11 → 0 <= y < 1 →
      let sample :=
        rd [0; 255; 16; 240; 128; 1; 2; 3; 250; 251; 252]
           (y * (stride_in_pixels uint8_t 16) + x) in
      let noise :=
        rd (data (Inputs.C2_noise kPlaneY))
           (row_of (Inputs.C2_noise kPlaneY) (y + 0) + x) in
      16 <= sample <= 235 →
      Z.abs (rd dest' (y * (stride_in_pixels uint8_t 16) + x) - sample)
      <= Z.abs noise.
Proof.
  apply (Luma_change_bounded_by_grain 8 int8_t uint8_t Inputs.C2_noise
           16 235 8 11 1 0 (replicate 256 200)
           [0; 255; 16; 240; 128; 1; 2; 3; 250; 251; 252] 16
           (replicate 16 0) 16).
  - left. repeat split.
  - apply Forall_replicate. unfold is_u8. lia.
  - repeat constructor; unfold Spec.valid_pixel; simpl; lia.
  - repeat constructor; unfold Spec.valid_grain; simpl; lia.
  - lia.
  - lia.
  - by vm_compute.
  - by vm_compute.
  - lia.
  - by vm_compute.
Defined.

(** X12. For bit depths above 8 a scaling factor is interpolated between
    two neighbouring table entries and never leaves the interval they
    span, so it is a byte like the entries. *)
Theorem GetScalingFactors_between_entries bitdepth P scaling_lut source p i :
  bitdepth ≠ 8 → Forall is_u8 scaling_lut → 0 <= i < 8 →
  ∃ v,
    GetScalingFactors bitdepth P scaling_lut source p !! Z.to_nat i = Some v ∧
    let start := rd scaling_lut (rd source (p + i) ≫ 2) in
    let end_ := rd scaling_lut (rd source (p + i) ≫ 2 + 1) in
    Z.min start end_ <= v <= Z.max start end_ ∧ is_u8 v.
Proof.
  intros Hb Hlut Hi.
  rewrite GetScalingFactors_lanes, lookup_tab by done.
  eexists. split; [reflexivity|]. cbv zeta.
  rewrite scaling_lane_LUT by done.
  split; [|by apply LUT_u8].
  unfold Spec.LUT. rewrite decide_False by done.
  set (c := rd source (p + i)).
  pose proof (rd_lut_u8 scaling_lut (c ≫ 2) Hlut) as H0.
  pose proof (rd_lut_u8 scaling_lut (c ≫ 2 + 1) Hlut) as H1.
  assert (Z.land c 3 = c `mod` 4) as ->
    by (apply (Z.land_ones c 2); lia).
  pose proof (Z.mod_pos_bound c 4 ltac:(lia)).
  pose proof (interpolation_bound
                (rd scaling_lut (c ≫ 2 + 1) - rd scaling_lut (c ≫ 2))
                (c `mod` 4)) as Hint.
  unfold is_u8 in *. lia.
Qed.

Lemma GetScalingFactors_between_entries_witness :
  ∃ v,
    GetScalingFactors 10 uint16_t ((λ k, 255 - k) <$> seqZ 0 256)
      [4; 5; 6; 7; 8; 9; 10; 1023] 0 !! Z.to_nat 7 = Some v ∧
    let start :=
      rd ((λ k, 255 - k) <$> seqZ 0 256)
         (rd [4; 5; 6; 7; 8; 9; 10; 1023] (0 + 7) ≫ 2) in
    let end_ :=
      rd ((λ k, 255 - k) <$> seqZ 0 256)
         (rd [4; 5; 6; 7; 8; 9; 10; 1023] (0 + 7) ≫ 2 + 1) in
    Z.min start end_ <= v <= Z.max start end_ ∧ is_u8 v.
Proof.
  apply (GetScalingFactors_between_entries 10 uint16_t
           ((λ k, 255 - k) <$> seqZ 0 256) [4; 5; 6; 7; 8; 9; 10; 1023] 0 7).
  - lia.
  - apply Forall_fmap, Forall_forall. intros z Hz. apply elem_of_seqZ in Hz.
    unfold is_u8. simpl. lia.
  - lia.
Defined.

Lemma list8_tab (v : list Z) :
  length v = 8%nat → v = (λ i, rd v i) <$> seqZ 0 8.
Proof.
  intros Hl. do 9 (destruct v as [|? v]; try discriminate Hl). reflexivity.
Qed.

Lemma pixel_store_lane P x :
  Spec.typed_pixel P x → pixel_lane P (store_lane P x) = x.
Proof.
  destruct P; simpl; unfold is_u8; intros Hx.
  - rewrite sat_u8_small by done. by apply zext8_small.
  - rewrite zext16_small by (unfold is_u16; lia).
    apply wrap16_small. unfold is_s16. lia.
Qed.

(** X13. [StoreUnsigned] followed by [LoadSource] at the same place gives
    back the eight lanes, for lanes that are pixels of the type: the
    narrowing of the store and the widening of the load are inverse on
    them. *)
Theorem LoadSource_StoreUnsigned P (dest : list Z) (p : Z) (v : list Z) :
  length v = 8%nat → Forall (Spec.typed_pixel P) v →
  0 <= p → p + 8 <= Z.of_nat (length dest) →
  LoadSource_pixel P (StoreUnsigned P dest p v) p = v.
Proof.
  intros Hl Hv Hp Hlen.
  transitivity ((λ i, rd v i) <$> seqZ 0 8); [|symmetry; by apply list8_tab].
  rewrite (list8_tab v Hl) at 1. rewrite StoreUnsigned_lanes.
  rewrite LoadSource_pixel_lanes.
  apply list_fmap_ext. intros k i Hi.
  apply lookup_seqZ in Hi as [-> Hk].
  rewrite rd_store_tab by lia.
  replace (p + (0 + Z.of_nat k) - p) with (0 + Z.of_nat k) by lia.
  apply pixel_store_lane. by apply typed_pixel_rd.
Qed.

Lemma LoadSource_StoreUnsigned_witness :
  LoadSource_pixel uint16_t
    (StoreUnsigned uint16_t (replicate 12 7) 3
                   [0; 1023; 512; 64; 940; 4095; 1; 32767]) 3
  = [0; 1023; 512; 64; 940; 4095; 1; 32767].
Proof.
  apply (LoadSource_StoreUnsigned uint16_t (replicate 12 7) 3
           [0; 1023; 512; 64; 940; 4095; 1; 32767]).
  - reflexivity.
  - repeat constructor; simpl; lia.
  - lia.
  - by vm_compute.
Defined.

(** X14. An empty width writes nothing: with [width = 0] the luma kernel
    runs neither a full block nor the right-edge block in any row and
    returns the destination buffer as it was, whatever the strides are. *)
Theorem Luma_empty_width
    bitdepth G P noise_image min_value max_luma scaling_shift
    height start_height scaling_lut_y
    source_plane_y source_stride_y dest_plane_y dest_stride_y :
  1 <= height →
  BlendNoiseWithImageLuma_SSE4_1 bitdepth G P noise_image
    min_value max_luma scaling_shift 0 height start_height scaling_lut_y
    source_plane_y source_stride_y dest_plane_y dest_stride_y
  = Some dest_plane_y.
Proof.
  intros Hh.
  unfold BlendNoiseWithImageLuma_SSE4_1, BlendNoiseWithImageLuma_SSE4_1_rows.
  set (ss := stride_in_pixels P source_stride_y).
  set (ds := stride_in_pixels P dest_stride_y).
  destruct (do_while_inv
    (λ k s, s = (Z.of_nat k, Z.of_nat k * ss, Z.of_nat k * ds, dest_plane_y))
    (Z.to_nat height)
    (Luma_row bitdepth G P noise_image min_value max_luma scaling_shift 0
              start_height scaling_lut_y source_plane_y ss ds)
    (λ s, bool_decide (s.1.1.1 < height)))
    with (fuel := S (Z.to_nat height)) (k := 0%nat)
         (s := (0, 0, 0, dest_plane_y))
    as (s' & -> & ->); [|lia|lia|done|done].
  intros k s Hk ->. eexists. split; [reflexivity|]. split.
  - rewrite !pair_equal_spec. repeat split; lia.
  - cbn [fst]. rewrite bool_decide_eq_true. lia.
Qed.

Lemma Luma_empty_width_witness :
  BlendNoiseWithImageLuma_SSE4_1 10 int16_t uint16_t
    (λ _, {| columns := 8; data := [100; 100; 100; 100; 100; 100; 100; 100] |})
    64 940 8 0 3 0 (replicate 257 255)
    [500; 500; 500; 500; 500; 500; 500; 500] 16
    [1; 2; 3; 4; 5; 6; 7; 8; 9; 10; 11; 12; 13; 14; 15; 16] 16
  = Some [1; 2; 3; 4; 5; 6; 7; 8; 9; 10; 11; 12; 13; 14; 15; 16].
Proof.
  apply (Luma_empty_width 10 int16_t uint16_t
           (λ _, {| columns := 8;
                    data := [100; 100; 100; 100; 100; 100; 100; 100] |})
           64 940 8 3 0 (replicate 257 255)
           [500; 500; 500; 500; 500; 500; 500; 500] 16
           [1; 2; 3; 4; 5; 6; 7; 8; 9; 10; 11; 12; 13; 14; 15; 16] 16).
  lia.
Defined.

(** X15. An empty height does not stop the kernel: the row loop is a
    [do ... while (++y < height)], so with [height <= 0] the luma kernel
    still processes one row, exactly as with [height = 1]. *)
Theorem Luma_height_below_one_runs_one_row
    bitdepth G P noise_image min_value max_luma scaling_shift
    width height start_height scaling_lut_y
    source_plane_y source_stride_y dest_plane_y dest_stride_y :
  height <= 1 →
  BlendNoiseWithImageLuma_SSE4_1 bitdepth G P noise_image
    min_value max_luma scaling_shift width height start_height scaling_lut_y
    source_plane_y source_stride_y dest_plane_y dest_stride_y
  = BlendNoiseWithImageLuma_SSE4_1 bitdepth G P noise_image
      min_value max_luma scaling_shift width 1 start_height scaling_lut_y
      source_plane_y source_stride_y dest_plane_y dest_stride_y.
Proof.
  intros Hh.
  unfold BlendNoiseWithImageLuma_SSE4_1, BlendNoiseWithImageLuma_SSE4_1_rows.
  f_equal. cbn [do_while].
  destruct (Luma_row _ _ _ _ _ _ _ _ _ _ _ _ _ (0, 0, 0, dest_plane_y))
    as [[[[y i] o] d]|] eqn:E; [|done].
  assert (y = 1) as ->.
  { unfold Luma_row in E. destruct (for_loop _ _ _ _ _ _) in E.
    by inversion E. }
  cbn [mbind option_bind fst]. rewrite !bool_decide_eq_false_2 by lia. done.
Qed.

Lemma Luma_height_below_one_runs_one_row_witness :
  BlendNoiseWithImageLuma_SSE4_1 8 int8_t uint8_t Inputs.C2_noise
    16 235 8 11 0 0 (replicate 256 200)
    [0; 255; 16; 240; 128; 1; 2; 3; 250; 251; 252] 16 (replicate 16 0) 16
  = BlendNoiseWithImageLuma_SSE4_1 8 int8_t uint8_t Inputs.C2_noise
      16 235 8 11 1 0 (replicate 256 200)
      [0; 255; 16; 240; 128; 1; 2; 3; 250; 251; 252] 16 (replicate 16 0) 16.
Proof.
  apply (Luma_height_below_one_runs_one_row 8 int8_t uint8_t Inputs.C2_noise
           16 235 8 11 0 0 (replicate 256 200)
           [0; 255; 16; 240; 128; 1; 2; 3; 250; 251; 252] 16
           (replicate 16 0) 16).
  lia.
Defined.

Lemma merged_identity a c : is_u8 c → Spec.merged a c 0 64 0 = c.
Proof.
  unfold is_u8. intros Hc. unfold Spec.merged, Spec.clip_to_intermediate.
  rewrite Z.mul_0_r, Z.add_0_l, Z.add_0_r, Z.shiftr_div_pow2 by lia.
  change (2 ^ 6) with 64. rewrite Z.div_mul by lia.
  unfold Clip3_scalar. rewrite !decide_False by lia. done.
Qed.

(** X16. With the triple [{offset = 0, luma_multiplier = 0, multiplier =
    64}] the multiplier mode does not depend on the luma plane at all: the
    merged index is the chroma sample itself, and the kernel applies to the
    chroma plane the same formula as the luma kernel applies to luma. *)
Theorem Chroma8bpp_identity_triple
    plane params noise_image min_value max_chroma width height start_height
    subsampling_x subsampling_y scaling_lut source_plane_y source_stride_y
    source_plane_uv source_stride_uv dest_plane_uv dest_stride_uv stack :
  Spec.chroma_triple plane params = (0, 0, 64) →
  Forall is_u8 scaling_lut → Forall is_u8 source_plane_uv →
  Forall is_s8 (data (noise_image plane)) →
  8 <= chroma_scaling params <= 11 →
  0 <= min_value <= max_chroma → max_chroma <= 255 →
  0 <= chroma_width width subsampling_x <= dest_stride_uv →
  1 <= chroma_height height subsampling_y →
  (chroma_height height subsampling_y - 1) * dest_stride_uv
    + chroma_width width subsampling_x <= Z.of_nat (length dest_plane_uv) →
  ∃ dest',
    BlendNoiseWithImageChroma8bpp_SSE4_1 plane params noise_image
      min_value max_chroma width height start_height subsampling_x subsampling_y
      scaling_lut source_plane_y source_stride_y source_plane_uv source_stride_uv
      dest_plane_uv dest_stride_uv stack = Some dest' ∧
    ∀ x y, 0 <= x < chroma_width width subsampling_x →
           0 <= y < chroma_height height subsampling_y →
      let chroma := rd source_plane_uv (y * source_stride_uv + x) in
      let noise :=
        rd (data (noise_image plane))
           (row_of (noise_image plane) (y + start_height ≫ subsampling_y) + x) in
      rd dest' (y * dest_stride_uv + x)
      = Clip3_scalar
          (chroma
           + Spec.round_multiply noise
               (Spec.LUT 8 scaling_lut chroma ≪ (15 - chroma_scaling params)))
          min_value max_chroma.
Proof.
  intros Htriple Hlut Huv Hnoise Hsh Hmm Hmax Hw Hh Hlen.
  rewrite Chroma8bpp_plane, Htriple. cbn [fst snd].
  destruct (Chroma8bpp_samples (noise_image plane) min_value max_chroma
              width height start_height subsampling_x subsampling_y
              (chroma_scaling params) 0 64 0
              scaling_lut source_plane_y source_stride_y source_plane_uv
              source_stride_uv dest_stride_uv stack dest_plane_uv)
    as (dest' & -> & Hval); try done; try (unfold is_s8; lia).
  exists dest'. split; [done|]. intros x y Hx Hy. cbv zeta.
  rewrite Hval by done. rewrite merged_identity; [done|].
  apply Forall_rd; [|done]. unfold is_u8. lia.
Qed.

Lemma Chroma8bpp_identity_triple_witness :
  ∃ dest',
    BlendNoiseWithImageChroma8bpp_SSE4_1 kPlaneV Inputs.C3_params
      Inputs.C3_noise 16 240 11 2 0 1 1 (seqZ 0 256) Inputs.C3_luma 16
      Inputs.C3_chroma 8 (replicate 8 7) 8 (λ _, []) = Some dest' ∧
    ∀ x y, 0 <= x < chroma_width 11 1 → 0 <= y < chroma_height 2 1 →
      let chroma := rd Inputs.C3_chroma (y * 8 + x) in
      let noise :=
        rd (data (Inputs.C3_noise kPlaneV))
           (row_of (Inputs.C3_noise kPlaneV) (y + 0 ≫ 1) + x) in
      rd dest' (y * 8 + x)
      = Clip3_scalar
          (chroma
           + Spec.round_multiply noise
               (Spec.LUT 8 (seqZ 0 256) chroma
                ≪ (15 - chroma_scaling Inputs.C3_params)))
          16 240.
Proof.
  apply (Chroma8bpp_identity_triple kPlaneV Inputs.C3_params
           Inputs.C3_noise 16 240 11 2 0 1 1 (seqZ 0 256) Inputs.C3_luma 16
           Inputs.C3_chroma 8 (replicate 8 7) 8 (λ _, [])).
  - reflexivity.
  - apply Forall_forall. intros z Hz. apply elem_of_seqZ in Hz.
    unfold is_u8. lia.
  - repeat constructor; unfold is_u8; lia.
  - repeat constructor; unfold is_s8; simpl; lia.
  - by vm_compute.
  - lia.
  - lia.
  - by vm_compute.
  - by vm_compute.
  - by vm_compute.
Defined.

(** X17. The right edge of [BlendNoiseWithImageChromaWithCfl_SSE4_1]: the
    scratch copy of the luma row holds the valid luma samples, the last one
    once more and zeros after it; all eight lanes of the edge block are
    stored, so the chroma columns from the chroma width up to the end of
    the block are overwritten, and nothing outside the blocks of the rows
    changes. *)
Theorem ChromaWithCfl_right_edge_full_lane_store
    bitdepth G P plane params noise_image min_value max_chroma
    width height start_height subsampling_x subsampling_y scaling_lut
    source_plane_y source_stride_y source_plane_uv source_stride_uv
    dest_plane_uv dest_stride_uv :
  subsampling_x = 0 ∨ subsampling_x = 1 →
  0 <= width →
  chroma_width width subsampling_x `mod` 8 ≠ 0 →
  1 <= chroma_height height subsampling_y →
  row_span (chroma_width width subsampling_x)
    <= stride_in_pixels P dest_stride_uv →
  (chroma_height height subsampling_y - 1) * (stride_in_pixels P dest_stride_uv)
    + row_span (chroma_width width subsampling_x)
    <= Z.of_nat (length dest_plane_uv) →
  ∃ dest',
    BlendNoiseWithImageChromaWithCfl_SSE4_1 bitdepth G P plane params
      noise_image min_value max_chroma width height start_height
      subsampling_x subsampling_y scaling_lut
      source_plane_y source_stride_y source_plane_uv source_stride_uv
      dest_plane_uv dest_stride_uv = Some dest' ∧
    (∀ y, 0 <= y < chroma_height height subsampling_y →
       let x := 8 * (chroma_width width subsampling_x `div` 8) in
       let luma_x := x ≪ subsampling_x in
       let valid_range := width - luma_x in
       let in_y_row :=
         y * ((stride_in_pixels P source_stride_y) ≪ subsampling_y) in
       let luma_buffer :=
         edge_luma_buffer width subsampling_x subsampling_y source_plane_y
                          (stride_in_pixels P source_stride_y) y in
       (∀ i, 0 <= i < valid_range →
          rd luma_buffer i = rd source_plane_y (in_y_row + luma_x + i)) ∧
       rd luma_buffer valid_range
       = rd source_plane_y (in_y_row + (width - 1)) ∧
       (∀ i, valid_range < i < 16 → rd luma_buffer i = 0) ∧
       (∀ i, 0 <= i < 8 →
          rd dest' (y * (stride_in_pixels P dest_stride_uv) + x + i)
          = blend_lane bitdepth G P scaling_lut min_value max_chroma
              (chroma_scaling params)
              (rd source_plane_uv
                  (y * (stride_in_pixels P source_stride_uv) + x + i))
              (store_lane P (average_luma_lane P luma_buffer 0 subsampling_x i))
              (rd (data (noise_image plane))
                  (row_of (noise_image plane)
                          (y + start_height ≫ subsampling_y) + x + i)))) ∧
    (∀ q,
       (∀ y, 0 <= y < chroma_height height subsampling_y →
          ¬ (y * (stride_in_pixels P dest_stride_uv) <= q
             < y * (stride_in_pixels P dest_stride_uv)
               + row_span (chroma_width width subsampling_x))) →
       rd dest' q = rd dest_plane_uv q).
Proof.
  intros Hs Hw Hedge Hh Hds Hlen.
  unfold BlendNoiseWithImageChromaWithCfl_SSE4_1.
  by apply Claims.ChromaWithCfl_right_edge_store.
Qed.

Lemma ChromaWithCfl_right_edge_full_lane_store_witness :
  ∃ dest',
    BlendNoiseWithImageChromaWithCfl_SSE4_1 10 int16_t uint16_t kPlaneU
      Inputs.C3_params
      (λ _, {| columns := 8; data := [511; -512; 7; 0; 1; 2; 3; 4] |})
      64 960 11 1 0 1 0 (replicate 257 100)
      [64; 1023; 500; 501; 0; 940; 7; 8; 9; 10; 11; 12; 13; 14; 15; 16] 32
      [512; 64; 960; 1; 2; 3; 4; 5] 16 (replicate 8 0) 16 = Some dest' ∧
    (∀ y, 0 <= y < chroma_height 1 0 →
       let x := 8 * (chroma_width 11 1 `div` 8) in
       let luma_x := x ≪ 1 in
       let valid_range := 11 - luma_x in
       let in_y_row := y * ((stride_in_pixels uint16_t 32) ≪ 0) in
       let luma_buffer :=
         edge_luma_buffer 11 1 0
           [64; 1023; 500; 501; 0; 940; 7; 8; 9; 10; 11; 12; 13; 14; 15; 16]
           (stride_in_pixels uint16_t 32) y in
       (∀ i, 0 <= i < valid_range →
          rd luma_buffer i
          = rd [64; 1023; 500; 501; 0; 940; 7; 8; 9; 10; 11; 12; 13; 14; 15; 16]
               (in_y_row + luma_x + i)) ∧
       rd luma_buffer valid_range
       = rd [64; 1023; 500; 501; 0; 940; 7; 8; 9; 10; 11; 12; 13; 14; 15; 16]
            (in_y_row + (11 - 1)) ∧
       (∀ i, valid_range < i < 16 → rd luma_buffer i = 0) ∧
       (∀ i, 0 <= i < 8 →
          rd dest' (y * (stride_in_pixels uint16_t 16) + x + i)
          = blend_lane 10 int16_t uint16_t (replicate 257 100) 64 960
              (chroma_scaling Inputs.C3_params)
              (rd [512; 64; 960; 1; 2; 3; 4; 5]
                  (y * (stride_in_pixels uint16_t 16) + x + i))
              (store_lane uint16_t (average_luma_lane uint16_t luma_buffer 0 1 i))
              (rd (data {| columns := 8; data := [511; -512; 7; 0; 1; 2; 3; 4] |})
                  (row_of {| columns := 8;
                             data := [511; -512; 7; 0; 1; 2; 3; 4] |}
                          (y + 0 ≫ 0) + x + i)))) ∧
    (∀ q,
       (∀ y, 0 <= y < chroma_height 1 0 →
          ¬ (y * (stride_in_pixels uint16_t 16) <= q
             < y * (stride_in_pixels uint16_t 16) + row_span (chroma_width 11 1))) →
       rd dest' q = rd (replicate 8 0) q).
Proof.
  apply (ChromaWithCfl_right_edge_full_lane_store 10 int16_t uint16_t kPlaneU
           Inputs.C3_params
           (λ _, {| columns := 8; data := [511; -512; 7; 0; 1; 2; 3; 4] |})
           64 960 11 1 0 1 0 (replicate 257 100)
           [64; 1023; 500; 501; 0; 940; 7; 8; 9; 10; 11; 12; 13; 14; 15; 16] 32
           [512; 64; 960; 1; 2; 3; 4; 5] 16 (replicate 8 0) 16).
  - by right.
  - lia.
  - by vm_compute.
  - by vm_compute.
  - by vm_compute.
  - by vm_compute.
Defined.

(** The inner loop of the large blend kernel counts in steps of 16: up to
    the next multiple of 16 the bound of the loop does not matter. *)
Lemma do_while_blocks16 {St} (body : Z * St → option (Z * St)) W W' :
  (∀ x m, ∃ m', body (x, m) = Some (x + 16, m')) →
  W' `mod` 16 = 0 → W' - 16 < W <= W' →
  ∀ (n fuel : nat) x m,
    x = W' - 16 * Z.of_nat n → (1 ≤ n)%nat → (n ≤ fuel)%nat →
    do_while fuel body (λ s, bool_decide (s.1 < W)) (x, m)
    = do_while n body (λ s, bool_decide (s.1 < W')) (x, m).
Proof.
  intros Hbody Hmod HW n. induction n as [|n IH]; intros fuel x m Hx Hn Hf;
    [lia|].
  destruct fuel as [|fuel]; [lia|]. cbn [do_while].
  destruct (Hbody x m) as (m' & ->). cbn [mbind option_bind fst].
  destruct (decide (n = 0%nat)) as [->|Hn0].
  - rewrite !bool_decide_eq_false_2 by lia. done.
  - pose proof (Z.div_mod W' 16 ltac:(lia)).
    rewrite !bool_decide_eq_true_2 by lia.
    apply IH; lia.
Qed.

(** X18. The large blend kernel works in blocks of 16 columns: every width
    other than 4 and 8 is processed as the next multiple of 16, so a width
    that is not a multiple of 16 has up to 15 columns past it written in
    every row. *)
Theorem blend_width_rounds_up_to_16
    pred_0 s0 pred_1 s1 w0 w1 width height dest0 ds :
  1 <= width → width ≠ 4 → width ≠ 8 →
  DistanceWeightedBlend_NEON pred_0 s0 pred_1 s1 w0 w1 width height dest0 ds
  = DistanceWeightedBlend_NEON pred_0 s0 pred_1 s1 w0 w1
      (16 * ((width + 15) `div` 16)) height dest0 ds.
Proof.
  intros Hw H4 H8. unfold DistanceWeightedBlend_NEON.
  pose proof (Z.div_mod (width + 15) 16 ltac:(lia)) as Hdm.
  pose proof (Z.mod_pos_bound (width + 15) 16 ltac:(lia)) as Hmb.
  set (W' := 16 * ((width + 15) `div` 16)) in *.
  rewrite !(decide_False (P := width = 4)), !(decide_False (P := width = 8))
    by done.
  rewrite !(decide_False (P := W' = 4)), !(decide_False (P := W' = 8)) by lia.
  f_equal. unfold DistanceWeightedBlendLarge_NEON. f_equal.
  assert (∀ s, BlendLarge_ybody pred_0 pred_1 s0 s1
                 (vdup_n_s16 w0, vdup_n_s16 w1) ds width s
               = BlendLarge_ybody pred_0 pred_1 s0 s1
                   (vdup_n_s16 w0, vdup_n_s16 w1) ds W' s) as Hy.
  { intros [y c]. unfold BlendLarge_ybody.
    assert (W' `div` 16 = (width + 15) `div` 16) as Hq.
    { unfold W'. by rewrite Z.mul_comm, Z.div_mul by lia. }
    assert (W' `mod` 16 = 0) as Hm.
    { unfold W'. by rewrite Z.mul_comm, Z.mod_mul by lia. }
    assert (∀ W, W' - 16 < W <= W' → 1 <= W →
              do_while (S (Z.to_nat W))
                (BlendLarge_xbody pred_0 pred_1
                   (vdup_n_s16 w0, vdup_n_s16 w1) c)
                (λ s, bool_decide (s.1 < W)) (0, dest c)
              = do_while (Z.to_nat (W' `div` 16))
                  (BlendLarge_xbody pred_0 pred_1
                     (vdup_n_s16 w0, vdup_n_s16 w1) c)
                  (λ s, bool_decide (s.1 < W')) (0, dest c)) as E.
    { intros W HW HW1. apply do_while_blocks16; try done; try lia.
      intros x m. eexists. reflexivity. }
    rewrite (E width), (E W') by lia. done. }
  generalize (Z.to_nat height) (height, Cursor 0 0 0 dest0).
  intros fuel. induction fuel as [|fuel IH]; intros s; [done|].
  cbn [do_while]. rewrite Hy.
  destruct (BlendLarge_ybody _ _ _ _ _ _ W' s) as [s'|]; [|done].
  cbn [mbind option_bind]. by rewrite IH.
Qed.

Lemma blend_width_rounds_up_to_16_witness :
  DistanceWeightedBlend_NEON (seqZ 0 64) 32 (seqZ 64 64) 32 9 7 24 2
                             (replicate 64 0) 32
  = DistanceWeightedBlend_NEON (seqZ 0 64) 32 (seqZ 64 64) 32 9 7
      (16 * ((24 + 15) `div` 16)) 2 (replicate 64 0) 32.
Proof.
  apply (blend_width_rounds_up_to_16 (seqZ 0 64) 32 (seqZ 64 64) 32 9 7 24 2
           (replicate 64 0) 32); lia.
Defined.

End Extras.
